(** * ORTools-Scheduler: the nurse rostering model, its rules and its orchestrator

    A shallow embedding of [utils.py], [constraints.py] and the two
    [scheduler.py] variants, with the CP-SAT model kept as data (the
    variables and constraints that the Python code hands to OR-Tools)
    and given its meaning by an evaluator over boolean assignments. *)

From Stdlib Require Import ZArith List Lia.
From stdpp Require Import base option list gmap strings fin_maps sorting.

Local Open Scope Z_scope.

(** ** Python outcomes: a value or a raised exception *)

Inductive exn : Set :=
  | ValueError | KeyError | IndexError | ZeroDivisionError | TypeError
  | SystemExit.

Inductive outcome (A : Type) : Type :=
  | Ok (a : A)
  | Raise (e : exn).
Arguments Ok {A} a.
Arguments Raise {A} e.

Definition obind {A B} (o : outcome A) (k : A → outcome B) : outcome B :=
  match o with
  | Ok a => k a
  | Raise e => Raise e
  end.

Definition is_Ok {A} (o : outcome A) : Prop := ∃ a, o = Ok a.

(** Python's [//] and [%] on integers round towards minus infinity, as
    [Z.div] and [Z.modulo] do; a zero divisor raises. *)
Definition floordiv (a b : Z) : outcome Z :=
  if decide (b = 0) then Raise ZeroDivisionError else Ok (a `div` b).

Definition pymod (a b : Z) : outcome Z :=
  if decide (b = 0) then Raise ZeroDivisionError else Ok (a `mod` b).

(** [range(a, b)] and [len]. *)
Definition range (a b : Z) : list Z :=
  (λ i : nat, a + Z.of_nat i) <$> seq 0 (Z.to_nat (b - a)).

Definition len {A} (l : list A) : Z := Z.of_nat (length l).

(** [l[::k]]: every [k]-th element from the front for a positive step,
    from the back for a negative one; a zero step raises [ValueError]. *)
Definition every {A} (k : nat) (l : list A) : list A :=
  omap (λ j : nat, l !! (j * k)%nat) (seq 0 (length l)).

Definition slice_step {A} (l : list A) (k : Z) : outcome (list A) :=
  if decide (k = 0) then Raise ValueError
  else if decide (0 < k) then Ok (every (Z.to_nat k) l)
  else Ok (every (Z.to_nat (- k)) (reverse l)).

(** ** utils.py *)

Definition days_of_week : list string :=
  ["Monday"; "Tuesday"; "Wednesday"; "Thursday";
   "Friday"; "Saturday"; "Sunday"]%string.

(** [list.index]: the position of the first occurrence, [ValueError]
    when there is none. *)
Fixpoint index_from (x : string) (l : list string) (i : Z) : outcome Z :=
  match l with
  | [] => Raise ValueError
  | y :: l' => if decide (y = x) then Ok i else index_from x l' (i + 1)
  end.

Definition list_index (l : list string) (x : string) : outcome Z :=
  index_from x l 0.

(** [l[i]] for a non-negative index. *)
Definition getitem_list (l : list string) (i : Z) : outcome string :=
  match l !! Z.to_nat i with
  | Some s => Ok s
  | None => Raise IndexError
  end.

Definition what_day (day : Z) (start_day : string) : outcome (string * bool) :=
  obind (list_index days_of_week start_day) (λ i,
    let day_index := (i + day) `mod` 7 in
    let is_weekend := bool_decide (5 ≤ day_index) in
    obind (getitem_list days_of_week day_index) (λ name,
      Ok (name, is_weekend))).

(** ** The CP-SAT model as data *)

(** The f-string names given to [NewBoolVar]. *)
Inductive vname : Set :=
  | shift_name (nurse day shift : Z)     (* f'shift_n{nurse}_d{day}_s{shift}' *)
  | rest_name (nurse day : Z)            (* f'rest_n{nurse}_d{day}' *)
  | worked_shift_name (nurse day : Z).   (* f'worked_shift_n{nurse}_d{day}' *)

(** A variable handle is its index in the model's variable list. *)
Abbreviation var := nat (only parsing).

Inductive LinearExpr : Set :=
  | LVar (v : var)
  | LInt (k : Z)
  | LSum (vs : list var).

Inductive relop : Set := Le | Ge | Eq.

(** [Add(lhs op rhs)], optionally followed by [OnlyEnforceIf(lits)];
    [AddExactlyOne], [AddAtMostOne]; [AddMaxEquality]. *)
Inductive constraint : Set :=
  | Linear (lhs : LinearExpr) (op : relop) (rhs : LinearExpr)
           (enforce : list var)
  | ExactlyOne (vs : list var)
  | AtMostOne (vs : list var)
  | MaxEquality (target : var) (vs : list var).

Record CpModel : Set := mkCpModel {
  variables : list vname;
  constraints : list constraint
}.

Definition empty_model : CpModel := mkCpModel [] [].

(** *** Meaning of a model: which boolean assignments satisfy it *)

Definition assignment := var → bool.

Definition Value (a : assignment) (v : var) : Z := if a v then 1 else 0.

Definition sum_values (a : assignment) (vs : list var) : Z :=
  foldr (λ v acc, Value a v + acc) 0 vs.

Definition eval (a : assignment) (e : LinearExpr) : Z :=
  match e with
  | LVar v => Value a v
  | LInt k => k
  | LSum vs => sum_values a vs
  end.

Definition rel (op : relop) (x y : Z) : bool :=
  match op with
  | Le => bool_decide (x ≤ y)
  | Ge => bool_decide (y ≤ x)
  | Eq => bool_decide (x = y)
  end.

Definition holds (a : assignment) (c : constraint) : bool :=
  match c with
  | Linear lhs op rhs enforce =>
      negb (forallb a enforce) || rel op (eval a lhs) (eval a rhs)
  | ExactlyOne vs => bool_decide (sum_values a vs = 1)
  | AtMostOne vs => bool_decide (sum_values a vs ≤ 1)
  | MaxEquality t vs => bool_decide (a t = existsb a vs)
  end.

Definition satisfies (a : assignment) (m : CpModel) : bool :=
  forallb (holds a) (constraints m).

(** The variables a constraint mentions. *)
Definition expr_vars (e : LinearExpr) : list var :=
  match e with
  | LVar v => [v]
  | LInt _ => []
  | LSum vs => vs
  end.

Definition constraint_vars (c : constraint) : list var :=
  match c with
  | Linear lhs _ rhs enforce => expr_vars lhs ++ expr_vars rhs ++ enforce
  | ExactlyOne vs => vs
  | AtMostOne vs => vs
  | MaxEquality t vs => t :: vs
  end.

Definition mentions (v : var) (m : CpModel) : Prop :=
  ∃ c, c ∈ constraints m ∧ v ∈ constraint_vars c.

(** ** Building a model: state and exceptions

    The Python rules mutate one [CpModel] object and may raise half way
    through; what was added before the exception stays in the model.
    A computation therefore maps a state to an outcome and the state it
    leaves behind. Beside the model the state keeps the keys with which
    the [shifts] and [rest_days] dictionaries were subscripted, in
    order, so that statements about which entries a rule looks up can
    be made. *)

Inductive key : Set :=
  | ShiftKey (nurse day shift : Z)   (* shifts[(nurse, day, shift)] *)
  | RestKey (nurse day : Z).         (* rest_days[(nurse, day)] *)

Definition key_day (k : key) : Z :=
  match k with
  | ShiftKey _ d _ => d
  | RestKey _ d => d
  end.

Record Env : Set := mkEnv {
  cp : CpModel;
  reads : list key
}.

Definition M (A : Type) : Type := Env → outcome A * Env.

Definition ret {A} (a : A) : M A := λ e, (Ok a, e).

Definition bind {A B} (m : M A) (k : A → M B) : M B :=
  λ e, match m e with
       | (Ok a, e') => k a e'
       | (Raise x, e') => (Raise x, e')
       end.

Definition lift {A} (o : outcome A) : M A := λ e, (o, e).

Notation "'do' x <- m ; k" := (bind m (λ x, k))
  (at level 10, x name, m at level 100, k at level 200,
   format "'[v' 'do'  x  <-  m ; '/' k ']'").
Notation "'do' ' p <- m ; k" := (bind m (λ x, match x with p => k end))
  (at level 10, p pattern, m at level 100, k at level 200).
Notation "m ;; k" := (bind m (λ _, k))
  (at level 100, k at level 200, right associativity).

(** [model.NewBoolVar(name)] *)
Definition NewBoolVar (name : vname) : M var :=
  λ e, (Ok (length (variables (cp e))),
        mkEnv (mkCpModel (variables (cp e) ++ [name]) (constraints (cp e)))
              (reads e)).

(** [model.Add(...)], [model.AddExactlyOne(...)] and the like: the
    constraint is appended to the model.

    This is the call on a bounded linear expression or on a list of
    literals. Two cases of the Python library stand outside it. A
    comparison [expr <= c] whose integer constant does not fit a 64-bit
    integer raises [TypeError] when it is evaluated, before [Add] is
    reached. And the sum of no variable at all is the Python integer 0,
    its comparison with a constant a Python [bool], and [Add] of a
    [bool] puts a constant variable and a [bool_or] into the model in
    place of the linear constraint, with the same satisfying
    assignments. Statements that depend on either case carry the bound
    on the constant, or the non-emptiness of the sum, as a
    hypothesis. *)
Definition Add (c : constraint) : M unit :=
  λ e, (Ok (),
        mkEnv (mkCpModel (variables (cp e)) (constraints (cp e) ++ [c]))
              (reads e)).

(** [shifts[(nurse, day, shift)]] and [rest_days[(nurse, day)]] *)
Definition getitem_shifts (shifts : gmap (Z * Z * Z) var)
    (k : Z * Z * Z) : M var :=
  λ e, let e' := mkEnv (cp e) (reads e ++ [ShiftKey k.1.1 k.1.2 k.2]) in
       match shifts !! k with
       | Some v => (Ok v, e')
       | None => (Raise KeyError, e')
       end.

Definition getitem_rest (rest_days : gmap (Z * Z) var) (k : Z * Z) : M var :=
  λ e, let e' := mkEnv (cp e) (reads e ++ [RestKey k.1 k.2]) in
       match rest_days !! k with
       | Some v => (Ok v, e')
       | None => (Raise KeyError, e')
       end.

(** [for x in xs: body] *)
Fixpoint for_each {A} (xs : list A) (body : A → M unit) : M unit :=
  match xs with
  | [] => ret ()
  | x :: xs' => body x ;; for_each xs' body
  end.

(** A generator or list comprehension [f(x) for x in xs], consumed in
    order. *)
Fixpoint mapM {A B} (f : A → M B) (xs : list A) : M (list B) :=
  match xs with
  | [] => ret []
  | x :: xs' => do y <- f x; do ys <- mapM f xs'; ret (y :: ys)
  end.

(** A dictionary comprehension [{k: model.NewBoolVar(name(k)) for k in
    keys}]: a key met again keeps its place and takes the newer
    variable. *)
Fixpoint dict_comp {K} `{Countable K} (name : K → vname) (keys : list K)
    (d : gmap K var) : M (gmap K var) :=
  match keys with
  | [] => ret d
  | k :: keys' => do v <- NewBoolVar (name k); dict_comp name keys' (<[k := v]> d)
  end.
(** ** The roster: a DataFrame with the columns [Nurse] and [Team] *)

Record NurseRow : Set := mkNurse {
  Nurse : Z;
  Team : string
}.

(** [nurses['Nurse']] *)
Definition col_Nurse (nurses : list NurseRow) : list Z := Nurse <$> nurses.

Definition string_le (a b : string) : Prop := String.leb a b = true.

Global Instance string_le_dec : RelDecision string_le.
Proof. intros a b. unfold string_le. apply _. Defined.

(** [nurses.groupby('Team')]: one group per team label, the labels in
    sorted order, each group with its rows in roster order. *)
Definition groupby_Team (nurses : list NurseRow)
    : list (string * list NurseRow) :=
  (λ t, (t, filter (λ r, Team r = t) nurses))
    <$> merge_sort string_le (remove_dups (Team <$> nurses)).

(** [daily_shifts: dict[int, str]], in insertion order; iterating it
    yields the shift indices. *)
Definition shift_keys (daily_shifts : list (Z * string)) : list Z :=
  fst <$> daily_shifts.

(** ** constraints.py: NurseConstraintLibrary *)

Module NurseConstraintLibrary.

Section rules.
Variable shifts : gmap (Z * Z * Z) var.
Variable nurses : list NurseRow.

(** [sum(shifts[(nurse, day, shift)] for day in ds for shift in ss)]:
    the variables are fetched in generator order. *)
Definition shift_vars (nurse : Z) (ds ss : list Z) : M (list var) :=
  mapM (getitem_shifts shifts)
       (d ← ds; s ← ss; [(nurse, d, s)]).

Definition limit_shifts_per_period (days : list Z)
    (daily_shifts : list (Z * string))
    (period_length shift_limit : Z) : M unit :=
  (* print(period_length, shift_limit) *)
  do periods <- lift (slice_step days period_length);
  for_each periods (λ period,
    let period_days :=
      range period (Z.min (period + period_length) (len days)) in
    for_each (col_Nurse nurses) (λ nurse,
      do vs <- shift_vars nurse period_days (shift_keys daily_shifts);
      Add (Linear (LSum vs) Le (LInt shift_limit) []))).

(** [AddExactlyOne] is handed a generator: the variables are fetched
    while the library builds the constraint. Here they are fetched
    first, which is the same whenever every key is found; when one is
    missing the [KeyError] is the same, but the library has then
    already put the constraint, with the part read so far, into the
    model. The same holds for [AddAtMostOne] in
    [limit_consecutive_shifts]. *)
Definition single_nurse_per_shift (days : list Z)
    (daily_shifts : list (Z * string)) : M unit :=
  for_each days (λ day,
    for_each (shift_keys daily_shifts) (λ shift,
      do vs <- mapM (getitem_shifts shifts)
                 ((λ nurse, (nurse, day, shift)) <$> col_Nurse nurses);
      Add (ExactlyOne vs))).

Definition limit_nurse_per_team_per_day (days : list Z)
    (daily_shifts : list (Z * string)) (nurse_limit : Z) : M unit :=
  for_each days (λ day,
    for_each (groupby_Team nurses) (λ '(_, group),
      do vs <- mapM (getitem_shifts shifts)
                 (nurse ← col_Nurse group;
                  shift ← shift_keys daily_shifts;
                  [(nurse, day, shift)]);
      Add (Linear (LSum vs) Le (LInt nurse_limit) []))).

Definition distribute_shifts_evenly (days : list Z)
    (daily_shifts : list (Z * string))
    (num_nurses tolerance : Z) : M unit :=
  let num_days := len days in
  let num_shifts := len daily_shifts in
  do min_shifts_per_nurse <- lift (floordiv (num_shifts * num_days) num_nurses);
  do r <- lift (pymod (num_shifts * num_days) num_nurses);
  let max_shifts_per_nurse :=
    if decide (r = 0) then min_shifts_per_nurse
    else min_shifts_per_nurse + tolerance in
  for_each (col_Nurse nurses) (λ nurse,
    do num_shifts_worked <- shift_vars nurse days (shift_keys daily_shifts);
    Add (Linear (LSum num_shifts_worked) Ge (LInt min_shifts_per_nurse) []) ;;
    Add (Linear (LSum num_shifts_worked) Le (LInt max_shifts_per_nurse) [])).

Definition max_shifts_per_week (days : list Z)
    (daily_shifts : list (Z * string))
    (num_days shift_limit : Z) : M unit :=
  do week_starts <- lift (slice_step days 7);
  for_each week_starts (λ week_start,
    for_each (col_Nurse nurses) (λ nurse,
      let week_days := range week_start (Z.min (week_start + 7) num_days) in
      do vs <- shift_vars nurse week_days (shift_keys daily_shifts);
      Add (Linear (LSum vs) Le (LInt shift_limit) []))).

Definition limit_consecutive_shifts (days : list Z) (num_days : Z)
    (limited_shifts : list Z) (num_consecutive : Z) : M unit :=
  for_each days (λ day,
    for_each (col_Nurse nurses) (λ nurse,
      let max_consecutive_days := Z.min num_consecutive (num_days - day) in
      do vs <- mapM (getitem_shifts shifts)
                 (offset ← range 0 max_consecutive_days;
                  shift ← limited_shifts;
                  [(nurse, day + offset, shift)]);
      Add (AtMostOne vs))).

Definition limit_shifts_after_shifts (days : list Z)
    (first_shifts limited_shifts : list Z)
    (num_consecutive allowed_num_shifts : Z) : M unit :=
  for_each days (λ day,
    for_each (col_Nurse nurses) (λ nurse,
      do worked_shifts_first <- NewBoolVar (worked_shift_name nurse day);
      do firsts <- mapM (getitem_shifts shifts)
                     ((λ shift, (nurse, day, shift)) <$> first_shifts);
      Add (MaxEquality worked_shifts_first firsts) ;;
      let max_consecutive_days := Z.min num_consecutive (len days - day) in
      do vs <- mapM (getitem_shifts shifts)
                 (offset ← range 0 max_consecutive_days;
                  shift ← limited_shifts;
                  [(nurse, day + offset, shift)]);
      Add (Linear (LSum vs) Eq (LInt allowed_num_shifts)
                  [worked_shifts_first]))).

Definition assign_consecutive_shifts (rest_days : gmap (Z * Z) var)
    (days : list Z) (daily_shifts : list (Z * string))
    (start_day : string) (num_days : Z)
    (start_shift_day : string) (shift_index num_consecutive : Z) : M unit :=
  for_each days (λ day,
    do wd <- lift (what_day day start_day);
    let day_name := wd.1 in
    for_each (col_Nurse nurses) (λ nurse,
      if decide (day_name = start_shift_day) then
        do worked_consecutive_shifts <-
          NewBoolVar (worked_shift_name nurse day);
        do first <- getitem_shifts shifts (nurse, day, shift_index);
        Add (Linear (LVar worked_consecutive_shifts) Eq (LVar first) []) ;;
        for_each (range 1 num_consecutive) (λ day_offset,
          let shift_day_index := day + day_offset in
          if decide (shift_day_index < num_days) then
            do later <- getitem_shifts shifts
                          (nurse, shift_day_index, shift_index);
            do first <- getitem_shifts shifts (nurse, day, shift_index);
            Add (Linear (LVar later) Eq (LVar first) [])
          else ret ()) ;;
        let rest_start_day := day + num_consecutive in
        for_each (range 0 2) (λ rest_offset,
          let rest_day_index := rest_start_day + rest_offset in
          if decide (rest_day_index < num_days) then
            do vs <- mapM (getitem_shifts shifts)
                       ((λ shift, (nurse, rest_day_index, shift))
                          <$> shift_keys daily_shifts);
            Add (Linear (LSum vs) Eq (LInt 0)
                        [worked_consecutive_shifts]) ;;
            do rest <- getitem_rest rest_days (nurse, rest_day_index);
            Add (Linear (LVar rest) Eq (LVar worked_consecutive_shifts) [])
          else ret ())
      else ret ())).

Definition distribute_night_shifts_evenly (days : list Z)
    (num_nurses shift_index : Z) : M unit :=
  let num_days := len days in
  let weeks := num_days `div` 7 in
  let remaining_days := num_days `mod` 7 in
  let num_3blocks := weeks + remaining_days `div` 3 in
  let num_4blocks := weeks in
  let total_blocks := num_3blocks + num_4blocks in
  do blocks_per_nurse <- lift (floordiv total_blocks num_nurses);
  let min_shifts_per_nurse :=
    foldl (λ acc i, if decide (i `mod` 2 = 0) then acc + 3 else acc + 4)
          0 (range 0 blocks_per_nurse) in
  do r <- lift (pymod num_days num_nurses);
  let max_shifts_per_nurse :=
    if decide (r = 0) then min_shifts_per_nurse
    else min_shifts_per_nurse + 4 in
  for_each (col_Nurse nurses) (λ nurse,
    do num_shifts_worked <-
      mapM (getitem_shifts shifts) ((λ day, (nurse, day, shift_index)) <$> days);
    Add (Linear (LSum num_shifts_worked) Ge (LInt min_shifts_per_nurse) []) ;;
    Add (Linear (LSum num_shifts_worked) Le (LInt max_shifts_per_nurse) [])).

End rules.

End NurseConstraintLibrary.
(** ** The solver, seen from the orchestrator

    [solver.Solve(model)] is OR-Tools' search; the orchestrator only
    reads the status it returns and, through [solver.Value], the value
    of each variable. *)

Inductive CpSolverStatus : Set :=
  | UNKNOWN | MODEL_INVALID | FEASIBLE | INFEASIBLE | OPTIMAL.

Global Instance CpSolverStatus_eq_dec : EqDecision CpSolverStatus.
Proof. solve_decision. Defined.

Record CpSolver : Set := mkSolver {
  status : CpSolverStatus;
  values : assignment
}.

(** The solver's side of the contract: a solution comes with the
    statuses [OPTIMAL] and [FEASIBLE], and it satisfies the model. *)
Definition solver_contract (m : CpModel) (solver : CpSolver) : Prop :=
  status solver = OPTIMAL ∨ status solver = FEASIBLE →
  satisfies (values solver) m = true.

(** The [solution] frame: the rows [(Nurse, Day, Shift)] and, once
    added, the [Weekend] column. The order of the rows (a set is turned
    into a frame and sorted) is not modelled: rows come in the order of
    the dictionary's keys. *)
Record SolutionFrame : Set := mkFrame {
  rows : list (Z * Z * Z);
  Weekend : option (list bool)
}.

(** [{(n, d, s) for (n, d, s) in self.shifts
      if solver.Value(self.shifts[(n, d, s)]) == 1}] *)
Definition rota_dict (solver : CpSolver) (shifts : gmap (Z * Z * Z) var)
    : list (Z * Z * Z) :=
  fst <$> filter (λ kv, Value (values solver) kv.2 = 1) (map_to_list shifts).

Definition rests_dict (solver : CpSolver) (rest_days : gmap (Z * Z) var)
    : list (Z * Z) :=
  fst <$> filter (λ kv, Value (values solver) kv.2 = 1) (map_to_list rest_days).

(** [self.solution['Day'].apply(lambda x: what_day(x, self.start_day)[1])] *)
Fixpoint weekend_column (start_day : string) (rs : list (Z * Z * Z))
    : outcome (list bool) :=
  match rs with
  | [] => Ok []
  | (_, d, _) :: rs' =>
      obind (what_day d start_day) (λ wd,
        obind (weekend_column start_day rs') (λ col, Ok (wd.2 :: col)))
  end.

(** [[day for day in all_days if what_day(day, start_day)[1]]] for
    [want = true], and with [not] for [want = false]. *)
Fixpoint days_where (want : bool) (start_day : string) (days : list Z)
    : outcome (list Z) :=
  match days with
  | [] => Ok []
  | d :: days' =>
      obind (what_day d start_day) (λ wd,
        obind (days_where want start_day days') (λ r,
          Ok (if decide (wd.2 = want) then d :: r else r)))
  end.

Definition shift_keys_of (nurses : list NurseRow) (all_days : list Z)
    (daily_shifts : list (Z * string)) : list (Z * Z * Z) :=
  nurse ← col_Nurse nurses; day ← all_days; shift ← shift_keys daily_shifts;
  [(nurse, day, shift)].

Definition rest_keys_of (nurses : list NurseRow) (all_days : list Z)
    : list (Z * Z) :=
  nurse ← col_Nurse nurses; day ← all_days; [(nurse, day)].

(** The two dictionary comprehensions of [__post_init__]. *)
Definition new_variables (nurses : list NurseRow) (all_days : list Z)
    (daily_shifts : list (Z * string))
    : M (gmap (Z * Z * Z) var * gmap (Z * Z) var) :=
  do shifts <- dict_comp (λ k, shift_name k.1.1 k.1.2 k.2)
                 (shift_keys_of nurses all_days daily_shifts) ∅;
  do rest_days <- dict_comp (λ k, rest_name k.1 k.2)
                    (rest_keys_of nurses all_days) ∅;
  ret (shifts, rest_days).

(** ** scheduler.py *)

Module Scheduler.

Import NurseConstraintLibrary.

Record NurseSchedulingModel : Type := mkModel {
  nurses : list NurseRow;
  daily_shifts : list (Z * string);
  num_days : Z;
  start_day : string;
  all_days : list Z;
  num_nurses : Z;
  model : CpModel;
  shifts : gmap (Z * Z * Z) var;
  rest_days : gmap (Z * Z) var;
  solution : option SolutionFrame;      (* unset until [solve] *)
  assigned_rests : option (list (Z * Z))
}.

(** The dataclass constructor followed by [__post_init__]. *)
Definition post_init (nurses : list NurseRow)
    (daily_shifts : list (Z * string)) (num_days : Z) (start_day : string)
    : outcome NurseSchedulingModel :=
  let all_days := range 0 num_days in
  let num_nurses := len nurses in
  match new_variables nurses all_days daily_shifts (mkEnv empty_model []) with
  | (Ok (shifts, rest_days), e) =>
      Ok (mkModel nurses daily_shifts num_days start_day all_days num_nurses
                  (cp e) shifts rest_days None None)
  | (Raise x, _) => Raise x
  end.

Definition with_model (self : NurseSchedulingModel) (m : CpModel)
    : NurseSchedulingModel :=
  mkModel (nurses self) (daily_shifts self) (num_days self) (start_day self)
          (all_days self) (num_nurses self) m (shifts self) (rest_days self)
          (solution self) (assigned_rests self).

Definition with_solution (self : NurseSchedulingModel)
    (s : option SolutionFrame) : NurseSchedulingModel :=
  mkModel (nurses self) (daily_shifts self) (num_days self) (start_day self)
          (all_days self) (num_nurses self) (model self) (shifts self)
          (rest_days self) s (assigned_rests self).

Definition with_assigned_rests (self : NurseSchedulingModel)
    (r : option (list (Z * Z))) : NurseSchedulingModel :=
  mkModel (nurses self) (daily_shifts self) (num_days self) (start_day self)
          (all_days self) (num_nurses self) (model self) (shifts self)
          (rest_days self) (solution self) r.

(** The thirteen rule applications of [add_constraints], in order. *)
Definition add_constraints_body (self : NurseSchedulingModel) : M unit :=
  let sh := shifts self in
  let ns := nurses self in
  (* Constraint 1 *)
  limit_shifts_per_period sh ns (all_days self) (daily_shifts self) 1 1 ;;
  (* Constraint 2 *)
  single_nurse_per_shift sh ns (all_days self) (daily_shifts self) ;;
  (* Constraint 3 *)
  assign_consecutive_shifts sh ns (rest_days self) (all_days self)
    (daily_shifts self) (start_day self) (num_days self) "Monday" 2 3 ;;
  (* Constraint 4 *)
  assign_consecutive_shifts sh ns (rest_days self) (all_days self)
    (daily_shifts self) (start_day self) (num_days self) "Thursday" 2 4 ;;
  (* Constraint 5 *)
  distribute_shifts_evenly sh ns (all_days self) [(0, "ED Day 01"%string)]
    (num_nurses self) 1 ;;
  (* Constraint 6 *)
  distribute_night_shifts_evenly sh ns (all_days self) (num_nurses self) 2 ;;
  (* Constraint 7 *)
  distribute_shifts_evenly sh ns (all_days self) (daily_shifts self)
    (num_nurses self) 1 ;;
  (* Constraint 8 *)
  do weekend_days <- lift (days_where true (start_day self) (all_days self));
  distribute_shifts_evenly sh ns weekend_days (daily_shifts self)
    (num_nurses self) 1 ;;
  (* Constraint 9 *)
  do weekday_days <- lift (days_where false (start_day self) (all_days self));
  distribute_shifts_evenly sh ns weekday_days (daily_shifts self)
    (num_nurses self) 1 ;;
  (* Constraint 10 *)
  limit_consecutive_shifts sh ns (all_days self) (num_days self) [0; 1] 2 ;;
  (* Constraint 11 *)
  limit_shifts_per_period sh ns (all_days self) (daily_shifts self) 7 4 ;;
  (* Constraint 12 *)
  limit_shifts_after_shifts sh ns (all_days self) [0; 1] [2] 2 0 ;;
  (* Constraint 13 *)
  limit_nurse_per_team_per_day sh ns (all_days self) (daily_shifts self) 1.

Definition add_constraints (self : NurseSchedulingModel)
    : outcome unit * NurseSchedulingModel :=
  let '(o, e) := add_constraints_body self (mkEnv (model self) []) in
  (o, with_model self (cp e)).

(** [solve]. [solver] is the solver object after [solver.Solve(self.model)];
    [export_rota] stands for the pivot of the solution into the
    'Complete Rota' table and its writing to disk, which belong to
    pandas and the file system. *)
Definition solve (solver : CpSolver)
    (export_rota : list (Z * Z * Z) → outcome unit)
    (self : NurseSchedulingModel) : outcome unit * NurseSchedulingModel :=
  if decide (status solver = OPTIMAL) then
    let rota := rota_dict solver (shifts self) in
    let self1 := with_solution self (Some (mkFrame rota None)) in
    match export_rota rota with
    | Raise x => (Raise x, self1)
    | Ok _ =>
        let self2 :=
          with_assigned_rests self1
            (Some (rests_dict solver (rest_days self))) in
        match weekend_column (start_day self) rota with
        | Raise x => (Raise x, self2)
        | Ok col => (Ok (), with_solution self2 (Some (mkFrame rota (Some col))))
        end
    end
  else
    (* print('ERROR: no solution'); exit() *)
    (Raise SystemExit, self).

End Scheduler.

(** ** Add-Apply Constraints Basis/scheduler.py

    The variant that keeps a registry of rules and applies them on
    request. *)

Module Basis.

(** Keyword arguments [**params] and the values they carry. *)
Inductive pyval : Set :=
  | PInt (z : Z)
  | PStr (s : string)
  | PList (l : list Z).

Definition kwargs := list (string * pyval).

(** A rule as [apply_constraints] calls it:
    [constraint_func(self.model, self.shifts, self.nurses, self.all_days,
    self.daily_shifts, **params)], the model being the state. *)
Definition constraint_func : Type :=
  gmap (Z * Z * Z) var → list NurseRow → list Z → list (Z * string) →
  kwargs → M unit.

(** A Python [dict] with string keys, in insertion order: assigning to
    a key already present replaces its value where it stands. *)
Fixpoint dict_set {V} (k : string) (v : V) (d : list (string * V))
    : list (string * V) :=
  match d with
  | [] => [(k, v)]
  | (k', v') :: d' =>
      if decide (k' = k) then (k, v) :: d' else (k', v') :: dict_set k v d'
  end.

Fixpoint dict_get {V} (k : string) (d : list (string * V)) : option V :=
  match d with
  | [] => None
  | (k', v') :: d' => if decide (k' = k) then Some v' else dict_get k d'
  end.

Definition dict_keys {V} (d : list (string * V)) : list string := fst <$> d.
Definition dict_values {V} (d : list (string * V)) : list V := snd <$> d.

Record NurseSchedulingModel : Type := mkModel {
  nurses : list NurseRow;
  daily_shifts : list (Z * string);
  num_days : Z;
  start_day : string;
  all_days : list Z;
  num_nurses : Z;
  model : CpModel;
  shifts : gmap (Z * Z * Z) var;
  rest_days : gmap (Z * Z) var;
  applied_constraints : list (string * (constraint_func * kwargs));
  solution : option SolutionFrame;
  assigned_rests : option (list (Z * Z))
}.

Definition post_init (nurses : list NurseRow)
    (daily_shifts : list (Z * string)) (num_days : Z) (start_day : string)
    : outcome NurseSchedulingModel :=
  let all_days := range 0 num_days in
  let num_nurses := len nurses in
  match new_variables nurses all_days daily_shifts (mkEnv empty_model []) with
  | (Ok (shifts, rest_days), e) =>
      Ok (mkModel nurses daily_shifts num_days start_day all_days num_nurses
                  (cp e) shifts rest_days [] None None)
  | (Raise x, _) => Raise x
  end.

Definition with_model (self : NurseSchedulingModel) (m : CpModel)
    : NurseSchedulingModel :=
  mkModel (nurses self) (daily_shifts self) (num_days self) (start_day self)
          (all_days self) (num_nurses self) m (shifts self) (rest_days self)
          (applied_constraints self) (solution self) (assigned_rests self).

Definition with_applied_constraints (self : NurseSchedulingModel)
    (r : list (string * (constraint_func * kwargs))) : NurseSchedulingModel :=
  mkModel (nurses self) (daily_shifts self) (num_days self) (start_day self)
          (all_days self) (num_nurses self) (model self) (shifts self)
          (rest_days self) r (solution self) (assigned_rests self).

Definition with_solution (self : NurseSchedulingModel)
    (s : option SolutionFrame) : NurseSchedulingModel :=
  mkModel (nurses self) (daily_shifts self) (num_days self) (start_day self)
          (all_days self) (num_nurses self) (model self) (shifts self)
          (rest_days self) (applied_constraints self) s (assigned_rests self).

Definition with_assigned_rests (self : NurseSchedulingModel)
    (r : option (list (Z * Z))) : NurseSchedulingModel :=
  mkModel (nurses self) (daily_shifts self) (num_days self) (start_day self)
          (all_days self) (num_nurses self) (model self) (shifts self)
          (rest_days self) (applied_constraints self) (solution self) r.

(** [self.applied_constraints[description] = (constraint_func, params)] *)
Definition add_constraints (description : string) (f : constraint_func)
    (params : kwargs) (self : NurseSchedulingModel) : NurseSchedulingModel :=
  with_applied_constraints self
    (dict_set description (f, params) (applied_constraints self)).

Definition apply_constraints_body (self : NurseSchedulingModel) : M unit :=
  for_each (dict_values (applied_constraints self)) (λ '(f, params),
    f (shifts self) (nurses self) (all_days self) (daily_shifts self) params).

Definition apply_constraints (self : NurseSchedulingModel)
    : outcome unit * NurseSchedulingModel :=
  let '(o, e) := apply_constraints_body self (mkEnv (model self) []) in
  (o, with_model self (cp e)).

Definition solve (solver : CpSolver) (self : NurseSchedulingModel)
    : outcome unit * NurseSchedulingModel :=
  if decide (status solver = OPTIMAL) then
    let rota := rota_dict solver (shifts self) in
    let self1 := with_solution self (Some (mkFrame rota None)) in
    let self2 :=
      with_assigned_rests self1 (Some (rests_dict solver (rest_days self))) in
    match weekend_column (start_day self) rota with
    | Raise x => (Raise x, self2)
    | Ok col => (Ok (), with_solution self2 (Some (mkFrame rota (Some col))))
    end
  else
    (* print('ERROR: no solution'); exit() *)
    (Raise SystemExit, self).

(** Binding [**params] to the keyword parameters of two library rules,
    as main.py registers them: an unexpected or a missing keyword is a
    [TypeError]. *)
Definition py_limit_shifts_per_period : constraint_func :=
  λ shifts nurses days daily_shifts params,
    match dict_get "period_length" params, dict_get "shift_limit" params with
    | Some (PInt period_length), Some (PInt shift_limit) =>
        if decide (length params = 2%nat) then
          NurseConstraintLibrary.limit_shifts_per_period shifts nurses days
            daily_shifts period_length shift_limit
        else lift (Raise TypeError)
    | _, _ => lift (Raise TypeError)
    end.

Definition py_single_nurse_per_shift : constraint_func :=
  λ shifts nurses days daily_shifts params,
    match params with
    | [] => NurseConstraintLibrary.single_nurse_per_shift shifts nurses days
              daily_shifts
    | _ => lift (Raise TypeError)
    end.

End Basis.
(** ** Vocabulary of the statements *)

(** [solver.Value(shifts[k]) == 1], false when the key is absent. *)
Definition is_assigned {K} `{Countable K} (a : assignment)
    (d : gmap K var) (k : K) : bool :=
  match d !! k with
  | Some v => a v
  | None => false
  end.

(** How many of the listed (nurse, day, shift) slots are assigned. *)
Definition count_assigned (a : assignment) (shifts : gmap (Z * Z * Z) var)
    (ks : list (Z * Z * Z)) : Z :=
  foldr (λ k acc, (if is_assigned a shifts k then 1 else 0) + acc) 0 ks.

(** A constant that can stand in a comparison with a linear expression:
    it fits a 64-bit integer, the two ends of the range apart, which
    the library keeps for the infinities. *)
Definition fits_int64 (c : Z) : Prop := - 2 ^ 63 < c < 2 ^ 63 - 1.

Global Instance fits_int64_dec c : Decision (fits_int64 c).
Proof. unfold fits_int64. apply _. Defined.

(** The assignment [a] with variable [v] set to [b]. *)
Definition override (a : assignment) (v : var) (b : bool) : assignment :=
  λ u, if decide (u = v) then b else a u.

(** The days on which [assign_consecutive_shifts] sets a rest-day
    variable: the two days after each block, a block starting on every
    day of the horizon named [start_shift_day]. *)
Definition rest_targets (start_day : string) (num_days : Z)
    (start_shift_day : string) (num_consecutive : Z) : list Z :=
  d ← range 0 num_days;
  match what_day d start_day with
  | Ok (name, _) =>
      if decide (name = start_shift_day)
      then [d + num_consecutive; d + num_consecutive + 1]
      else []
  | Raise _ => []
  end.

(** *** Weakest preconditions for model-building code *)

Definition wp {A} (m : M A) (Q : A → Env → Prop) (E : exn → Env → Prop)
    (e : Env) : Prop :=
  match m e with
  | (Ok a, e') => Q a e'
  | (Raise x, e') => E x e'
  end.

(** [safe Inv φ m e]: from [e], [m] keeps the invariant whether it
    returns or raises, and a returned value satisfies [φ]. *)
Definition safe {A} (Inv : Env → Prop) (φ : A → Prop) (m : M A) (e : Env)
    : Prop :=
  wp m (λ a e', Inv e' ∧ φ a) (λ _ e', Inv e') e.

(** The model only grows. *)
Definition extends (e e' : Env) : Prop :=
  variables (cp e) `prefix_of` variables (cp e') ∧
  constraints (cp e) `prefix_of` constraints (cp e') ∧
  reads e `prefix_of` reads e'.

(** [total m e Q]: from [e], [m] returns normally, in a grown state
    where [Q] holds of the result. *)
Definition total {A} (m : M A) (e : Env) (Q : A → Env → Prop) : Prop :=
  ∃ a e', m e = (Ok a, e') ∧ extends e e' ∧ Q a e'.

(** A variable that no constraint mentions yet. *)
Definition unmentioned (rv : var) (e : Env) : Prop :=
  (rv < length (variables (cp e)))%nat ∧
  ∀ c, c ∈ constraints (cp e) → rv ∉ constraint_vars c.

(** The dictionary reads made since [e0] all use a day below [n]. *)
Definition reads_below (n : Z) (e0 e : Env) : Prop :=
  ∃ new, reads e = reads e0 ++ new ∧ Forall (λ k, key_day k < n) new.

(** What [__post_init__] leaves in the two dictionaries: the key at
    position [i] of the comprehension owns the [i]-th variable created,
    the rest-day variables coming after all the shift variables. *)
Definition built (nurses : list NurseRow) (all_days : list Z)
    (daily_shifts : list (Z * string))
    (shifts : gmap (Z * Z * Z) var) (rest_days : gmap (Z * Z) var) : Prop :=
  let sk := shift_keys_of nurses all_days daily_shifts in
  let rk := rest_keys_of nurses all_days in
  (∀ k, k ∈ sk → ∃ i : nat, sk !! i = Some k ∧ shifts !! k = Some i) ∧
  (∀ k, k ∉ sk → shifts !! k = None) ∧
  (∀ k, k ∈ rk → ∃ i : nat, rk !! i = Some k ∧
                            rest_days !! k = Some (length sk + i)%nat) ∧
  (∀ k, k ∉ rk → rest_days !! k = None) ∧
  dom shifts = list_to_set sk ∧
  dom rest_days = list_to_set rk.

(** *** A small roster used in the examples: three nurses in two teams,
    a day and a night shift. *)
Definition demo_nurses : list NurseRow :=
  [mkNurse 1 "A"; mkNurse 2 "A"; mkNurse 3 "B"]%string.

Definition demo_shifts : list (Z * string) :=
  [(0, "Day"); (1, "Night")]%string.

(** What [limit_shifts_after_shifts] leaves in the model for one nurse
    and one day: the indicator [w], created after state [e0], and the
    two constraints on it. *)
Definition follow_on_fact (shifts : gmap (Z * Z * Z) nat)
    (first_shifts limited_shifts : list Z)
    (num_consecutive allowed_num_shifts horizon : Z)
    (n d : Z) (e0 e' : Env) : Prop :=
  ∃ (w : nat) fs vs,
    (length (variables (cp e0)) ≤ w)%nat ∧
    variables (cp e') !! w = Some (worked_shift_name n d) ∧
    Forall2 (λ k v, shifts !! k = Some v)
            ((λ s, (n, d, s)) <$> first_shifts) fs ∧
    MaxEquality w fs ∈ constraints (cp e') ∧
    Forall2 (λ k v, shifts !! k = Some v)
            (off ← range 0 (Z.min num_consecutive (horizon - d));
             s ← limited_shifts; [(n, d + off, s)]) vs ∧
    Linear (LSum vs) Eq (LInt allowed_num_shifts) [w] ∈ constraints (cp e').

(** What [assign_consecutive_shifts] leaves in the model for one nurse
    and one block start [d]: the indicator [w] tied to the first day's
    variable [x0], the later days of the block tied to [x0], and for
    each of the two days after the block the reified zero sum and the
    rest-day variable tied to [w]. *)
Definition block_fact (shifts : gmap (Z * Z * Z) nat)
    (rest_days : gmap (Z * Z) nat) (daily_shifts : list (Z * string))
    (num_days shift_index num_consecutive : Z)
    (n d : Z) (w x0 : nat) (e' : Env) : Prop :=
  variables (cp e') !! w = Some (worked_shift_name n d) ∧
  shifts !! (n, d, shift_index) = Some x0 ∧
  Linear (LVar w) Eq (LVar x0) [] ∈ constraints (cp e') ∧
  (∀ k, 1 ≤ k < num_consecutive → d + k < num_days →
     ∃ xk, shifts !! (n, d + k, shift_index) = Some xk ∧
           Linear (LVar xk) Eq (LVar x0) [] ∈ constraints (cp e')) ∧
  (∀ off, 0 ≤ off < 2 → d + num_consecutive + off < num_days →
     ∃ vs r,
       Forall2 (λ s v, shifts !! (n, d + num_consecutive + off, s) = Some v)
               (shift_keys daily_shifts) vs ∧
       rest_days !! (n, d + num_consecutive + off) = Some r ∧
       Linear (LSum vs) Eq (LInt 0) [w] ∈ constraints (cp e') ∧
       Linear (LVar r) Eq (LVar w) [] ∈ constraints (cp e')).

(** A variable that [assign_consecutive_shifts], started in a model with
    [len0] variables, may constrain on a horizon of [num_days] days:
    one of its own indicators, or the variable of a key whose day is
    below [num_days]. *)
Definition in_horizon_var (shifts : gmap (Z * Z * Z) nat)
    (rest_days : gmap (Z * Z) nat) (num_days : Z) (len0 : nat) (v : nat)
    : Prop :=
  (len0 ≤ v)%nat ∨
  (∃ n d s, d < num_days ∧ shifts !! (n, d, s) = Some v) ∨
  (∃ n d, d < num_days ∧ rest_days !! (n, d) = Some v).

(** The state reached from [e0] by reading only keys with a day below
    [num_days] and constraining only variables as above. *)
Definition truncated (shifts : gmap (Z * Z * Z) nat)
    (rest_days : gmap (Z * Z) nat) (num_days : Z) (e0 e : Env) : Prop :=
  reads_below num_days e0 e ∧
  (length (variables (cp e0)) ≤ length (variables (cp e)))%nat ∧
  ∃ added, constraints (cp e) = constraints (cp e0) ++ added ∧
    ∀ c v, c ∈ added → v ∈ constraint_vars c →
      in_horizon_var shifts rest_days num_days
        (length (variables (cp e0))) v.

(** *** Registration order, in the words of the specification *)



(** A sequence of calls to [add_constraints]. *)
Definition register_all
    (regs : list (string * (Basis.constraint_func * Basis.kwargs)))
    (self : Basis.NurseSchedulingModel) : Basis.NurseSchedulingModel :=
  foldl (λ s r, Basis.add_constraints r.1 r.2.1 r.2.2 s) self regs.


(** [m] adds no constraint on [rv], whether it returns or raises. *)
Definition leaves_alone (rv : var) (m : M unit) : Prop :=
  ∀ e, unmentioned rv e → unmentioned rv (m e).2.

(** An assignment given by variable name. *)
Definition assignment_of (m : CpModel) (f : vname → bool) : assignment :=
  λ v, match variables m !! v with
       | Some name => f name
       | None => false
       end.

(** The shift types of main.py. *)
Definition ed_shifts : list (Z * string) :=
  [(0, "ED Day 01"); (1, "ED Day 02"); (2, "ED Nights")]%string.

(** A roster for [demo_nurses] and [demo_shifts] over one week from
    Monday: nurse 2 takes every day shift, nurse 1 the nights of Monday
    to Wednesday and her two rest days after them, nurse 3 the other
    nights; and nurse 3 is flagged as resting on Sunday, a night she
    works. *)
Definition demo_roster (name : vname) : bool :=
  match name with
  | shift_name n d s =>
      bool_decide (s = 0 ∧ n = 2) ||
      bool_decide (s = 1 ∧ n = 1 ∧ d ≤ 2) ||
      bool_decide (s = 1 ∧ n = 3 ∧ 3 ≤ d)
  | rest_name n d =>
      bool_decide (n = 1 ∧ (d = 3 ∨ d = 4)) || bool_decide (n = 3 ∧ d = 6)
  | worked_shift_name n d => bool_decide (n = 1)
  end.

(** Ten days dealt out to three nurses in turn: four for nurse 1, three
    for each of the others. *)
Definition in_turn (name : vname) : bool :=
  match name with
  | shift_name n d s => bool_decide (d `mod` 3 = n - 1)
  | rest_name _ _ => false
  | worked_shift_name _ _ => false
  end.



(** A rule that only leaves a mark in the model. *)
Definition mark (n : nat) : Basis.constraint_func :=
  λ _ _ _ _ _, Add (ExactlyOne [n]).

(** The three registrations of Add-Apply Constraints Basis/main.py. *)
Definition main_registrations
    : list (string * (Basis.constraint_func * Basis.kwargs)) :=
  [("Constraint 1: Each nurse works at most one shift per day",
    (Basis.py_limit_shifts_per_period,
     [("period_length", Basis.PInt 1); ("shift_limit", Basis.PInt 1)]));
   ("Constraint 2: Each shift is assigned to a single nurse per day",
    (Basis.py_single_nurse_per_shift, []));
   ("Constraint 3: Same nurse works ED Nights Mon-Wed, with Thurs-Fri as Rest Day",
    (Basis.py_single_nurse_per_shift,
     [("start_shift_day", Basis.PStr "Monday"); ("shift_index", Basis.PInt 2);
      ("num_consecutive", Basis.PInt 3)]))]%string.

(** *** Further vocabulary *)

(** [m] only appends to the model: the variables and constraints it
    finds are still there, in place, when it returns or raises. *)
Definition only_appends (m : M unit) : Prop :=
  ∀ e, extends e (m e).2.

(** [m] creates no variable. *)
Definition creates_no_variable (m : M unit) : Prop :=
  ∀ e, variables (cp (m e).2) = variables (cp e).

(** The weekend flag [what_day(day, start_day)[1]], when there is one. *)
Definition weekend_flag (start_day : string) (day : Z) : option bool :=
  match what_day day start_day with
  | Ok wd => Some wd.2
  | Raise _ => None
  end.

(** Every exception that [m] can raise satisfies [P]. *)
Definition raises_only {A} (P : exn → Prop) (m : M A) : Prop :=
  ∀ e, wp m (λ _ _, True) (λ x _, P x) e.

(** What three of the rule calls of [add_constraints] leave in the
    model: for every nurse and day the sum over the day's shift
    variables capped at one (Constraint 1); for every day and shift
    type an [ExactlyOne] over the nurses' variables (Constraint 2); for
    every day and team the sum over the team's variables of that day
    capped at one (Constraint 13). *)
Definition daily_cap_added (sh : gmap (Z * Z * Z) var)
    (nurses : list NurseRow) (daily_shifts : list (Z * string))
    (num_days : Z) (e : Env) : Prop :=
  ∀ n d, n ∈ col_Nurse nurses → 0 ≤ d < num_days →
    ∃ vs, Forall2 (λ s v, sh !! (n, d, s) = Some v)
                  (shift_keys daily_shifts) vs ∧
          Linear (LSum vs) Le (LInt 1) [] ∈ constraints (cp e).

Definition coverage_added (sh : gmap (Z * Z * Z) var)
    (nurses : list NurseRow) (daily_shifts : list (Z * string))
    (num_days : Z) (e : Env) : Prop :=
  ∀ d s, 0 ≤ d < num_days → s ∈ shift_keys daily_shifts →
    ∃ vs, Forall2 (λ n v, sh !! (n, d, s) = Some v) (col_Nurse nurses) vs ∧
          ExactlyOne vs ∈ constraints (cp e).

Definition team_cap_added (sh : gmap (Z * Z * Z) var)
    (nurses : list NurseRow) (daily_shifts : list (Z * string))
    (num_days : Z) (e : Env) : Prop :=
  ∀ d t, 0 ≤ d < num_days → t ∈ Team <$> nurses →
    ∃ vs, Forall2 (λ k v, sh !! k = Some v)
            (n ← col_Nurse (filter (λ r, Team r = t) nurses);
             s ← shift_keys daily_shifts; [(n, d, s)]) vs ∧
          Linear (LSum vs) Le (LInt 1) [] ∈ constraints (cp e).

(** The rows of the [solution] frame, none before [solve]. *)
Definition solution_rows (self : Scheduler.NurseSchedulingModel)
    : list (Z * Z * Z) :=
  match Scheduler.solution self with
  | Some fr => rows fr
  | None => []
  end.

(** [sum(g(x) for x in l)] *)
Definition sumZ {A} (g : A → Z) (l : list A) : Z :=
  foldr (λ x acc, g x + acc) 0 l.


(** ** scheduler.py: create_schedules_per_nurse *)

(** The method reads [self.solution] and [self.assigned_rests], which
    exist only once [solve] has set them; reading an attribute that was
    never set is Python's [AttributeError]. *)
Inductive result (A : Type) : Type :=
  | Return (a : A)
  | Fail (x : exn)
  | FailAttribute.
Arguments Return {A} a.
Arguments Fail {A} x.
Arguments FailAttribute {A}.

(** A row of a nurse's schedule frame. [None] is the NaN that pandas
    leaves in the other columns of a row created by an assignment
    through [.loc]. *)
Record ScheduleRow : Set := mkRow {
  row_Day : option Z;
  Day_Name : option string;
  Shift : string
}.

(** The frame: index labels and rows, in order. *)
Definition Schedule : Set := list (Z * ScheduleRow).

(** [schedule.loc[label, 'Shift'] = v]: the row with that index label
    takes the value; a label that the index does not have gets a new
    row at the end. *)
Fixpoint loc_set (label : Z) (v : string) (sched : Schedule) : Schedule :=
  match sched with
  | [] => [(label, mkRow None None v)]
  | (l, r) :: sched' =>
      if decide (l = label) then (l, mkRow (row_Day r) (Day_Name r) v) :: sched'
      else (l, r) :: loc_set label v sched'
  end.

(** [schedule.loc[label]] *)
Fixpoint loc_row (label : Z) (sched : Schedule) : option ScheduleRow :=
  match sched with
  | [] => None
  | (l, r) :: sched' => if decide (l = label) then Some r else loc_row label sched'
  end.

(** [daily_shifts[shift]] *)
Fixpoint getitem_daily_shifts (daily_shifts : list (Z * string)) (s : Z)
    : outcome string :=
  match daily_shifts with
  | [] => Raise KeyError
  | (k, name) :: rest =>
      if decide (k = s) then Ok name else getitem_daily_shifts rest s
  end.

(** [[what_day(day, start_day=self.start_day)[0] for day in range(...)]] *)
Fixpoint day_names (start_day : string) (days : list Z)
    : outcome (list string) :=
  match days with
  | [] => Ok []
  | d :: days' =>
      obind (what_day d start_day) (λ wd,
        obind (day_names start_day days') (λ names, Ok (wd.1 :: names)))
  end.

(** [pd.DataFrame({'Day': range(num_days), 'Day Name': [...],
    'Shift': '--'})], under the default index [0 .. len - 1]. *)
Definition new_schedule (num_days : Z) (start_day : string)
    : outcome Schedule :=
  obind (day_names start_day (range 0 num_days)) (λ names,
    let rows :=
      zip_with (λ d name, mkRow (Some d) (Some name) "--")
               (range 0 num_days) names in
    Ok (zip (range 0 (len rows)) rows)).

(** [for row in assigned_shifts.itertuples():
       schedule.loc[row.Day, 'Shift'] = self.daily_shifts[row.Shift]] *)
Fixpoint mark_shifts (daily_shifts : list (Z * string))
    (assigned_shifts : list (Z * Z * Z)) (schedule : Schedule)
    : outcome Schedule :=
  match assigned_shifts with
  | [] => Ok schedule
  | (_, d, s) :: rest =>
      obind (getitem_daily_shifts daily_shifts s) (λ name,
        mark_shifts daily_shifts rest (loc_set d name schedule))
  end.

(** [for row in assigned_rests.itertuples():
       schedule.loc[row.Day, 'Shift'] = 'Rest Day'] *)
Fixpoint mark_rests (assigned_rests : list (Z * Z)) (schedule : Schedule)
    : Schedule :=
  match assigned_rests with
  | [] => schedule
  | (_, d) :: rest => mark_rests rest (loc_set d "Rest Day" schedule)
  end.

(** The body of the loop for one nurse, up to the finished frame. *)
Definition nurse_schedule (self : Scheduler.NurseSchedulingModel)
    (nurse : Z) : result Schedule :=
  match new_schedule (Scheduler.num_days self) (Scheduler.start_day self) with
  | Raise x => Fail x
  | Ok schedule =>
      match Scheduler.solution self with
      | None => FailAttribute
      | Some fr =>
          match Weekend fr with
          | None => Fail KeyError          (* .drop('Weekend', axis=1) *)
          | Some _ =>
              let assigned_shifts := filter (λ r, r.1.1 = nurse) (rows fr) in
              match mark_shifts (Scheduler.daily_shifts self)
                                assigned_shifts schedule with
              | Raise x => Fail x
              | Ok schedule1 =>
                  match Scheduler.assigned_rests self with
                  | None => FailAttribute
                  | Some rests =>
                      Return (mark_rests (filter (λ r, r.1 = nurse) rests)
                                         schedule1)
                  end
              end
          end
      end
  end.

(** [self.nurse_schedules[nurse] = schedule] on a dictionary in
    insertion order. *)
Fixpoint schedules_set (nurse : Z) (schedule : Schedule)
    (d : list (Z * Schedule)) : list (Z * Schedule) :=
  match d with
  | [] => [(nurse, schedule)]
  | (k, v) :: d' =>
      if decide (k = nurse) then (k, schedule) :: d'
      else (k, v) :: schedules_set nurse schedule d'
  end.

Fixpoint schedules_get (nurse : Z) (d : list (Z * Schedule))
    : option Schedule :=
  match d with
  | [] => None
  | (k, v) :: d' => if decide (k = nurse) then Some v else schedules_get nurse d'
  end.

(** The loop over the roster; [export] stands for [df_to_csv], which
    writes the frame to disk. The second component is
    [self.nurse_schedules] as the method leaves it, which is also what
    it returns. *)
Fixpoint schedules_loop (export : Z → Schedule → outcome unit)
    (self : Scheduler.NurseSchedulingModel) (roster : list Z)
    (nurse_schedules : list (Z * Schedule))
    : result unit * list (Z * Schedule) :=
  match roster with
  | [] => (Return (), nurse_schedules)
  | nurse :: roster' =>
      match nurse_schedule self nurse with
      | Return schedule =>
          let nurse_schedules' :=
            schedules_set nurse schedule nurse_schedules in
          match export nurse schedule with
          | Ok _ => schedules_loop export self roster' nurse_schedules'
          | Raise x => (Fail x, nurse_schedules')
          end
      | Fail x => (Fail x, nurse_schedules)
      | FailAttribute => (FailAttribute, nurse_schedules)
      end
  end.

Definition create_schedules_per_nurse (export : Z → Schedule → outcome unit)
    (self : Scheduler.NurseSchedulingModel)
    : result unit * list (Z * Schedule) :=
  schedules_loop export self (col_Nurse (Scheduler.nurses self)) [].

(** [schedule.loc[label, 'Shift']] *)
Definition loc_get (label : Z) (sched : Schedule) : option string :=
  Shift <$> loc_row label sched.

(** A solved scheduler for [demo_nurses] over one week: nurse 1 has
    the night of day 0 and is also flagged as resting on it; nurse 2
    has two rows for day 0, the day shift and then the night. *)
Definition demo_solved : Scheduler.NurseSchedulingModel :=
  Scheduler.mkModel demo_nurses demo_shifts 7 "Monday" (range 0 7) 3
    empty_model ∅ ∅
    (Some (mkFrame [(1, 0, 1); (2, 0, 0); (2, 0, 1); (1, 1, 1)]
                   (Some [false; false; false; false])))
    (Some [(1, 0); (3, 2)]).

(** A ward of five nurses in three teams and a solver result for its
    first two days, from Monday: nurse 1 has both nights, nurses 2 and 3
    the two day shifts of Monday, nurses 4 and 5 those of Tuesday. The
    variables are numbered as the model creates them: the shift
    variables by nurse, day and shift type, the rest variables, the
    block indicators of Monday, and the indicators of a day shift by
    day and nurse. *)
Definition ward_nurses : list NurseRow :=
  [mkNurse 1 "A"; mkNurse 2 "B"; mkNurse 3 "C"; mkNurse 4 "B";
   mkNurse 5 "C"]%string.

Definition ward_values : assignment :=
  λ v, bool_decide (v ∈ [2; 5; 6; 13; 21; 28; 40; 46; 47; 53; 54]%nat).

Definition ward_solver : CpSolver := mkSolver OPTIMAL ward_values.
(** * Proofs *)

(** ** Reasoning rules *)

Section wp_rules.
Context {A B : Type}.

Lemma wp_ret (a : A) Q E e : Q a e → wp (ret a) Q E e.
Proof. done. Qed.

Lemma wp_bind (m : M A) (k : A → M B) Q E e :
  wp m (λ a e', wp (k a) Q E e') E e → wp (bind m k) Q E e.
Proof. unfold wp, bind. by destruct (m e) as [[a|x] e']. Qed.

Lemma wp_conseq (m : M A) (Q Q' : A → Env → Prop) (E E' : exn → Env → Prop) e :
  wp m Q E e → (∀ a e', Q a e' → Q' a e') → (∀ x e', E x e' → E' x e') →
  wp m Q' E' e.
Proof. unfold wp. destruct (m e) as [[a|x] e']; eauto. Qed.
End wp_rules.

Section safe_rules.
Context (Inv : Env → Prop).

Lemma safe_ret {A} (φ : A → Prop) (a : A) e :
  Inv e → φ a → safe Inv φ (ret a) e.
Proof. by split. Qed.

Lemma safe_lift {A} (φ : A → Prop) (o : outcome A) e :
  Inv e → (∀ a, o = Ok a → φ a) → safe Inv φ (lift o) e.
Proof. intros HI Hφ. unfold safe, wp, lift. destruct o; eauto. Qed.

Lemma safe_bind {A B} (φ1 : A → Prop) (φ2 : B → Prop) (m : M A) (k : A → M B) e :
  safe Inv φ1 m e →
  (∀ a e1, Inv e1 → φ1 a → safe Inv φ2 (k a) e1) →
  safe Inv φ2 (bind m k) e.
Proof.
  unfold safe, wp, bind. destruct (m e) as [[a|x] e1]; [|done].
  intros [HI Hφ] Hk. by apply Hk.
Qed.

Lemma safe_weaken {A} (φ φ' : A → Prop) (m : M A) e :
  safe Inv φ m e → (∀ a, φ a → φ' a) → safe Inv φ' m e.
Proof.
  unfold safe, wp. destruct (m e) as [[a|x] e1]; [|done].
  intros [HI Hφ] H. split; eauto.
Qed.

Lemma safe_for_each {A} (xs : list A) (body : A → M unit) e :
  Inv e →
  (∀ x e1, x ∈ xs → Inv e1 → safe Inv (λ _, True) (body x) e1) →
  safe Inv (λ _, True) (for_each xs body) e.
Proof.
  revert e. induction xs as [|x xs IH]; intros e HI Hbody; cbn [for_each].
  - by apply safe_ret.
  - eapply safe_bind.
    + apply Hbody; [left|done].
    + intros _ e1 HI1 _. apply IH; [done|].
      intros y e2 Hy. apply Hbody. by right.
Qed.

Lemma safe_mapM {A B} (φ : B → Prop) (f : A → M B) (xs : list A) e :
  Inv e →
  (∀ x e1, x ∈ xs → Inv e1 → safe Inv φ (f x) e1) →
  safe Inv (Forall φ) (mapM f xs) e.
Proof.
  revert e. induction xs as [|x xs IH]; intros e HI Hf; cbn [mapM].
  - by apply safe_ret.
  - eapply safe_bind; [apply Hf; [left|done]|].
    intros y e1 HI1 Hy. eapply safe_bind.
    + apply IH; [done|]. intros z e2 Hz. apply Hf. by right.
    + intros ys e2 HI2 Hys. apply safe_ret; [done|]. by constructor.
Qed.
End safe_rules.

Global Instance extends_preorder : PreOrder extends.
Proof.
  split.
  - by intros e.
  - intros e1 e2 e3 (?&?&?) (?&?&?). repeat split; by etrans.
Qed.

Lemma extends_constraint e e' c :
  extends e e' → c ∈ constraints (cp e) → c ∈ constraints (cp e').
Proof.
  intros (_ & [k Hk] & _) Hc. rewrite Hk. apply elem_of_app. by left.
Qed.

Lemma extends_variable e e' (v : nat) name :
  extends e e' → variables (cp e) !! v = Some name →
  variables (cp e') !! v = Some name.
Proof.
  intros ([k Hk] & _) Hv. rewrite Hk. by apply lookup_app_l_Some.
Qed.

Section total_rules.

Lemma total_ret {A} (a : A) e (Q : A → Env → Prop) : Q a e → total (ret a) e Q.
Proof. intros HQ. by exists a, e. Qed.

Lemma total_lift {A} (a : A) e (Q : A → Env → Prop) :
  Q a e → total (lift (Ok a)) e Q.
Proof. intros HQ. by exists a, e. Qed.

Lemma total_bind {A B} (m : M A) (k : A → M B) e (Q : B → Env → Prop) :
  total m e (λ a e1, total (k a) e1 Q) → total (bind m k) e Q.
Proof.
  intros (a & e1 & Hm & Hext & b & e2 & Hk & Hext' & HQ).
  exists b, e2. unfold bind. rewrite Hm. split; [done|].
  split; [by etrans|done].
Qed.

Lemma total_conseq {A} (m : M A) e (Q Q' : A → Env → Prop) :
  total m e Q → (∀ a e', extends e e' → Q a e' → Q' a e') → total m e Q'.
Proof. intros (a & e' & Hm & Hext & HQ) H. exists a, e'. eauto. Qed.

Lemma total_for_each {A} (F : A → Env → Prop) (xs : list A)
    (body : A → M unit) e :
  (∀ x e1 e2, F x e1 → extends e1 e2 → F x e2) →
  (∀ x e1, x ∈ xs → extends e e1 → total (body x) e1 (λ _ e2, F x e2)) →
  total (for_each xs body) e (λ _ e', ∀ x, x ∈ xs → F x e').
Proof.
  intros Hstable. revert e.
  induction xs as [|x xs IH]; intros e Hbody; cbn [for_each].
  - apply total_ret. intros x Hx. by apply elem_of_nil in Hx.
  - apply total_bind.
    eapply total_conseq; [apply Hbody; [left|done]|].
    intros [] e1 Hext HF. cbn beta.
    eapply total_conseq.
    + apply IH. intros y e2 Hy Hext2. apply Hbody; [by right|by etrans].
    + intros [] e2 Hext2 Hall y Hy. cbn beta in *.
      apply elem_of_cons in Hy as [->|Hy]; eauto.
Qed.
End total_rules.

Lemma total_NewBoolVar name e (Q : nat → Env → Prop) :
  (∀ e', cp e' = mkCpModel (variables (cp e) ++ [name]) (constraints (cp e)) →
         reads e' = reads e → Q (length (variables (cp e))) e') →
  total (NewBoolVar name) e Q.
Proof.
  intros HQ. eexists _, _. split; [reflexivity|]. split.
  - repeat split; cbn; [by apply prefix_app_r|done|done].
  - by apply HQ.
Qed.

Lemma total_Add c e (Q : unit → Env → Prop) :
  (∀ e', cp e' = mkCpModel (variables (cp e)) (constraints (cp e) ++ [c]) →
         reads e' = reads e → Q () e') →
  total (Add c) e Q.
Proof.
  intros HQ. eexists _, _. split; [reflexivity|]. split.
  - repeat split; cbn; [done|by apply prefix_app_r|done].
  - by apply HQ.
Qed.

Lemma total_getitem_shifts (shifts : gmap (Z * Z * Z) nat) k v e
    (Q : nat → Env → Prop) :
  shifts !! k = Some v →
  (∀ e', cp e' = cp e → Q v e') →
  total (getitem_shifts shifts k) e Q.
Proof.
  intros Hk HQ. eexists v, _. unfold getitem_shifts. rewrite Hk.
  split; [reflexivity|]. split.
  - repeat split; cbn; [done|done|by apply prefix_app_r].
  - by apply HQ.
Qed.

Lemma total_getitem_rest (rest_days : gmap (Z * Z) nat) k v e
    (Q : nat → Env → Prop) :
  rest_days !! k = Some v →
  (∀ e', cp e' = cp e → Q v e') →
  total (getitem_rest rest_days k) e Q.
Proof.
  intros Hk HQ. eexists v, _. unfold getitem_rest. rewrite Hk.
  split; [reflexivity|]. split.
  - repeat split; cbn; [done|done|by apply prefix_app_r].
  - by apply HQ.
Qed.

Lemma total_shift_lookups (shifts : gmap (Z * Z * Z) nat) ks e
    (Q : list nat → Env → Prop) :
  (∀ k, k ∈ ks → is_Some (shifts !! k)) →
  (∀ vs e', Forall2 (λ k v, shifts !! k = Some v) ks vs → cp e' = cp e →
            Q vs e') →
  total (mapM (getitem_shifts shifts) ks) e Q.
Proof.
  revert e Q. induction ks as [|k ks IH]; intros e Q Hall HQ; cbn [mapM].
  - apply total_ret. by apply HQ.
  - destruct (Hall k) as [v Hv]; [left|].
    apply total_bind. eapply total_getitem_shifts; [done|].
    intros e1 Hcp1. apply total_bind. apply IH.
    + intros k' Hk'. apply Hall. by right.
    + intros vs e2 Hvs Hcp2. apply total_ret. apply HQ.
      * by constructor.
      * congruence.
Qed.

(** ** Calendar utility *)

Lemma days_of_week_index (i : nat) (s : string) :
  days_of_week !! i = Some s →
  list_index days_of_week s = Ok (Z.of_nat i).
Proof.
  intros H.
  do 7 (destruct i as [|i]; [cbn in H; injection H as <-; reflexivity|]).
  discriminate H.
Qed.

Lemma index_from_Ok (x : string) (l : list string) (i j : Z) :
  index_from x l i = Ok j → x ∈ l.
Proof.
  revert i; induction l as [|y l IH]; intros i; cbn; [discriminate|].
  destruct (decide (y = x)) as [->|_]; [intros _; left|].
  intros H; right; eauto.
Qed.

Lemma index_from_Raise (x : string) (l : list string) (i : Z) (e : exn) :
  index_from x l i = Raise e → e = ValueError ∧ x ∉ l.
Proof.
  revert i; induction l as [|y l IH]; intros i; cbn.
  - intros [= <-]; split; [done|]. apply not_elem_of_nil.
  - destruct (decide (y = x)) as [->|Hne]; [discriminate|].
    intros H; destruct (IH _ H) as [-> Hn]; split; [done|].
    rewrite not_elem_of_cons; split; [congruence|done].
Qed.

Lemma what_day_at (day : Z) (start_day : string) (i : nat) :
  days_of_week !! i = Some start_day →
  let pos := (Z.of_nat i + day) `mod` 7 in
  ∃ name flag,
    what_day day start_day = Ok (name, flag) ∧
    days_of_week !! Z.to_nat pos = Some name ∧
    (flag = true ↔ pos = 5 ∨ pos = 6) ∧
    (flag = true ↔ name = "Saturday"%string ∨ name = "Sunday"%string).
Proof.
  intros Hi pos. unfold what_day.
  rewrite (days_of_week_index _ _ Hi). cbn [obind]. fold pos.
  assert (Hpos : 0 ≤ pos < 7) by (apply Z.mod_pos_bound; lia).
  assert (Hc : pos = 0 ∨ pos = 1 ∨ pos = 2 ∨ pos = 3 ∨ pos = 4
               ∨ pos = 5 ∨ pos = 6) by lia.
  destruct Hc as [-> | [-> | [-> | [-> | [-> | [-> | ->]]]]]];
    eexists _, _; (split; [reflexivity|]); (split; [reflexivity|]);
    cbn; split; split; intros H;
    first [discriminate H | reflexivity | lia | tauto
          | destruct H as [H|H]; discriminate H].
Qed.

Lemma what_day_Ok_iff (day : Z) (start_day : string) :
  is_Ok (what_day day start_day) ↔ start_day ∈ days_of_week.
Proof.
  split.
  - intros [wd Hwd]. unfold what_day in Hwd.
    destruct (list_index days_of_week start_day) as [i|x] eqn:Hidx;
      [|discriminate Hwd].
    by apply index_from_Ok in Hidx.
  - intros Hin. apply list_elem_of_lookup in Hin as [i Hi].
    destruct (what_day_at day _ _ Hi) as (name & flag & Heq & _).
    by eexists.
Qed.

Lemma what_day_Ok_any (day day' : Z) (start_day : string) :
  is_Ok (what_day day start_day) → is_Ok (what_day day' start_day).
Proof. rewrite !what_day_Ok_iff. done. Qed.



(** ** The variable universe *)

Lemma elem_of_range (a b d : Z) : d ∈ range a b ↔ a ≤ d < b.
Proof.
  unfold range. rewrite list_elem_of_fmap. split.
  - intros (i & -> & Hi). apply elem_of_seq in Hi. lia.
  - intros Hd. exists (Z.to_nat (d - a)). split; [lia|].
    apply elem_of_seq. lia.
Qed.

Lemma length_range (a b : Z) : length (range a b) = Z.to_nat (b - a).
Proof. unfold range. by rewrite length_fmap, length_seq. Qed.

Lemma NoDup_range (a b : Z) : NoDup (range a b).
Proof.
  unfold range. apply NoDup_fmap_2; [|apply NoDup_seq].
  intros i j Hij. lia.
Qed.

Lemma elem_of_shift_keys_of nurses all_days daily_shifts n d s :
  (n, d, s) ∈ shift_keys_of nurses all_days daily_shifts ↔
  n ∈ col_Nurse nurses ∧ d ∈ all_days ∧ s ∈ shift_keys daily_shifts.
Proof.
  unfold shift_keys_of. rewrite list_elem_of_bind. split.
  - intros (n' & H & Hn). apply list_elem_of_bind in H as (d' & H & Hd).
    apply list_elem_of_bind in H as (s' & H & Hs).
    apply list_elem_of_singleton in H as [= -> -> ->]. done.
  - intros (Hn & Hd & Hs). exists n. split; [|done].
    apply list_elem_of_bind. exists d. split; [|done].
    apply list_elem_of_bind. exists s. split; [|done].
    by apply list_elem_of_singleton.
Qed.

Lemma elem_of_rest_keys_of nurses all_days n d :
  (n, d) ∈ rest_keys_of nurses all_days ↔
  n ∈ col_Nurse nurses ∧ d ∈ all_days.
Proof.
  unfold rest_keys_of. rewrite list_elem_of_bind. split.
  - intros (n' & H & Hn). apply list_elem_of_bind in H as (d' & H & Hd).
    apply list_elem_of_singleton in H as [= -> ->]. done.
  - intros (Hn & Hd). exists n. split; [|done].
    apply list_elem_of_bind. exists d. split; [|done].
    by apply list_elem_of_singleton.
Qed.

Lemma dict_comp_spec {K} `{Countable K} (name : K → vname) (keys : list K)
    (d0 : gmap K nat) (e : Env) :
  ∃ d', dict_comp name keys d0 e =
          (Ok d', mkEnv (mkCpModel (variables (cp e) ++ (name <$> keys))
                                   (constraints (cp e))) (reads e)) ∧
    (∀ k, k ∈ keys → ∃ i : nat, keys !! i = Some k ∧
        d' !! k = Some (length (variables (cp e)) + i)%nat) ∧
    (∀ k, k ∉ keys → d' !! k = d0 !! k) ∧
    dom d' = list_to_set keys ∪ dom d0.
Proof.
  revert d0 e. induction keys as [|k keys IH]; intros d0 e.
  - exists d0. cbn. rewrite app_nil_r. destruct e as [[vs cs] rs].
    split; [done|]. split; [|split; [done|]].
    + intros k Hk. by apply elem_of_nil in Hk.
    + cbn. by rewrite (left_id_L ∅ (∪)).
  - cbn [dict_comp]. unfold bind, NewBoolVar.
    set (e1 := mkEnv _ _).
    destruct (IH (<[k := length (variables (cp e))]> d0) e1)
      as (d' & Heq & Hin & Hout & Hdom).
    exists d'. rewrite Heq. subst e1. cbn [cp variables constraints reads].
    rewrite <- app_assoc. split; [done|]. repeat split.
    + intros k0 Hk0. destruct (decide (k0 ∈ keys)) as [Hin0|Hnin0].
      * destruct (Hin k0 Hin0) as (i & Hi & Hd). exists (S i).
        split; [done|]. rewrite Hd. cbn. rewrite length_app. cbn.
        f_equal. lia.
      * apply elem_of_cons in Hk0 as [->|]; [|done]. exists 0%nat.
        split; [done|]. rewrite (Hout k Hnin0), lookup_insert_eq.
        f_equal. lia.
    + intros k0 Hk0. apply not_elem_of_cons in Hk0 as [Hne Hk0].
      rewrite (Hout k0 Hk0). by apply lookup_insert_ne.
    + rewrite Hdom, dom_insert_L. apply set_eq. intros x.
      rewrite list_to_set_cons, !elem_of_union. tauto.
Qed.

Lemma new_variables_spec nurses all_days daily_shifts :
  ∃ sh rs,
    new_variables nurses all_days daily_shifts (mkEnv empty_model []) =
      (Ok (sh, rs),
       mkEnv (mkCpModel
                (((λ k, shift_name k.1.1 k.1.2 k.2)
                    <$> shift_keys_of nurses all_days daily_shifts) ++
                 ((λ k, rest_name k.1 k.2) <$> rest_keys_of nurses all_days))
                []) []) ∧
    built nurses all_days daily_shifts sh rs.
Proof.
  unfold new_variables, bind.
  destruct (dict_comp_spec (λ k, shift_name k.1.1 k.1.2 k.2)
              (shift_keys_of nurses all_days daily_shifts) ∅
              (mkEnv empty_model []))
    as (sh & Heq1 & Hin1 & Hout1 & Hdom1).
  rewrite Heq1. set (e1 := mkEnv _ _).
  destruct (dict_comp_spec (λ k, rest_name k.1 k.2)
              (rest_keys_of nurses all_days) ∅ e1)
    as (rs & Heq2 & Hin2 & Hout2 & Hdom2).
  rewrite Heq2. exists sh, rs. subst e1. cbn. split; [done|].
  unfold built. cbn in *. rewrite length_fmap in Hin2.
  split; [exact Hin1|]. split.
  { intros k Hk. rewrite Hout1 by done. apply lookup_empty. }
  split; [exact Hin2|]. split.
  { intros k Hk. rewrite Hout2 by done. apply lookup_empty. }
  split.
  - rewrite Hdom1, dom_empty_L. apply (right_id_L ∅ (∪)).
  - rewrite Hdom2, dom_empty_L. apply (right_id_L ∅ (∪)).
Qed.

Lemma built_shift_lookup nurses all_days daily_shifts sh rs n d s :
  built nurses all_days daily_shifts sh rs →
  n ∈ col_Nurse nurses → d ∈ all_days → s ∈ shift_keys daily_shifts →
  is_Some (sh !! (n, d, s)).
Proof.
  intros (Hin & _) Hn Hd Hs.
  destruct (Hin (n, d, s)) as (i & _ & Hi); [|by eexists].
  by apply elem_of_shift_keys_of.
Qed.

Lemma built_rest_lookup nurses all_days daily_shifts sh rs n d :
  built nurses all_days daily_shifts sh rs →
  n ∈ col_Nurse nurses → d ∈ all_days →
  is_Some (rs !! (n, d)).
Proof.
  intros (_ & _ & Hin & _) Hn Hd.
  destruct (Hin (n, d)) as (i & _ & Hi); [|by eexists].
  by apply elem_of_rest_keys_of.
Qed.

Lemma post_init_built nurses daily_shifts num_days start_day self :
  Scheduler.post_init nurses daily_shifts num_days start_day = Ok self →
  Scheduler.nurses self = nurses ∧
  Scheduler.daily_shifts self = daily_shifts ∧
  Scheduler.num_days self = num_days ∧
  Scheduler.start_day self = start_day ∧
  Scheduler.all_days self = range 0 num_days ∧
  Scheduler.num_nurses self = len nurses ∧
  built nurses (range 0 num_days) daily_shifts
        (Scheduler.shifts self) (Scheduler.rest_days self).
Proof.
  unfold Scheduler.post_init.
  destruct (new_variables_spec nurses (range 0 num_days) daily_shifts)
    as (sh & rs & Heq & Hb).
  rewrite Heq. intros [= <-]. by cbn.
Qed.

Lemma post_init_Ok nurses daily_shifts num_days start_day :
  ∃ self, Scheduler.post_init nurses daily_shifts num_days start_day = Ok self.
Proof.
  unfold Scheduler.post_init.
  destruct (new_variables_spec nurses (range 0 num_days) daily_shifts)
    as (sh & rs & Heq & _).
  rewrite Heq. by eexists.
Qed.

Lemma Basis_post_init_Ok nurses daily_shifts num_days start_day :
  ∃ self,
    Basis.post_init nurses daily_shifts num_days start_day = Ok self ∧
    Basis.applied_constraints self = [] ∧
    constraints (Basis.model self) = [] ∧
    Basis.solution self = None ∧
    Basis.assigned_rests self = None ∧
    Basis.nurses self = nurses ∧
    Basis.daily_shifts self = daily_shifts ∧
    Basis.all_days self = range 0 num_days ∧
    built nurses (range 0 num_days) daily_shifts
          (Basis.shifts self) (Basis.rest_days self).
Proof.
  unfold Basis.post_init.
  destruct (new_variables_spec nurses (range 0 num_days) daily_shifts)
    as (sh & rs & Heq & Hb).
  rewrite Heq. eexists. split; [reflexivity|]. cbn.
  repeat (split; [reflexivity|]). exact Hb.
Qed.

(** ** Meaning of constraints *)

Lemma satisfies_holds a m c :
  satisfies a m = true → c ∈ constraints m → holds a c = true.
Proof.
  unfold satisfies. rewrite forallb_forall. intros H Hc.
  apply H. by apply list_elem_of_In.
Qed.

Lemma sum_values_cons a v vs :
  sum_values a (v :: vs) = Value a v + sum_values a vs.
Proof. reflexivity. Qed.

Lemma sum_values_nonneg a vs : 0 ≤ sum_values a vs.
Proof.
  induction vs as [|v vs IH]; [done|].
  rewrite sum_values_cons. unfold Value. destruct (a v); lia.
Qed.

Lemma sum_values_zero a vs v :
  sum_values a vs = 0 → v ∈ vs → a v = false.
Proof.
  induction vs as [|u vs IH]; intros Hs Hv.
  - by apply elem_of_nil in Hv.
  - pose proof (sum_values_nonneg a vs). rewrite sum_values_cons in Hs.
    unfold Value in Hs.
    apply elem_of_cons in Hv as [->|Hv].
    + destruct (a u); [lia|done].
    + apply IH; [|done]. destruct (a u); lia.
Qed.

Lemma sum_values_one a vs :
  sum_values a vs = 1 →
  ∃ (i : nat) v, vs !! i = Some v ∧ a v = true ∧
    ∀ (j : nat) v', vs !! j = Some v' → a v' = true → j = i.
Proof.
  induction vs as [|u vs IH]; [cbn; intros; lia|].
  rewrite sum_values_cons.
  unfold Value. destruct (a u) eqn:Hu; intros Hs.
  - exists 0%nat, u. repeat split; [done|].
    intros [|j] v' Hj Hv'; [done|]. cbn in Hj.
    assert (a v' = false); [|congruence].
    eapply sum_values_zero; [|by eapply list_elem_of_lookup_2]. lia.
  - destruct IH as (i & v & Hi & Hv & Huniq); [lia|].
    exists (S i), v. repeat split; [done..|].
    intros [|j] v' Hj Hv'; cbn in Hj.
    + congruence.
    + f_equal. eauto.
Qed.

(** ** Coverage: single_nurse_per_shift *)

Import NurseConstraintLibrary.

Lemma single_nurse_per_shift_total shifts nurses days daily_shifts e :
  (∀ n d s, n ∈ col_Nurse nurses → d ∈ days → s ∈ shift_keys daily_shifts →
            is_Some (shifts !! (n, d, s))) →
  total (single_nurse_per_shift shifts nurses days daily_shifts) e
    (λ _ e', ∀ d, d ∈ days → ∀ s, s ∈ shift_keys daily_shifts →
       ∃ vs, Forall2 (λ n v, shifts !! (n, d, s) = Some v)
                     (col_Nurse nurses) vs ∧
             ExactlyOne vs ∈ constraints (cp e')).
Proof.
  intros Hdict. unfold single_nurse_per_shift.
  apply (total_for_each (λ d e', ∀ s, s ∈ shift_keys daily_shifts →
       ∃ vs, Forall2 (λ n v, shifts !! (n, d, s) = Some v)
                     (col_Nurse nurses) vs ∧
             ExactlyOne vs ∈ constraints (cp e'))).
  { intros d e1 e2 H Hext s Hs. destruct (H s Hs) as (vs & Hvs & Hc).
    exists vs. split; [done|]. by eapply extends_constraint. }
  intros d e1 Hd _.
  apply (total_for_each (λ s e', 
       ∃ vs, Forall2 (λ n v, shifts !! (n, d, s) = Some v)
                     (col_Nurse nurses) vs ∧
             ExactlyOne vs ∈ constraints (cp e'))).
  { intros s e2 e3 (vs & Hvs & Hc) Hext.
    exists vs. split; [done|]. by eapply extends_constraint. }
  intros s e2 Hs _.
  apply total_bind, total_shift_lookups.
  { intros k Hk. apply list_elem_of_fmap in Hk as (n & -> & Hn). eauto. }
  intros vs e3 Hvs Hcp. apply total_Add. intros e4 Hcp4 _.
  exists vs. split.
  - by apply Forall2_fmap_l in Hvs.
  - rewrite Hcp4. cbn. apply elem_of_app. right. by left.
Qed.

(** C1. On the variables of a freshly constructed scheduler,
    [single_nurse_per_shift] returns normally and, for every day of the
    horizon and every shift type, has added the exactly-one constraint
    over all the nurses' variables of that day and shift; hence in
    every assignment that satisfies the model so obtained exactly one
    nurse of the roster has her variable for that (day, shift) at 1. *)
Theorem single_nurse_per_shift_exactly_one
    nurses daily_shifts num_days start_day self e d s :
  Scheduler.post_init nurses daily_shifts num_days start_day = Ok self →
  0 ≤ d < num_days →
  s ∈ shift_keys daily_shifts →
  ∃ e' vs,
    single_nurse_per_shift (Scheduler.shifts self) nurses
      (Scheduler.all_days self) daily_shifts e = (Ok (), e') ∧
    Forall2 (λ n v, Scheduler.shifts self !! (n, d, s) = Some v)
            (col_Nurse nurses) vs ∧
    ExactlyOne vs ∈ constraints (cp e') ∧
    ∀ a, satisfies a (cp e') = true →
      ∃ n, n ∈ col_Nurse nurses ∧
           is_assigned a (Scheduler.shifts self) (n, d, s) = true ∧
           ∀ n', n' ∈ col_Nurse nurses →
                 is_assigned a (Scheduler.shifts self) (n', d, s) = true →
                 n' = n.
Proof.
  intros Hinit Hd Hs.
  destruct (post_init_built _ _ _ _ _ Hinit)
    as (_ & _ & _ & _ & Hdays & _ & Hb).
  rewrite Hdays.
  destruct (single_nurse_per_shift_total (Scheduler.shifts self) nurses
              (range 0 num_days) daily_shifts e)
    as ([] & e' & Hrun & _ & Hpost).
  { intros. by eapply built_shift_lookup. }
  destruct (Hpost d (proj2 (elem_of_range _ _ _) Hd) s Hs) as (vs & Hvs & Hc).
  exists e', vs. repeat split; [done..|].
  intros a Hsat. pose proof (satisfies_holds _ _ _ Hsat Hc) as Hh.
  cbn in Hh. apply bool_decide_eq_true in Hh.
  destruct (sum_values_one _ _ Hh) as (i & v & Hi & Hv & Huniq).
  destruct (Forall2_lookup_r _ _ _ _ _ Hvs Hi) as (n & Hn & Hnv).
  exists n. split; [by eapply list_elem_of_lookup_2|].
  unfold is_assigned. rewrite Hnv. split; [done|].
  intros n' Hn' Ha'. apply list_elem_of_lookup in Hn' as [j Hj].
  destruct (Forall2_lookup_l _ _ _ _ _ Hvs Hj) as (v' & Hj' & Hnv').
  rewrite Hnv' in Ha'. specialize (Huniq j v' Hj' Ha'). subst j. congruence.
Qed.

Lemma single_nurse_per_shift_exactly_one_witness :
  ∃ self,
    Scheduler.post_init demo_nurses demo_shifts 7 "Monday" = Ok self ∧
    0 ≤ 3 < 7 ∧
    1 ∈ shift_keys demo_shifts ∧
    ∃ e' vs,
      single_nurse_per_shift (Scheduler.shifts self) demo_nurses
        (Scheduler.all_days self) demo_shifts
        (mkEnv (Scheduler.model self) []) = (Ok (), e') ∧
      Forall2 (λ n v, Scheduler.shifts self !! (n, 3, 1) = Some v)
              (col_Nurse demo_nurses) vs ∧
      ExactlyOne vs ∈ constraints (cp e') ∧
      ∀ a, satisfies a (cp e') = true →
        ∃ n, n ∈ col_Nurse demo_nurses ∧
             is_assigned a (Scheduler.shifts self) (n, 3, 1) = true ∧
             ∀ n', n' ∈ col_Nurse demo_nurses →
                   is_assigned a (Scheduler.shifts self) (n', 3, 1) = true →
                   n' = n.
Proof.
  destruct (post_init_Ok demo_nurses demo_shifts 7 "Monday") as [self Hself].
  assert (Hd : 0 ≤ 3 < 7) by lia.
  assert (Hs : 1 ∈ shift_keys demo_shifts) by (right; left).
  exists self. split; [exact Hself|]. split; [exact Hd|]. split; [exact Hs|].
  exact (single_nurse_per_shift_exactly_one
           demo_nurses demo_shifts 7 "Monday" self _ 3 1 Hself Hd Hs).
Defined.

(** ** Even distribution: distribute_shifts_evenly *)

Lemma sum_values_count (a : assignment) (shifts : gmap (Z * Z * Z) nat)
    (ks : list (Z * Z * Z)) (vs : list nat) :
  Forall2 (λ k v, shifts !! k = Some v) ks vs →
  sum_values a vs = count_assigned a shifts ks.
Proof.
  induction 1 as [|k v ks vs Hk _ IH]; [done|].
  rewrite sum_values_cons. cbn. unfold is_assigned at 1. rewrite Hk.
  unfold Value. by rewrite IH.
Qed.

Lemma elem_of_slots (n : Z) (ds ss : list Z) k :
  k ∈ (d ← ds; s ← ss; [(n, d, s)]) ↔
  ∃ d s, k = (n, d, s) ∧ d ∈ ds ∧ s ∈ ss.
Proof.
  rewrite list_elem_of_bind. split.
  - intros (d & H & Hd). apply list_elem_of_bind in H as (s & H & Hs).
    apply list_elem_of_singleton in H. eauto.
  - intros (d & s & -> & Hd & Hs). exists d. split; [|done].
    apply list_elem_of_bind. exists s. split; [|done].
    by apply list_elem_of_singleton.
Qed.

Lemma distribute_shifts_evenly_total shifts nurses days daily_shifts
    num_nurses tolerance e :
  (∀ n d s, n ∈ col_Nurse nurses → d ∈ days → s ∈ shift_keys daily_shifts →
            is_Some (shifts !! (n, d, s))) →
  num_nurses ≠ 0 →
  let lo := (len daily_shifts * len days) `div` num_nurses in
  let hi := if decide ((len daily_shifts * len days) `mod` num_nurses = 0)
            then lo else lo + tolerance in
  total (distribute_shifts_evenly shifts nurses days daily_shifts
           num_nurses tolerance) e
    (λ _ e', ∀ n, n ∈ col_Nurse nurses →
       ∃ vs, Forall2 (λ k v, shifts !! k = Some v)
               (d ← days; s ← shift_keys daily_shifts; [(n, d, s)]) vs ∧
             Linear (LSum vs) Ge (LInt lo) [] ∈ constraints (cp e') ∧
             Linear (LSum vs) Le (LInt hi) [] ∈ constraints (cp e')).
Proof.
  intros Hdict Hm lo hi. unfold distribute_shifts_evenly, floordiv, pymod.
  destruct (decide (num_nurses = 0)) as [|_]; [done|].
  apply total_bind, total_lift, total_bind, total_lift. fold lo. fold hi.
  apply (total_for_each (λ n e',
       ∃ vs, Forall2 (λ k v, shifts !! k = Some v)
               (d ← days; s ← shift_keys daily_shifts; [(n, d, s)]) vs ∧
             Linear (LSum vs) Ge (LInt lo) [] ∈ constraints (cp e') ∧
             Linear (LSum vs) Le (LInt hi) [] ∈ constraints (cp e'))).
  { intros n e1 e2 (vs & Hvs & Hc1 & Hc2) Hext. exists vs.
    split; [done|]. split; by eapply extends_constraint. }
  intros n e1 Hn _. unfold shift_vars.
  apply total_bind, total_shift_lookups.
  { intros k Hk. apply elem_of_slots in Hk as (d & s & -> & Hd & Hs). eauto. }
  intros vs e2 Hvs Hcp2. apply total_bind, total_Add. intros e3 Hcp3 _.
  apply total_Add. intros e4 Hcp4 _. exists vs. split; [done|].
  rewrite Hcp4, Hcp3. cbn. rewrite !elem_of_app, !list_elem_of_singleton.
  split; eauto.
Qed.

(** C5. For a list of days [D] of the horizon, a sub-mapping [S] of the
    shift types, a nurse count [m > 0] and a tolerance [t], let
    [lo = (|S| * |D|) // m] and [hi = lo] when [m] divides [|S| * |D|]
    and [lo + t] otherwise, both within the integers that a comparison
    takes. Then [distribute_shifts_evenly] returns normally; when [D]
    and [S] are not empty it has added, for each nurse, the two bounds
    [lo <= total] and [total <= hi] on the sum of that nurse's
    variables over [D x S]; and in every satisfying assignment each
    nurse's number of assigned slots over [D x S] lies in [lo, hi].
    For [|D| = 10], [m = 3], [|S| = 1], [t = 1] the bounds are 3
    and 4. *)
Theorem distribute_shifts_evenly_bounds
    nurses daily_shifts num_days start_day self
    (D : list Z) (S : list (Z * string)) (m t : Z) e :
  Scheduler.post_init nurses daily_shifts num_days start_day = Ok self →
  (∀ d, d ∈ D → 0 ≤ d < num_days) →
  (∀ s, s ∈ shift_keys S → s ∈ shift_keys daily_shifts) →
  0 < m →
  fits_int64 ((len S * len D) `div` m) →
  fits_int64 (if decide ((len S * len D) `mod` m = 0)
              then (len S * len D) `div` m
              else (len S * len D) `div` m + t) →
  ∃ e' lo hi,
    distribute_shifts_evenly (Scheduler.shifts self) nurses D S m t e
      = (Ok (), e') ∧
    lo = (len S * len D) `div` m ∧
    hi = (if decide ((len S * len D) `mod` m = 0) then lo else lo + t) ∧
    (D ≠ [] → S ≠ [] →
     ∀ n, n ∈ col_Nurse nurses →
       ∃ vs, Forall2 (λ k v, Scheduler.shifts self !! k = Some v)
               (d ← D; s ← shift_keys S; [(n, d, s)]) vs ∧
             Linear (LSum vs) Ge (LInt lo) [] ∈ constraints (cp e') ∧
             Linear (LSum vs) Le (LInt hi) [] ∈ constraints (cp e')) ∧
    (∀ a, satisfies a (cp e') = true →
       ∀ n, n ∈ col_Nurse nurses →
         lo ≤ count_assigned a (Scheduler.shifts self)
                (d ← D; s ← shift_keys S; [(n, d, s)]) ≤ hi) ∧
    (len D = 10 → m = 3 → len S = 1 → t = 1 → lo = 3 ∧ hi = 4).
Proof.
  intros Hinit HD HS Hm _ _.
  destruct (post_init_built _ _ _ _ _ Hinit) as (_ & _ & _ & _ & _ & _ & Hb).
  destruct (distribute_shifts_evenly_total (Scheduler.shifts self) nurses
              D S m t e)
    as ([] & e' & Hrun & _ & Hpost).
  { intros n d s Hn Hd Hs. eapply built_shift_lookup; eauto.
    apply elem_of_range. eauto. }
  { lia. }
  exists e'. eexists _, _. split; [exact Hrun|].
  split; [reflexivity|]. split; [reflexivity|].
  split; [intros _ _; exact Hpost|]. split.
  - intros a Hsat n Hn. destruct (Hpost n Hn) as (vs & Hvs & Hc1 & Hc2).
    pose proof (satisfies_holds _ _ _ Hsat Hc1) as H1.
    pose proof (satisfies_holds _ _ _ Hsat Hc2) as H2.
    cbn in H1, H2. apply bool_decide_eq_true in H1, H2.
    rewrite <- (sum_values_count a _ _ _ Hvs). lia.
  - intros -> -> -> ->. by vm_compute.
Qed.

Lemma distribute_shifts_evenly_bounds_witness :
  ∃ self,
    Scheduler.post_init demo_nurses [(0, "Day"%string)] 10 "Monday" = Ok self ∧
    (∀ d, d ∈ range 0 10 → 0 ≤ d < 10) ∧
    (∀ s, s ∈ shift_keys [(0, "Day"%string)] →
          s ∈ shift_keys [(0, "Day"%string)]) ∧
    0 < 3 ∧
    fits_int64 ((len [(0, "Day"%string)] * len (range 0 10)) `div` 3) ∧
    fits_int64
      (if decide ((len [(0, "Day"%string)] * len (range 0 10)) `mod` 3 = 0)
       then (len [(0, "Day"%string)] * len (range 0 10)) `div` 3
       else (len [(0, "Day"%string)] * len (range 0 10)) `div` 3 + 1) ∧
    ∃ e' lo hi,
      distribute_shifts_evenly (Scheduler.shifts self) demo_nurses
        (range 0 10) [(0, "Day"%string)] 3 1
        (mkEnv (Scheduler.model self) []) = (Ok (), e') ∧
      lo = 3 ∧ hi = 4 ∧
      (∀ n, n ∈ col_Nurse demo_nurses →
         ∃ vs, Forall2 (λ k v, Scheduler.shifts self !! k = Some v)
                 (d ← range 0 10; s ← shift_keys [(0, "Day"%string)];
                  [(n, d, s)]) vs ∧
               Linear (LSum vs) Ge (LInt lo) [] ∈ constraints (cp e') ∧
               Linear (LSum vs) Le (LInt hi) [] ∈ constraints (cp e')) ∧
      (∀ a, satisfies a (cp e') = true →
         ∀ n, n ∈ col_Nurse demo_nurses →
           lo ≤ count_assigned a (Scheduler.shifts self)
                  (d ← range 0 10; s ← shift_keys [(0, "Day"%string)];
                   [(n, d, s)]) ≤ hi).
Proof.
  destruct (post_init_Ok demo_nurses [(0, "Day"%string)] 10 "Monday")
    as [self Hself].
  assert (HD : ∀ d, d ∈ range 0 10 → 0 ≤ d < 10)
    by (intros d Hd; by apply elem_of_range in Hd).
  assert (HS : ∀ s, s ∈ shift_keys [(0, "Day"%string)] →
                    s ∈ shift_keys [(0, "Day"%string)]) by done.
  assert (Hm : 0 < 3) by lia.
  assert (Hlo : fits_int64
                  ((len [(0, "Day"%string)] * len (range 0 10)) `div` 3))
    by (vm_compute; split; reflexivity).
  assert (Hhi : fits_int64
      (if decide ((len [(0, "Day"%string)] * len (range 0 10)) `mod` 3 = 0)
       then (len [(0, "Day"%string)] * len (range 0 10)) `div` 3
       else (len [(0, "Day"%string)] * len (range 0 10)) `div` 3 + 1))
    by (vm_compute; split; reflexivity).
  exists self. split; [exact Hself|]. split; [exact HD|].
  split; [exact HS|]. split; [exact Hm|]. split; [exact Hlo|].
  split; [exact Hhi|].
  destruct (distribute_shifts_evenly_bounds demo_nurses [(0, "Day"%string)] 10
              "Monday" self (range 0 10) [(0, "Day"%string)] 3 1
              (mkEnv (Scheduler.model self) []) Hself HD HS Hm Hlo Hhi)
    as (e' & lo & hi & Hrun & Hlo' & Hhi' & Hadded & Hsat & Hnum).
  assert (H34 : lo = 3 ∧ hi = 4) by (apply Hnum; reflexivity).
  destruct H34 as [H3 H4].
  exists e', lo, hi. split; [exact Hrun|]. split; [exact H3|].
  split; [exact H4|]. split; [|exact Hsat].
  apply Hadded; discriminate.
Defined.

(** The bounds 3 and 4 are met: dealing the ten days out in turn
    satisfies the model of that instance, with four days for nurse 1
    and three for nurse 2. *)
Example ten_days_in_turn :
  match Scheduler.post_init demo_nurses [(0, "Day"%string)] 10 "Monday" with
  | Ok self =>
      let sh := Scheduler.shifts self in
      let r :=
        distribute_shifts_evenly sh demo_nurses (range 0 10)
          [(0, "Day"%string)] 3 1 (mkEnv (Scheduler.model self) []) in
      let a := assignment_of (cp r.2) in_turn in
      r.1 = Ok () ∧
      satisfies a (cp r.2) = true ∧
      count_assigned a sh ((λ d, (1, d, 0)) <$> range 0 10) = 4 ∧
      count_assigned a sh ((λ d, (2, d, 0)) <$> range 0 10) = 3
  | Raise _ => False
  end.
Proof. vm_compute. repeat split. Qed.

(** ** Follow-on restriction: limit_shifts_after_shifts *)


Lemma elem_of_window (n d : Z) (offs ss : list Z) k :
  k ∈ (off ← offs; s ← ss; [(n, d + off, s)]) ↔
  ∃ off s, k = (n, d + off, s) ∧ off ∈ offs ∧ s ∈ ss.
Proof.
  rewrite list_elem_of_bind. split.
  - intros (off & H & Hd). apply list_elem_of_bind in H as (s & H & Hs).
    apply list_elem_of_singleton in H. eauto.
  - intros (off & s & -> & Hd & Hs). exists off. split; [|done].
    apply list_elem_of_bind. exists s. split; [|done].
    by apply list_elem_of_singleton.
Qed.

Lemma limit_shifts_after_shifts_total shifts nurses days
    first_shifts limited_shifts num_consecutive allowed_num_shifts e :
  (∀ d, d ∈ days → 0 ≤ d) →
  (∀ n d s, n ∈ col_Nurse nurses → 0 ≤ d < len days →
            s ∈ first_shifts ∨ s ∈ limited_shifts →
            is_Some (shifts !! (n, d, s))) →
  (∀ d, d ∈ days → d < len days) →
  total (limit_shifts_after_shifts shifts nurses days first_shifts
           limited_shifts num_consecutive allowed_num_shifts) e
    (λ _ e', ∀ d, d ∈ days → ∀ n, n ∈ col_Nurse nurses →
       follow_on_fact shifts first_shifts limited_shifts num_consecutive
         allowed_num_shifts (len days) n d e e').
Proof.
  intros Hpos Hdict Hlt. unfold limit_shifts_after_shifts.
  assert (Hstable : ∀ n d e1 e2,
            follow_on_fact shifts first_shifts limited_shifts num_consecutive
              allowed_num_shifts (len days) n d e e1 →
            extends e1 e2 →
            follow_on_fact shifts first_shifts limited_shifts num_consecutive
              allowed_num_shifts (len days) n d e e2).
  { intros n d e1 e2 (w & fs & vs & Hw & Hname & Hfs & Hc1 & Hvs & Hc2) Hext.
    exists w, fs, vs. repeat split; try done.
    - by eapply extends_variable.
    - by eapply extends_constraint.
    - by eapply extends_constraint. }
  apply (total_for_each (λ d e', ∀ n, n ∈ col_Nurse nurses →
       follow_on_fact shifts first_shifts limited_shifts num_consecutive
         allowed_num_shifts (len days) n d e e')).
  { intros d e1 e2 H Hext n Hn. eauto. }
  intros d e1 Hd Hext1.
  apply (total_for_each (λ n e',
       follow_on_fact shifts first_shifts limited_shifts num_consecutive
         allowed_num_shifts (len days) n d e e')).
  { intros n e2 e3 H Hext. eauto. }
  intros n e2 Hn Hext2.
  apply total_bind, total_NewBoolVar. intros e3 Hcp3 _.
  apply total_bind, total_shift_lookups.
  { intros k Hk. apply list_elem_of_fmap in Hk as (s & -> & Hs).
    apply Hdict; [done| |by left]. split; [by apply Hpos|by apply Hlt]. }
  intros fs e4 Hfs Hcp4. apply total_bind, total_Add. intros e5 Hcp5 _.
  apply total_bind, total_shift_lookups.
  { intros k Hk. apply elem_of_window in Hk as (off & s & -> & Hoff & Hs).
    apply elem_of_range in Hoff. apply Hdict; [done| |by right].
    specialize (Hpos d Hd). lia. }
  intros vs e6 Hvs Hcp6. apply total_Add. intros e7 Hcp7 _.
  exists (length (variables (cp e2))), fs, vs.
  assert (Hpre : variables (cp e) `prefix_of` variables (cp e2)).
  { etrans; [apply Hext1|apply Hext2]. }
  split; [by apply prefix_length|].
  rewrite Hcp7, Hcp6, Hcp5, Hcp4, Hcp3. cbn.
  split. { rewrite lookup_app_r, Nat.sub_diag by done. done. }
  split; [done|]. split.
  { rewrite !elem_of_app, !list_elem_of_singleton. eauto. }
  split; [done|].
  rewrite !elem_of_app, !list_elem_of_singleton. eauto.
Qed.




(** ** Block assignment and mandated rest: assign_consecutive_shifts *)

Lemma block_fact_stable shifts rest_days daily_shifts num_days shift_index
    num_consecutive n d w x0 e1 e2 :
  block_fact shifts rest_days daily_shifts num_days shift_index
    num_consecutive n d w x0 e1 →
  extends e1 e2 →
  block_fact shifts rest_days daily_shifts num_days shift_index
    num_consecutive n d w x0 e2.
Proof.
  intros (Hname & Hx0 & Hc & Hblock & Hrest) Hext.
  split; [by eapply extends_variable|]. split; [done|].
  split; [by eapply extends_constraint|]. split.
  - intros k Hk Hlt. destruct (Hblock k Hk Hlt) as (xk & Hxk & Hck).
    exists xk. split; [done|]. by eapply extends_constraint.
  - intros off Hoff Hlt.
    destruct (Hrest off Hoff Hlt) as (vs & r & Hvs & Hr & Hc1 & Hc2).
    exists vs, r. repeat split; try done; by eapply extends_constraint.
Qed.

Lemma assign_consecutive_shifts_total shifts nurses rest_days days
    daily_shifts start_day num_days start_shift_day shift_index
    num_consecutive e :
  start_day ∈ days_of_week →
  (∀ d, d ∈ days → 0 ≤ d < num_days) →
  0 ≤ num_consecutive →
  (∀ n d s, n ∈ col_Nurse nurses → 0 ≤ d < num_days →
            s ∈ shift_keys daily_shifts ∨ s = shift_index →
            is_Some (shifts !! (n, d, s))) →
  (∀ n d, n ∈ col_Nurse nurses → 0 ≤ d < num_days →
          is_Some (rest_days !! (n, d))) →
  total (assign_consecutive_shifts shifts nurses rest_days days daily_shifts
           start_day num_days start_shift_day shift_index num_consecutive) e
    (λ _ e', ∀ d, d ∈ days →
       ∀ wd, what_day d start_day = Ok wd → wd.1 = start_shift_day →
       ∀ n, n ∈ col_Nurse nurses →
       ∃ w x0 : nat,
         (length (variables (cp e)) ≤ w)%nat ∧
         block_fact shifts rest_days daily_shifts num_days shift_index
           num_consecutive n d w x0 e').
Proof.
  intros Hstart Hdays Hnc Hdict Hrests. unfold assign_consecutive_shifts.
  apply (total_for_each (λ d e',
       ∀ wd, what_day d start_day = Ok wd → wd.1 = start_shift_day →
       ∀ n, n ∈ col_Nurse nurses →
       ∃ w x0 : nat,
         (length (variables (cp e)) ≤ w)%nat ∧
         block_fact shifts rest_days daily_shifts num_days shift_index
           num_consecutive n d w x0 e')).
  { intros d e1 e2 H Hext wd Hwd Hname n Hn.
    destruct (H wd Hwd Hname n Hn) as (w & x0 & Hw & Hb).
    exists w, x0. split; [done|]. by eapply block_fact_stable. }
  intros d e1 Hd Hext1. specialize (Hdays d Hd).
  destruct (proj2 (what_day_Ok_iff d start_day) Hstart) as [wd Hwd].
  rewrite Hwd. apply total_bind, total_lift.
  eapply total_conseq.
  { apply (total_for_each (λ n e',
       wd.1 = start_shift_day →
       ∃ w x0 : nat,
         (length (variables (cp e)) ≤ w)%nat ∧
         block_fact shifts rest_days daily_shifts num_days shift_index
           num_consecutive n d w x0 e')).
    { intros n e2 e3 H Hext Hname.
      destruct (H Hname) as (w & x0 & Hw & Hb).
      exists w, x0. split; [done|]. by eapply block_fact_stable. }
    intros n e2 Hn Hext2.
    destruct (decide (wd.1 = start_shift_day)) as [Hname|Hname];
      [|by apply total_ret].
    destruct (Hdict n d shift_index Hn Hdays) as [x0 Hx0]; [by right|].
    apply total_bind, total_NewBoolVar. intros e3 Hcp3 _.
    apply total_bind. eapply total_getitem_shifts; [exact Hx0|].
    intros e4 Hcp4. apply total_bind, total_Add. intros e5 Hcp5 _.
    set (w := length (variables (cp e2))).
    assert (Hc0 : Linear (LVar w) Eq (LVar x0) [] ∈ constraints (cp e5)).
    { rewrite Hcp5. cbn. apply elem_of_app. right. by left. }
    assert (Hname5 : variables (cp e5) !! w = Some (worked_shift_name n d)).
    { rewrite Hcp5, Hcp4, Hcp3. cbn.
      rewrite lookup_app_r by done. by rewrite Nat.sub_diag. }
    apply total_bind. eapply total_conseq.
    { apply (total_for_each (λ k e',
        d + k < num_days →
        ∃ xk, shifts !! (n, d + k, shift_index) = Some xk ∧
              Linear (LVar xk) Eq (LVar x0) [] ∈ constraints (cp e'))).
      { intros k e6 e7 H Hext Hlt. destruct (H Hlt) as (xk & Hxk & Hc).
        exists xk. split; [done|]. by eapply extends_constraint. }
      intros k e6 Hk _. apply elem_of_range in Hk.
      destruct (decide (d + k < num_days)) as [Hlt|Hge];
        [|by apply total_ret].
      destruct (Hdict n (d + k) shift_index Hn) as [xk Hxk];
        [lia|by right|].
      apply total_bind. eapply total_getitem_shifts; [exact Hxk|].
      intros e7 Hcp7. apply total_bind.
      eapply total_getitem_shifts; [exact Hx0|].
      intros e8 Hcp8. apply total_Add. intros e9 Hcp9 _ _.
      exists xk. split; [done|].
      rewrite Hcp9. cbn. apply elem_of_app. right. by left. }
    intros [] e6 Hext6 Hblock. cbn beta.
    eapply total_conseq.
    { apply (total_for_each (λ off e',
        d + num_consecutive + off < num_days →
        ∃ vs r,
          Forall2 (λ s v,
                     shifts !! (n, d + num_consecutive + off, s) = Some v)
                  (shift_keys daily_shifts) vs ∧
          rest_days !! (n, d + num_consecutive + off) = Some r ∧
          Linear (LSum vs) Eq (LInt 0) [w] ∈ constraints (cp e') ∧
          Linear (LVar r) Eq (LVar w) [] ∈ constraints (cp e'))).
      { intros off e7 e8 H Hext Hlt.
        destruct (H Hlt) as (vs & r & Hvs & Hr & Hc1 & Hc2).
        exists vs, r. repeat split; try done; by eapply extends_constraint. }
      intros off e7 Hoff _. apply elem_of_range in Hoff.
      destruct (decide (d + num_consecutive + off < num_days)) as [Hlt|Hge];
        [|by apply total_ret].
      apply total_bind, total_shift_lookups.
      { intros k Hk. apply list_elem_of_fmap in Hk as (s & -> & Hs).
        apply Hdict; [done|lia|by left]. }
      intros vs e8 Hvs Hcp8. apply Forall2_fmap_l in Hvs.
      apply total_bind, total_Add. intros e9 Hcp9 _.
      destruct (Hrests n (d + num_consecutive + off) Hn) as [r Hr]; [lia|].
      apply total_bind. eapply total_getitem_rest; [exact Hr|].
      intros e10 Hcp10. apply total_Add. intros e11 Hcp11 _ _.
      exists vs, r. split; [done|]. split; [done|].
      rewrite Hcp11, Hcp10, Hcp9. cbn.
      rewrite !elem_of_app, !list_elem_of_singleton. eauto. }
    intros [] e7 Hext7 Hrest _. cbn beta.
    exists w, x0. split.
    { apply prefix_length. etrans; [apply Hext1|apply Hext2]. }
    assert (Hext57 : extends e5 e7).
    { etrans; [|exact Hext7].
      etrans; [|exact Hext6]. done. }
    split; [by apply (extends_variable e5 e7)|]. split; [done|].
    split; [by apply (extends_constraint e5 e7)|]. split.
    - intros k Hk Hlt.
      destruct (Hblock k (proj2 (elem_of_range _ _ _) Hk) Hlt)
        as (xk & Hxk & Hc).
      exists xk. split; [done|]. by apply (extends_constraint e6 e7).
    - intros off Hoff Hlt.
      apply (Hrest off); [|done]. apply elem_of_range. lia. }
  intros [] e2 Hext2 H wd' Hwd' Hname n Hn. cbn beta in *.
  assert (wd' = wd) as -> by congruence. eauto.
Qed.

Lemma Value_inj (a : assignment) (u v : nat) :
  Value a u = Value a v → a u = a v.
Proof. unfold Value. destruct (a u), (a v); done. Qed.

Lemma holds_var_eq (a : assignment) (u v : nat) :
  holds a (Linear (LVar u) Eq (LVar v) []) = true → a u = a v.
Proof. cbn. intros H. apply bool_decide_eq_true in H. by apply Value_inj. Qed.

(** C2. On the variables of a freshly constructed scheduler, for a block
    length [num_consecutive >= 0] and a [shift_index] among the shift
    types, [assign_consecutive_shifts] returns normally, and for every
    day [d] of the horizon that [what_day] names [start_shift_day] and
    every nurse [n] it has created a block indicator [w], equated it to
    [x[n, d, shift_index]], equated [x[n, d+k, shift_index]] to
    [x[n, d, shift_index]] for each [k] in [1 .. num_consecutive-1]
    with [d + k] inside the horizon, and, for each of the days
    [d + num_consecutive] and [d + num_consecutive + 1] inside the
    horizon, added "the sum of all her shift variables of that day is
    0" enforced if [w], and equated [r[n, day]] to [w]. In every
    satisfying assignment the block days therefore carry the first
    day's value, the two rest-day flags equal the indicator, and when
    the indicator is true she has no shift of any type on those days. *)
Theorem assign_consecutive_shifts_block
    nurses daily_shifts num_days start_day self
    start_shift_day shift_index num_consecutive e n d flag :
  Scheduler.post_init nurses daily_shifts num_days start_day = Ok self →
  shift_index ∈ shift_keys daily_shifts →
  0 ≤ num_consecutive →
  n ∈ col_Nurse nurses →
  0 ≤ d < num_days →
  what_day d start_day = Ok (start_shift_day, flag) →
  ∃ e' (w x0 : nat),
    assign_consecutive_shifts (Scheduler.shifts self) nurses
      (Scheduler.rest_days self) (Scheduler.all_days self) daily_shifts
      start_day num_days start_shift_day shift_index num_consecutive e
      = (Ok (), e') ∧
    (length (variables (cp e)) ≤ w)%nat ∧
    block_fact (Scheduler.shifts self) (Scheduler.rest_days self)
      daily_shifts num_days shift_index num_consecutive n d w x0 e' ∧
    ∀ a, satisfies a (cp e') = true →
      a w = is_assigned a (Scheduler.shifts self) (n, d, shift_index) ∧
      (∀ k, 1 ≤ k < num_consecutive → d + k < num_days →
         is_assigned a (Scheduler.shifts self) (n, d + k, shift_index) =
         is_assigned a (Scheduler.shifts self) (n, d, shift_index)) ∧
      (∀ off, 0 ≤ off < 2 → d + num_consecutive + off < num_days →
         is_assigned a (Scheduler.rest_days self)
           (n, d + num_consecutive + off) = a w ∧
         (a w = true →
          ∀ s, s ∈ shift_keys daily_shifts →
            is_assigned a (Scheduler.shifts self)
              (n, d + num_consecutive + off, s) = false)).
Proof.
  intros Hinit Hsi Hnc Hn Hd Hwd.
  destruct (post_init_built _ _ _ _ _ Hinit)
    as (_ & _ & _ & _ & Hdays & _ & Hb).
  rewrite Hdays.
  destruct (assign_consecutive_shifts_total (Scheduler.shifts self) nurses
              (Scheduler.rest_days self) (range 0 num_days) daily_shifts
              start_day num_days start_shift_day shift_index
              num_consecutive e)
    as ([] & e' & Hrun & _ & Hpost).
  { apply (what_day_Ok_iff d). by eexists. }
  { intros d' Hd'. by apply elem_of_range in Hd'. }
  { done. }
  { intros n' d' s Hn' Hd' [Hs| ->];
      eapply built_shift_lookup; eauto; by apply elem_of_range. }
  { intros n' d' Hn' Hd'. eapply built_rest_lookup; eauto.
    by apply elem_of_range. }
  destruct (Hpost d (proj2 (elem_of_range _ _ _) Hd) _ Hwd eq_refl n Hn)
    as (w & x0 & Hw & Hfact).
  exists e', w, x0. split; [done|]. split; [done|]. split; [done|].
  destruct Hfact as (Hname & Hx0 & Hc0 & Hblock & Hrest).
  intros a Hsat.
  assert (Hw0 : a w = a x0).
  { apply holds_var_eq. by eapply satisfies_holds. }
  split. { unfold is_assigned. by rewrite Hx0. }
  split.
  - intros k Hk Hlt. destruct (Hblock k Hk Hlt) as (xk & Hxk & Hc).
    unfold is_assigned. rewrite Hxk, Hx0.
    apply holds_var_eq. by eapply satisfies_holds.
  - intros off Hoff Hlt.
    destruct (Hrest off Hoff Hlt) as (vs & r & Hvs & Hr & Hc1 & Hc2).
    split.
    + unfold is_assigned. rewrite Hr.
      apply holds_var_eq. by eapply satisfies_holds.
    + intros Ha s Hs. pose proof (satisfies_holds _ _ _ Hsat Hc1) as Hh.
      cbn in Hh. rewrite Ha in Hh. cbn in Hh.
      apply bool_decide_eq_true in Hh.
      apply list_elem_of_lookup in Hs as [i Hi].
      destruct (Forall2_lookup_l _ _ _ _ _ Hvs Hi) as (v & Hv & Hsv).
      unfold is_assigned. rewrite Hsv.
      eapply sum_values_zero; [exact Hh|]. by eapply list_elem_of_lookup_2.
Qed.

Lemma assign_consecutive_shifts_block_witness :
  ∃ self,
    Scheduler.post_init demo_nurses demo_shifts 7 "Monday" = Ok self ∧
    1 ∈ shift_keys demo_shifts ∧
    0 ≤ 3 ∧
    2 ∈ col_Nurse demo_nurses ∧
    0 ≤ 0 < 7 ∧
    what_day 0 "Monday" = Ok ("Monday"%string, false) ∧
    ∃ e' (w x0 : nat),
      assign_consecutive_shifts (Scheduler.shifts self) demo_nurses
        (Scheduler.rest_days self) (Scheduler.all_days self) demo_shifts
        "Monday" 7 "Monday" 1 3 (mkEnv (Scheduler.model self) [])
        = (Ok (), e') ∧
      (length (variables (Scheduler.model self)) ≤ w)%nat ∧
      block_fact (Scheduler.shifts self) (Scheduler.rest_days self)
        demo_shifts 7 1 3 2 0 w x0 e' ∧
      ∀ a, satisfies a (cp e') = true →
        a w = is_assigned a (Scheduler.shifts self) (2, 0, 1) ∧
        (∀ k, 1 ≤ k < 3 → 0 + k < 7 →
           is_assigned a (Scheduler.shifts self) (2, 0 + k, 1) =
           is_assigned a (Scheduler.shifts self) (2, 0, 1)) ∧
        (∀ off, 0 ≤ off < 2 → 0 + 3 + off < 7 →
           is_assigned a (Scheduler.rest_days self) (2, 0 + 3 + off) = a w ∧
           (a w = true →
            ∀ s, s ∈ shift_keys demo_shifts →
              is_assigned a (Scheduler.shifts self) (2, 0 + 3 + off, s)
              = false)).
Proof.
  destruct (post_init_Ok demo_nurses demo_shifts 7 "Monday") as [self Hself].
  assert (Hsi : 1 ∈ shift_keys demo_shifts) by (right; left).
  assert (Hnc : 0 ≤ 3) by lia.
  assert (Hn : 2 ∈ col_Nurse demo_nurses) by (right; left).
  assert (Hd : 0 ≤ 0 < 7) by lia.
  assert (Hwd : what_day 0 "Monday" = Ok ("Monday"%string, false))
    by reflexivity.
  exists self. split; [exact Hself|]. split; [exact Hsi|].
  split; [exact Hnc|]. split; [exact Hn|]. split; [exact Hd|].
  split; [exact Hwd|].
  exact (assign_consecutive_shifts_block demo_nurses demo_shifts 7 "Monday"
           self "Monday" 1 3 _ 2 0 false Hself Hsi Hnc Hn Hd Hwd).
Defined.

(** ** Truncation at the end of the horizon *)

Lemma vars_of_var_eq (u w v : nat) :
  v ∈ constraint_vars (Linear (LVar u) Eq (LVar w) []) → v = u ∨ v = w.
Proof.
  cbn. intros Hv. apply elem_of_cons in Hv as [->|Hv]; [by left|].
  apply list_elem_of_singleton in Hv as ->. by right.
Qed.

Section truncation.
Variable shifts : gmap (Z * Z * Z) nat.
Variable rest_days : gmap (Z * Z) nat.
Variable num_days : Z.
Variable e0 : Env.

Local Abbreviation Inv := (truncated shifts rest_days num_days e0).
Local Abbreviation ok := (in_horizon_var shifts rest_days num_days
                        (length (variables (cp e0)))).

Lemma truncated_refl : Inv e0.
Proof.
  split; [exists []; by rewrite app_nil_r|]. split; [done|].
  exists []. rewrite app_nil_r. split; [done|].
  intros c v Hc. by apply elem_of_nil in Hc.
Qed.

Lemma truncated_getitem_shifts n d s e :
  d < num_days → Inv e → safe Inv ok (getitem_shifts shifts (n, d, s)) e.
Proof.
  intros Hd ((new & Hreads & Hnew) & Hlen & Hcs).
  assert (HI : Inv (mkEnv (cp e) (reads e ++ [ShiftKey n d s]))).
  { split; [|by split]. exists (new ++ [ShiftKey n d s]). cbn.
    rewrite Hreads, <- app_assoc. split; [done|].
    apply Forall_app. split; [done|]. by repeat constructor. }
  unfold safe, wp, getitem_shifts. cbn.
  destruct (shifts !! (n, d, s)) as [v|] eqn:Hv; [|done].
  split; [done|]. right. left. eauto.
Qed.

Lemma truncated_getitem_rest n d e :
  d < num_days → Inv e → safe Inv ok (getitem_rest rest_days (n, d)) e.
Proof.
  intros Hd ((new & Hreads & Hnew) & Hlen & Hcs).
  assert (HI : Inv (mkEnv (cp e) (reads e ++ [RestKey n d]))).
  { split; [|by split]. exists (new ++ [RestKey n d]). cbn.
    rewrite Hreads, <- app_assoc. split; [done|].
    apply Forall_app. split; [done|]. by repeat constructor. }
  unfold safe, wp, getitem_rest. cbn.
  destruct (rest_days !! (n, d)) as [v|] eqn:Hv; [|done].
  split; [done|]. right. right. eauto.
Qed.

Lemma truncated_NewBoolVar name e :
  Inv e → safe Inv ok (NewBoolVar name) e.
Proof.
  intros (Hreads & Hlen & Hcs). unfold safe, wp, NewBoolVar. cbn.
  split; [|by left]. split; [done|]. split; [|done].
  cbn. rewrite length_app. lia.
Qed.

Lemma truncated_Add c e :
  (∀ v, v ∈ constraint_vars c → ok v) →
  Inv e → safe Inv (λ _, True) (Add c) e.
Proof.
  intros Hc (Hreads & Hlen & added & Hadded & Hvars).
  unfold safe, wp, Add. cbn. split; [|done].
  split; [done|]. split; [done|]. exists (added ++ [c]). cbn.
  rewrite Hadded, <- app_assoc. split; [done|].
  intros c' v Hc' Hv. apply elem_of_app in Hc' as [Hc'|Hc']; [eauto|].
  apply list_elem_of_singleton in Hc' as ->. eauto.
Qed.

Lemma truncated_assign_consecutive_shifts nurses daily_shifts start_day
    start_shift_day shift_index num_consecutive e :
  Inv e →
  safe Inv (λ _, True)
    (assign_consecutive_shifts shifts nurses rest_days (range 0 num_days)
       daily_shifts start_day num_days start_shift_day shift_index
       num_consecutive) e.
Proof.
  intros HI. unfold assign_consecutive_shifts.
  apply safe_for_each; [done|]. clear e HI. intros d e Hd HI.
  apply elem_of_range in Hd.
  eapply safe_bind; [by apply (safe_lift _ (λ _, True))|].
  clear e HI. intros wd e HI _.
  apply safe_for_each; [done|]. clear e HI. intros n e _ HI.
  destruct (decide (wd.1 = start_shift_day)) as [_|_]; [|by apply safe_ret].
  eapply safe_bind; [by apply truncated_NewBoolVar|].
  clear e HI. intros w e HI Hw.
  eapply safe_bind; [apply truncated_getitem_shifts; [lia|done]|].
  clear e HI. intros x0 e HI Hx0.
  eapply safe_bind.
  { apply truncated_Add; [|done]. cbn. intros v Hv.
    by apply vars_of_var_eq in Hv as [-> | ->]. }
  clear e HI. intros _ e HI _.
  eapply safe_bind.
  { apply safe_for_each; [done|]. clear e HI. intros k e _ HI.
    destruct (decide (d + k < num_days)) as [Hlt|_]; [|by apply safe_ret].
    eapply safe_bind; [by apply truncated_getitem_shifts|].
    clear e HI. intros xk e HI Hxk.
    eapply safe_bind; [apply truncated_getitem_shifts; [lia|done]|].
    clear e HI. intros x0' e HI Hx0'.
    apply truncated_Add; [|done]. cbn. intros v Hv.
    by apply vars_of_var_eq in Hv as [-> | ->]. }
  clear e HI. intros _ e HI _.
  apply safe_for_each; [done|]. clear e HI. intros off e _ HI.
  destruct (decide (d + num_consecutive + off < num_days)) as [Hlt|_];
    [|by apply safe_ret].
  eapply safe_bind.
  { apply (safe_mapM _ ok); [done|]. intros k e1 Hk HI1.
    apply list_elem_of_fmap in Hk as (s & -> & _).
    by apply truncated_getitem_shifts. }
  clear e HI. intros vs e HI Hvs.
  eapply safe_bind.
  { apply truncated_Add; [|done]. cbn. intros v Hv.
    rewrite elem_of_app, list_elem_of_singleton in Hv.
    destruct Hv as [Hv| ->]; [|done].
    by eapply Forall_forall in Hvs. }
  clear e HI. intros _ e HI _.
  eapply safe_bind; [by apply truncated_getitem_rest|].
  clear e HI. intros r e HI Hr.
  apply truncated_Add; [|done]. cbn. intros v Hv.
  by apply vars_of_var_eq in Hv as [-> | ->].
Qed.

End truncation.

(** C3. Whatever the dictionaries, the roster, the horizon, the weekday
    names, the shift index and the block length, and whether it returns
    or raises, [assign_consecutive_shifts] run over the days of the
    horizon subscripts [shifts] and [rest_days] only with days below
    [num_days], and every variable of a constraint it adds is one of
    its block indicators or the variable of a key with a day below
    [num_days]: nothing is read or constrained beyond the horizon. *)
Theorem assign_consecutive_shifts_truncation
    (shifts : gmap (Z * Z * Z) nat) (rest_days : gmap (Z * Z) nat)
    nurses daily_shifts start_day num_days start_shift_day shift_index
    num_consecutive e :
  let e' := (assign_consecutive_shifts shifts nurses rest_days
               (range 0 num_days) daily_shifts start_day num_days
               start_shift_day shift_index num_consecutive e).2 in
  (∃ new, reads e' = reads e ++ new ∧
          Forall (λ k, key_day k < num_days) new) ∧
  (∃ added, constraints (cp e') = constraints (cp e) ++ added ∧
     ∀ c v, c ∈ added → v ∈ constraint_vars c →
       in_horizon_var shifts rest_days num_days
         (length (variables (cp e))) v).
Proof.
  pose proof (truncated_assign_consecutive_shifts shifts rest_days num_days e
                nurses daily_shifts start_day start_shift_day shift_index
                num_consecutive e (truncated_refl _ _ _ _)) as H.
  unfold safe, wp in H. cbn zeta.
  destruct (assign_consecutive_shifts _ _ _ _ _ _ _ _ _ _ e) as [[[]|x] e'];
    cbn; [destruct H as [H _]|]; destruct H as (Hr & _ & Hc); by split.
Qed.

(** ** Construction of the variable universe *)

Lemma length_bind_const {A B} (f : A → list B) (l : list A) (c : nat) :
  (∀ x, length (f x) = c) → length (l ≫= f) = (length l * c)%nat.
Proof.
  intros Hf. induction l as [|x l IH]; [done|].
  rewrite bind_cons, length_app, Hf, IH. cbn. lia.
Qed.

Lemma length_shift_keys_of nurses all_days daily_shifts :
  length (shift_keys_of nurses all_days daily_shifts) =
  (length nurses * length all_days * length daily_shifts)%nat.
Proof.
  unfold shift_keys_of.
  rewrite (length_bind_const _ _ (length all_days * length daily_shifts)).
  - unfold col_Nurse. rewrite length_fmap. lia.
  - intros n. rewrite (length_bind_const _ _ (length daily_shifts)); [done|].
    intros d. rewrite (length_bind_const _ _ 1).
    + unfold shift_keys. rewrite length_fmap. lia.
    + done.
Qed.

Lemma length_rest_keys_of nurses all_days :
  length (rest_keys_of nurses all_days) =
  (length nurses * length all_days)%nat.
Proof.
  unfold rest_keys_of. rewrite (length_bind_const _ _ (length all_days)).
  - unfold col_Nurse. by rewrite length_fmap.
  - intros n. rewrite (length_bind_const _ _ 1); [lia|done].
Qed.

Lemma NoDup_shift_keys_of nurses all_days daily_shifts :
  NoDup (col_Nurse nurses) → NoDup all_days →
  NoDup (shift_keys daily_shifts) →
  NoDup (shift_keys_of nurses all_days daily_shifts).
Proof.
  intros Hn Hd Hs. unfold shift_keys_of.
  apply NoDup_bind; [| |done].
  - intros n1 n2 k _ _ H1 H2.
    apply list_elem_of_bind in H1 as (d1 & H1 & _).
    apply list_elem_of_bind in H1 as (s1 & H1 & _).
    apply list_elem_of_bind in H2 as (d2 & H2 & _).
    apply list_elem_of_bind in H2 as (s2 & H2 & _).
    apply list_elem_of_singleton in H1, H2. congruence.
  - intros n _. apply NoDup_bind; [| |done].
    + intros d1 d2 k _ _ H1 H2.
      apply list_elem_of_bind in H1 as (s1 & H1 & _).
      apply list_elem_of_bind in H2 as (s2 & H2 & _).
      apply list_elem_of_singleton in H1, H2. congruence.
    + intros d _. apply NoDup_bind; [| |done].
      * intros s1 s2 k _ _ H1 H2.
        apply list_elem_of_singleton in H1, H2. congruence.
      * intros s _. apply NoDup_singleton.
Qed.

Lemma NoDup_rest_keys_of nurses all_days :
  NoDup (col_Nurse nurses) → NoDup all_days →
  NoDup (rest_keys_of nurses all_days).
Proof.
  intros Hn Hd. unfold rest_keys_of.
  apply NoDup_bind; [| |done].
  - intros n1 n2 k _ _ H1 H2.
    apply list_elem_of_bind in H1 as (d1 & H1 & _).
    apply list_elem_of_bind in H2 as (d2 & H2 & _).
    apply list_elem_of_singleton in H1, H2. congruence.
  - intros n _. apply NoDup_bind; [| |done].
    + intros d1 d2 k _ _ H1 H2.
      apply list_elem_of_singleton in H1, H2. congruence.
    + intros d _. apply NoDup_singleton.
Qed.

Lemma built_shift_index nurses all_days daily_shifts sh rs k (v : nat) :
  built nurses all_days daily_shifts sh rs →
  sh !! k = Some v →
  shift_keys_of nurses all_days daily_shifts !! v = Some k.
Proof.
  intros (Hin & Hout & _) Hk.
  destruct (decide (k ∈ shift_keys_of nurses all_days daily_shifts))
    as [Hk'|Hk'].
  - destruct (Hin k Hk') as (i & Hi & Hv). congruence.
  - rewrite (Hout k Hk') in Hk. discriminate.
Qed.

Lemma built_rest_index nurses all_days daily_shifts sh rs k (v : nat) :
  built nurses all_days daily_shifts sh rs →
  rs !! k = Some v →
  ∃ i : nat,
    v = (length (shift_keys_of nurses all_days daily_shifts) + i)%nat ∧
    rest_keys_of nurses all_days !! i = Some k.
Proof.
  intros (_ & _ & Hin & Hout & _) Hk.
  destruct (decide (k ∈ rest_keys_of nurses all_days)) as [Hk'|Hk'].
  - destruct (Hin k Hk') as (i & Hi & Hv). exists i. split; [congruence|done].
  - rewrite (Hout k Hk') in Hk. discriminate.
Qed.

Lemma built_disjoint nurses all_days daily_shifts sh rs k k' (v : nat) :
  built nurses all_days daily_shifts sh rs →
  sh !! k = Some v → rs !! k' = Some v → False.
Proof.
  intros Hb Hk Hk'.
  apply (built_shift_index _ _ _ _ _ _ _ Hb), lookup_lt_Some in Hk.
  apply (built_rest_index _ _ _ _ _ _ _ Hb) in Hk' as (i & -> & _). lia.
Qed.

Lemma post_init_model nurses daily_shifts num_days start_day self :
  Scheduler.post_init nurses daily_shifts num_days start_day = Ok self →
  Scheduler.model self =
    mkCpModel
      (((λ k, shift_name k.1.1 k.1.2 k.2)
          <$> shift_keys_of nurses (range 0 num_days) daily_shifts) ++
       ((λ k, rest_name k.1 k.2)
          <$> rest_keys_of nurses (range 0 num_days))) [] ∧
  Scheduler.solution self = None ∧
  Scheduler.assigned_rests self = None.
Proof.
  unfold Scheduler.post_init.
  destruct (new_variables_spec nurses (range 0 num_days) daily_shifts)
    as (sh & rs & Heq & Hb).
  rewrite Heq. intros [= <-]. by cbn.
Qed.

(** C7, as the code has it. Construction never fails, whatever the
    roster, the shift-type mapping and the horizon; it adds no
    constraint and creates [|nurses| * |days| * |shifts|] shift
    variables followed by [|nurses| * |days|] rest variables, where
    [|days|] is the horizon, or 0 for a negative one. Every key
    [(nurse, day, shift)] and [(nurse, day)] of the roster, the horizon
    and the mapping addresses a variable carrying its name, distinct
    keys address distinct variables and no shift variable is a rest
    variable. With pairwise distinct nurse identifiers the two
    dictionaries hold exactly that many entries. *)
Theorem post_init_universe nurses daily_shifts num_days start_day :
  ∃ self,
    Scheduler.post_init nurses daily_shifts num_days start_day = Ok self ∧
    constraints (Scheduler.model self) = [] ∧
    Scheduler.solution self = None ∧
    Scheduler.assigned_rests self = None ∧
    length (variables (Scheduler.model self)) =
      (length nurses * Z.to_nat num_days * length daily_shifts +
       length nurses * Z.to_nat num_days)%nat ∧
    (∀ n d s, n ∈ col_Nurse nurses → 0 ≤ d < num_days →
              s ∈ shift_keys daily_shifts →
       ∃ v : nat, Scheduler.shifts self !! (n, d, s) = Some v ∧
         variables (Scheduler.model self) !! v = Some (shift_name n d s)) ∧
    (∀ n d, n ∈ col_Nurse nurses → 0 ≤ d < num_days →
       ∃ v : nat, Scheduler.rest_days self !! (n, d) = Some v ∧
         variables (Scheduler.model self) !! v = Some (rest_name n d)) ∧
    (∀ k k' (v : nat), Scheduler.shifts self !! k = Some v →
                       Scheduler.shifts self !! k' = Some v → k = k') ∧
    (∀ k k' (v : nat), Scheduler.rest_days self !! k = Some v →
                       Scheduler.rest_days self !! k' = Some v → k = k') ∧
    (∀ k k' (v : nat), Scheduler.shifts self !! k = Some v →
                       Scheduler.rest_days self !! k' = Some v → False) ∧
    (NoDup (col_Nurse nurses) → NoDup (shift_keys daily_shifts) →
       size (Scheduler.shifts self) =
         (length nurses * Z.to_nat num_days * length daily_shifts)%nat ∧
       size (Scheduler.rest_days self) =
         (length nurses * Z.to_nat num_days)%nat).
Proof.
  destruct (post_init_Ok nurses daily_shifts num_days start_day)
    as [self Hself].
  destruct (post_init_built _ _ _ _ _ Hself)
    as (_ & _ & _ & _ & _ & _ & Hb).
  destruct (post_init_model _ _ _ _ _ Hself) as (Hm & Hsol & Hrests).
  assert (Hlen : length (range 0 num_days) = Z.to_nat num_days).
  { rewrite length_range. f_equal. lia. }
  exists self. split; [done|]. rewrite Hm. cbn [variables constraints].
  split; [done|]. split; [done|]. split; [done|]. split.
  { rewrite length_app, !length_fmap, length_shift_keys_of,
      length_rest_keys_of, Hlen. done. }
  split.
  { intros n d s Hn Hd Hs. destruct Hb as (Hin & _).
    destruct (Hin (n, d, s)) as (i & Hi & Hv).
    { apply elem_of_shift_keys_of. by rewrite elem_of_range. }
    exists i. split; [done|].
    rewrite lookup_app_l by (rewrite length_fmap; by eapply lookup_lt_Some).
    by rewrite list_lookup_fmap, Hi. }
  split.
  { intros n d Hn Hd. destruct Hb as (_ & _ & Hin & _).
    destruct (Hin (n, d)) as (i & Hi & Hv).
    { apply elem_of_rest_keys_of. by rewrite elem_of_range. }
    eexists. split; [exact Hv|].
    rewrite lookup_app_r by (rewrite length_fmap; lia).
    rewrite length_fmap, list_lookup_fmap.
    replace (_ + i - _)%nat with i by lia. by rewrite Hi. }
  split.
  { intros k k' v Hk Hk'.
    apply (built_shift_index _ _ _ _ _ _ _ Hb) in Hk, Hk'. congruence. }
  split.
  { intros k k' v Hk Hk'.
    apply (built_rest_index _ _ _ _ _ _ _ Hb) in Hk as (i & -> & Hi).
    apply (built_rest_index _ _ _ _ _ _ _ Hb) in Hk' as (i' & Heq & Hi').
    assert (i' = i) as -> by lia. congruence. }
  split; [intros k k' v; by apply (built_disjoint _ _ _ _ _ _ _ _ Hb)|].
  intros Hn Hs. destruct Hb as (_ & _ & _ & _ & Hdom1 & Hdom2).
  rewrite <- !size_dom, Hdom1, Hdom2.
  rewrite !size_list_to_set.
  - by rewrite length_shift_keys_of, length_rest_keys_of, Hlen.
  - apply NoDup_rest_keys_of; [done|apply NoDup_range].
  - apply NoDup_shift_keys_of; [done|apply NoDup_range|done].
Qed.

(** The claim fails where it asks for a failure: each of the three
    inputs is accepted on its own. An empty roster and a horizon of
    zero or fewer days give a scheduler with no variable at all; an
    empty shift mapping gives one without shift variables that still
    has the rest variable of every nurse and day, 21 of them for three
    nurses and a week. *)
Lemma post_init_empty_inputs_accepted :
  Scheduler.post_init [] demo_shifts 7 "Monday" =
    Ok (Scheduler.mkModel [] demo_shifts 7 "Monday" (range 0 7) 0
          empty_model ∅ ∅ None None) ∧
  Scheduler.post_init demo_nurses demo_shifts 0 "Monday" =
    Ok (Scheduler.mkModel demo_nurses demo_shifts 0 "Monday" [] 3
          empty_model ∅ ∅ None None) ∧
  Scheduler.post_init demo_nurses demo_shifts (-2) "Monday" =
    Ok (Scheduler.mkModel demo_nurses demo_shifts (-2) "Monday" [] 3
          empty_model ∅ ∅ None None) ∧
  match Scheduler.post_init demo_nurses [] 7 "Monday" with
  | Ok self =>
      Scheduler.shifts self = ∅ ∧
      constraints (Scheduler.model self) = [] ∧
      variables (Scheduler.model self) =
        (d ← range 0 7; [rest_name 1 d]) ++ (d ← range 0 7; [rest_name 2 d])
        ++ (d ← range 0 7; [rest_name 3 d]) ∧
      length (variables (Scheduler.model self)) = 21%nat ∧
      size (Scheduler.rest_days self) = 21%nat
  | Raise _ => False
  end.
Proof.
  split; [vm_compute; reflexivity|].
  split; [vm_compute; reflexivity|].
  split; [vm_compute; reflexivity|].
  vm_compute. repeat split.
Qed.

(** ** solve *)

Lemma elem_of_rota_dict (solver : CpSolver) (shifts : gmap (Z * Z * Z) nat) k :
  k ∈ rota_dict solver shifts ↔ is_assigned (values solver) shifts k = true.
Proof.
  unfold rota_dict, is_assigned. rewrite list_elem_of_fmap. split.
  - intros ([k' v] & -> & H). apply list_elem_of_filter in H as [Hv H].
    apply elem_of_map_to_list in H. cbn in *. rewrite H.
    unfold Value in Hv. by destruct (values solver v).
  - destruct (shifts !! k) as [v|] eqn:Hk; [|done]. intros Hv.
    exists (k, v). split; [done|]. apply list_elem_of_filter. split.
    + cbn. unfold Value. by rewrite Hv.
    + by apply elem_of_map_to_list.
Qed.

Lemma elem_of_rests_dict (solver : CpSolver) (rest_days : gmap (Z * Z) nat) k :
  k ∈ rests_dict solver rest_days ↔
  is_assigned (values solver) rest_days k = true.
Proof.
  unfold rests_dict, is_assigned. rewrite list_elem_of_fmap. split.
  - intros ([k' v] & -> & H). apply list_elem_of_filter in H as [Hv H].
    apply elem_of_map_to_list in H. cbn in *. rewrite H.
    unfold Value in Hv. by destruct (values solver v).
  - destruct (rest_days !! k) as [v|] eqn:Hk; [|done]. intros Hv.
    exists (k, v). split; [done|]. apply list_elem_of_filter. split.
    + cbn. unfold Value. by rewrite Hv.
    + by apply elem_of_map_to_list.
Qed.

Lemma weekend_column_Ok start_day rs :
  start_day ∈ days_of_week →
  ∃ col, weekend_column start_day rs = Ok col ∧ length col = length rs.
Proof.
  intros Hs. induction rs as [|[[n d] s] rs (col & IH & Hlen)].
  - by exists [].
  - destruct (proj2 (what_day_Ok_iff d start_day) Hs) as [wd Hwd].
    exists (wd.2 :: col). cbn. rewrite Hwd. cbn. rewrite IH. cbn.
    split; [done|]. by rewrite Hlen.
Qed.

(** C4, as the code has it. Both [solve] methods test for [OPTIMAL]
    alone. With that status (a canonical starting weekday and, in
    scheduler.py, a roster export that does not raise) they return
    normally, [solution] holds exactly the keys whose shift variable
    the solver set to 1 and [assigned_rests] exactly the keys whose
    rest variable it set to 1. With every other status, [FEASIBLE]
    included, they raise [SystemExit] and leave the scheduler as it
    was, so that a scheduler without solution and rest days stays
    without them. *)
Theorem solve_outcomes (solver : CpSolver) :
  (∀ export_rota self,
     status solver = OPTIMAL →
     Scheduler.start_day self ∈ days_of_week →
     export_rota (rota_dict solver (Scheduler.shifts self)) = Ok () →
     ∃ col,
       Scheduler.solve solver export_rota self =
         (Ok (),
          Scheduler.with_solution
            (Scheduler.with_assigned_rests self
               (Some (rests_dict solver (Scheduler.rest_days self))))
            (Some (mkFrame (rota_dict solver (Scheduler.shifts self))
                           (Some col))))) ∧
  (∀ self,
     status solver = OPTIMAL →
     Basis.start_day self ∈ days_of_week →
     ∃ col,
       Basis.solve solver self =
         (Ok (),
          Basis.with_solution
            (Basis.with_assigned_rests self
               (Some (rests_dict solver (Basis.rest_days self))))
            (Some (mkFrame (rota_dict solver (Basis.shifts self))
                           (Some col))))) ∧
  (∀ (shifts : gmap (Z * Z * Z) nat) k,
     k ∈ rota_dict solver shifts ↔
     is_assigned (values solver) shifts k = true) ∧
  (∀ (rest_days : gmap (Z * Z) nat) k,
     k ∈ rests_dict solver rest_days ↔
     is_assigned (values solver) rest_days k = true) ∧
  (∀ export_rota self,
     status solver ≠ OPTIMAL →
     Scheduler.solve solver export_rota self = (Raise SystemExit, self)) ∧
  (∀ self,
     status solver ≠ OPTIMAL →
     Basis.solve solver self = (Raise SystemExit, self)).
Proof.
  split.
  { intros export_rota self Hst Hstart Hexp. unfold Scheduler.solve.
    rewrite decide_True by done. rewrite Hexp.
    destruct (weekend_column_Ok (Scheduler.start_day self)
                (rota_dict solver (Scheduler.shifts self)) Hstart)
      as (col & Hcol & _).
    exists col. cbn. by rewrite Hcol. }
  split.
  { intros self Hst Hstart. unfold Basis.solve.
    rewrite decide_True by done.
    destruct (weekend_column_Ok (Basis.start_day self)
                (rota_dict solver (Basis.shifts self)) Hstart)
      as (col & Hcol & _).
    exists col. cbn. by rewrite Hcol. }
  split; [apply elem_of_rota_dict|]. split; [apply elem_of_rests_dict|].
  split.
  - intros export_rota self Hst. unfold Scheduler.solve.
    by rewrite decide_False.
  - intros self Hst. unfold Basis.solve. by rewrite decide_False.
Qed.

(** The claim fails for [FEASIBLE]: a solver that stops with a feasible
    roster in hand makes [solve] exit, and neither the solution nor
    the rest days are extracted. *)
Lemma solve_FEASIBLE_exits :
  match Scheduler.post_init demo_nurses demo_shifts 7 "Monday" with
  | Ok self =>
      Scheduler.solve (mkSolver FEASIBLE (λ _, true)) (λ _, Ok ()) self
        = (Raise SystemExit, self) ∧
      Scheduler.solution self = None ∧
      Scheduler.assigned_rests self = None
  | Raise _ => False
  end ∧
  match Basis.post_init demo_nurses demo_shifts 7 "Monday" with
  | Ok self =>
      Basis.solve (mkSolver FEASIBLE (λ _, true)) self
        = (Raise SystemExit, self) ∧
      Basis.solution self = None ∧
      Basis.assigned_rests self = None
  | Raise _ => False
  end.
Proof.
  split.
  - destruct (post_init_Ok demo_nurses demo_shifts 7 "Monday") as [self Hself].
    rewrite Hself. split; [reflexivity|].
    destruct (post_init_model _ _ _ _ _ Hself) as (_ & Hsol & Hrests).
    by split.
  - destruct (Basis_post_init_Ok demo_nurses demo_shifts 7 "Monday")
      as (self & Hself & _ & _ & Hsol & Hrests & _).
    rewrite Hself. split; [reflexivity|]. by split.
Qed.

(** ** The registry of rules *)

Section registry.
Context {V : Type}.
Implicit Types (d : list (string * V)) (k : string) (v : V).










End registry.

Lemma register_all_registry regs self :
  Basis.applied_constraints (register_all regs self) =
  foldl (λ acc r, Basis.dict_set r.1 r.2 acc)
        (Basis.applied_constraints self) regs.
Proof.
  unfold register_all.
  revert self. induction regs as [|[k [f p]] regs IH]; intros self; [done|].
  exact (IH (Basis.add_constraints k f p self)).
Qed.

Lemma register_all_fields regs self :
  Basis.model (register_all regs self) = Basis.model self ∧
  Basis.shifts (register_all regs self) = Basis.shifts self ∧
  Basis.nurses (register_all regs self) = Basis.nurses self ∧
  Basis.all_days (register_all regs self) = Basis.all_days self ∧
  Basis.daily_shifts (register_all regs self) = Basis.daily_shifts self.
Proof.
  unfold register_all.
  revert self. induction regs as [|[k [f p]] regs IH]; intros self; [done|].
  exact (IH (Basis.add_constraints k f p self)).
Qed.




Lemma dict_get_lookup {V} (d : list (string * V)) (i : nat) k v :
  NoDup (Basis.dict_keys d) → d !! i = Some (k, v) →
  Basis.dict_get k d = Some v.
Proof.
  revert i. induction d as [|[k' v'] d IH]; intros i Hnd Hi; [done|].
  cbn in Hnd. apply NoDup_cons in Hnd as [Hk' Hnd]. cbn.
  destruct i as [|i]; cbn in Hi.
  - injection Hi as -> ->. by rewrite decide_True.
  - rewrite decide_False; [by eapply IH|]. intros ->.
    apply Hk'. apply list_elem_of_fmap. exists (k, v).
    split; [done|]. by eapply list_elem_of_lookup_2.
Qed.





(** Re-registering a description keeps its place: of the rules
    registered as A, B, A again, the third runs first and the first
    never. *)
Example reregistration_keeps_place :
  match Basis.post_init [] [] 0 "Monday" with
  | Ok self =>
      let r := Basis.apply_constraints
                 (register_all [("A", (mark 1, [])); ("B", (mark 2, []));
                                ("A", (mark 3, []))]%string self) in
      r.1 = Ok () ∧
      constraints (Basis.model r.2) = [ExactlyOne [3%nat]; ExactlyOne [2%nat]]
  | Raise _ => False
  end.
Proof. vm_compute. by split. Qed.

(** main.py registers [single_nurse_per_shift] a second time with the
    keywords of the block rule: applying the registry adds the
    constraints of the first two rules and then fails on the call. *)
Example main_py_apply_constraints :
  match Basis.post_init demo_nurses ed_shifts 2 "Monday" with
  | Ok self =>
      let r := Basis.apply_constraints (register_all main_registrations self) in
      r.1 = Raise TypeError ∧
      length (constraints (Basis.model r.2)) = 12%nat
  | Raise _ => False
  end.
Proof. vm_compute. by split. Qed.

(** ** Rest-day variables that no rule constrains *)

Lemma sum_values_override (a : assignment) (rv : nat) (b : bool) vs :
  rv ∉ vs → sum_values (override a rv b) vs = sum_values a vs.
Proof.
  induction vs as [|v vs IH]; [done|]. intros Hrv.
  apply not_elem_of_cons in Hrv as [Hne Hrv].
  rewrite !sum_values_cons, IH by done. f_equal.
  unfold Value, override. by rewrite decide_False.
Qed.

Lemma forallb_override (a : assignment) (rv : nat) (b : bool) vs :
  rv ∉ vs → forallb (override a rv b) vs = forallb a vs.
Proof.
  induction vs as [|v vs IH]; [done|]. intros Hrv.
  apply not_elem_of_cons in Hrv as [Hne Hrv].
  cbn. rewrite IH by done. unfold override. by rewrite decide_False.
Qed.

Lemma existsb_override (a : assignment) (rv : nat) (b : bool) vs :
  rv ∉ vs → existsb (override a rv b) vs = existsb a vs.
Proof.
  induction vs as [|v vs IH]; [done|]. intros Hrv.
  apply not_elem_of_cons in Hrv as [Hne Hrv].
  cbn. rewrite IH by done. unfold override. by rewrite decide_False.
Qed.

Lemma eval_override (a : assignment) (rv : nat) (b : bool) ex :
  rv ∉ expr_vars ex → eval (override a rv b) ex = eval a ex.
Proof.
  destruct ex as [v|k|vs]; cbn; intros Hrv.
  - apply not_elem_of_cons in Hrv as [Hne _].
    unfold Value, override. by rewrite decide_False.
  - done.
  - by apply sum_values_override.
Qed.

Lemma holds_override (a : assignment) (rv : nat) (b : bool) c :
  rv ∉ constraint_vars c → holds (override a rv b) c = holds a c.
Proof.
  destruct c as [lhs op rhs enforce|vs|vs|t vs]; cbn; intros Hrv.
  - rewrite !not_elem_of_app in Hrv. destruct Hrv as (H1 & H2 & H3).
    by rewrite forallb_override, !eval_override.
  - by rewrite sum_values_override.
  - by rewrite sum_values_override.
  - apply not_elem_of_cons in Hrv as [Hne Hrv].
    rewrite existsb_override by done.
    assert (override a rv b t = a t) as ->; [|done].
    unfold override. by destruct (decide (t = rv)) as [->|_].
Qed.

Lemma satisfies_override (a : assignment) (rv : nat) (b : bool) m :
  ¬ mentions rv m →
  satisfies (override a rv b) m = satisfies a m.
Proof.
  unfold mentions, satisfies. intros Hrv.
  induction (constraints m) as [|c cs IH]; [done|]. cbn.
  rewrite holds_override, IH; [done| |].
  - intros (c' & Hc' & Hv). apply Hrv. exists c'. split; [by right|done].
  - intros Hv. apply Hrv. exists c. split; [left|done].
Qed.

Lemma Forall_ne_not_elem_of (rv : nat) (vs : list nat) :
  Forall (λ v, v ≠ rv) vs → rv ∉ vs.
Proof. intros H Hrv. by eapply Forall_forall in H. Qed.

Section unmentioned.
Variable shifts : gmap (Z * Z * Z) nat.
Variable rv : nat.
Hypothesis Hshifts : ∀ k v, shifts !! k = Some v → v ≠ rv.

Local Abbreviation Inv := (unmentioned rv).
Local Abbreviation clean := (λ v : nat, v ≠ rv).

Lemma unm_getitem_shifts k e :
  Inv e → safe Inv clean (getitem_shifts shifts k) e.
Proof.
  intros HI. unfold safe, wp, getitem_shifts. cbn.
  destruct (shifts !! k) as [v|] eqn:Hk; [|done]. split; [done|]. eauto.
Qed.

Lemma unm_lookups ks e :
  Inv e → safe Inv (Forall clean) (mapM (getitem_shifts shifts) ks) e.
Proof.
  intros HI. apply safe_mapM; [done|].
  intros k e1 _. apply unm_getitem_shifts.
Qed.

Lemma unm_shift_vars n ds ss e :
  Inv e → safe Inv (Forall clean) (shift_vars shifts n ds ss) e.
Proof. apply unm_lookups. Qed.

Lemma unm_NewBoolVar name e :
  Inv e → safe Inv clean (NewBoolVar name) e.
Proof.
  intros [Hlt Hcs]. unfold safe, wp, NewBoolVar. cbn. split; [|lia].
  split; [|done]. cbn. rewrite length_app. lia.
Qed.

Lemma unm_Add c e :
  rv ∉ constraint_vars c → Inv e → safe Inv (λ _, True) (Add c) e.
Proof.
  intros Hc [Hlt Hcs]. unfold safe, wp, Add. cbn. split; [|done].
  split; [done|]. cbn. intros c' Hc'.
  apply elem_of_app in Hc' as [Hc'|Hc']; [eauto|].
  by apply list_elem_of_singleton in Hc' as ->.
Qed.

Lemma unm_sum vs op k e :
  Forall clean vs → Inv e →
  safe Inv (λ _, True) (Add (Linear (LSum vs) op (LInt k) [])) e.
Proof.
  intros Hvs. apply unm_Add. cbn. rewrite !app_nil_r.
  by apply Forall_ne_not_elem_of.
Qed.

Lemma unm_lift {A} (o : outcome A) e :
  Inv e → safe Inv (λ _, True) (lift o) e.
Proof. intros HI. by apply safe_lift. Qed.

Lemma unm_limit_shifts_per_period nurses days daily_shifts
    period_length shift_limit e :
  Inv e →
  safe Inv (λ _, True)
    (limit_shifts_per_period shifts nurses days daily_shifts
       period_length shift_limit) e.
Proof.
  intros HI. unfold limit_shifts_per_period.
  eapply safe_bind; [by apply unm_lift|].
  clear e HI. intros periods e HI _.
  apply safe_for_each; [done|]. clear e HI. intros period e _ HI.
  apply safe_for_each; [done|]. clear e HI. intros n e _ HI.
  eapply safe_bind; [by apply unm_shift_vars|].
  clear e HI. intros vs e HI Hvs. by apply unm_sum.
Qed.

Lemma unm_single_nurse_per_shift nurses days daily_shifts e :
  Inv e →
  safe Inv (λ _, True)
    (single_nurse_per_shift shifts nurses days daily_shifts) e.
Proof.
  intros HI. unfold single_nurse_per_shift.
  apply safe_for_each; [done|]. clear e HI. intros d e _ HI.
  apply safe_for_each; [done|]. clear e HI. intros s e _ HI.
  eapply safe_bind; [by apply unm_lookups|].
  clear e HI. intros vs e HI Hvs.
  apply unm_Add; [|done]. by apply Forall_ne_not_elem_of.
Qed.

Lemma unm_limit_nurse_per_team_per_day nurses days daily_shifts
    nurse_limit e :
  Inv e →
  safe Inv (λ _, True)
    (limit_nurse_per_team_per_day shifts nurses days daily_shifts
       nurse_limit) e.
Proof.
  intros HI. unfold limit_nurse_per_team_per_day.
  apply safe_for_each; [done|]. clear e HI. intros d e _ HI.
  apply safe_for_each; [done|]. clear e HI. intros [team group] e _ HI.
  eapply safe_bind; [by apply unm_lookups|].
  clear e HI. intros vs e HI Hvs. by apply unm_sum.
Qed.

Lemma unm_distribute_shifts_evenly nurses days daily_shifts
    num_nurses tolerance e :
  Inv e →
  safe Inv (λ _, True)
    (distribute_shifts_evenly shifts nurses days daily_shifts
       num_nurses tolerance) e.
Proof.
  intros HI. unfold distribute_shifts_evenly.
  eapply safe_bind; [by apply unm_lift|].
  clear e HI. intros lo e HI _.
  eapply safe_bind; [by apply unm_lift|].
  clear e HI. intros r e HI _.
  apply safe_for_each; [done|]. clear e HI. intros n e _ HI.
  eapply safe_bind; [by apply unm_shift_vars|].
  clear e HI. intros vs e HI Hvs.
  eapply safe_bind; [by apply unm_sum|].
  clear e HI. intros _ e HI _. by apply unm_sum.
Qed.

Lemma unm_max_shifts_per_week nurses days daily_shifts num_days
    shift_limit e :
  Inv e →
  safe Inv (λ _, True)
    (max_shifts_per_week shifts nurses days daily_shifts num_days
       shift_limit) e.
Proof.
  intros HI. unfold max_shifts_per_week.
  eapply safe_bind; [by apply unm_lift|].
  clear e HI. intros weeks e HI _.
  apply safe_for_each; [done|]. clear e HI. intros week_start e _ HI.
  apply safe_for_each; [done|]. clear e HI. intros n e _ HI.
  eapply safe_bind; [by apply unm_shift_vars|].
  clear e HI. intros vs e HI Hvs. by apply unm_sum.
Qed.

Lemma unm_limit_consecutive_shifts nurses days num_days limited_shifts
    num_consecutive e :
  Inv e →
  safe Inv (λ _, True)
    (limit_consecutive_shifts shifts nurses days num_days limited_shifts
       num_consecutive) e.
Proof.
  intros HI. unfold limit_consecutive_shifts.
  apply safe_for_each; [done|]. clear e HI. intros d e _ HI.
  apply safe_for_each; [done|]. clear e HI. intros n e _ HI.
  eapply safe_bind; [by apply unm_lookups|].
  clear e HI. intros vs e HI Hvs.
  apply unm_Add; [|done]. by apply Forall_ne_not_elem_of.
Qed.

Lemma unm_limit_shifts_after_shifts nurses days first_shifts limited_shifts
    num_consecutive allowed_num_shifts e :
  Inv e →
  safe Inv (λ _, True)
    (limit_shifts_after_shifts shifts nurses days first_shifts
       limited_shifts num_consecutive allowed_num_shifts) e.
Proof.
  intros HI. unfold limit_shifts_after_shifts.
  apply safe_for_each; [done|]. clear e HI. intros d e _ HI.
  apply safe_for_each; [done|]. clear e HI. intros n e _ HI.
  eapply safe_bind; [by apply unm_NewBoolVar|].
  clear e HI. intros w e HI Hw.
  eapply safe_bind; [by apply unm_lookups|].
  clear e HI. intros fs e HI Hfs.
  eapply safe_bind.
  { apply unm_Add; [|done]. cbn. apply not_elem_of_cons.
    split; [done|]. by apply Forall_ne_not_elem_of. }
  clear e HI. intros _ e HI _.
  eapply safe_bind; [by apply unm_lookups|].
  clear e HI. intros vs e HI Hvs.
  apply unm_Add; [|done]. cbn.
  rewrite elem_of_app, list_elem_of_singleton.
  intros [Hv| ->]; [|done]. by apply Forall_ne_not_elem_of in Hvs.
Qed.

Lemma unm_distribute_night_shifts_evenly nurses days num_nurses
    shift_index e :
  Inv e →
  safe Inv (λ _, True)
    (distribute_night_shifts_evenly shifts nurses days num_nurses
       shift_index) e.
Proof.
  intros HI. unfold distribute_night_shifts_evenly.
  eapply safe_bind; [by apply unm_lift|].
  clear e HI. intros bpn e HI _.
  eapply safe_bind; [by apply unm_lift|].
  clear e HI. intros r e HI _.
  apply safe_for_each; [done|]. clear e HI. intros n e _ HI.
  eapply safe_bind; [by apply unm_lookups|].
  clear e HI. intros vs e HI Hvs.
  eapply safe_bind; [by apply unm_sum|].
  clear e HI. intros _ e HI _. by apply unm_sum.
Qed.

End unmentioned.

Lemma elem_of_rest_targets start_day num_days start_shift_day
    num_consecutive d wd off :
  0 ≤ d < num_days →
  what_day d start_day = Ok wd →
  wd.1 = start_shift_day →
  0 ≤ off < 2 →
  d + num_consecutive + off
    ∈ rest_targets start_day num_days start_shift_day num_consecutive.
Proof.
  intros Hd Hwd Hname Hoff. unfold rest_targets.
  apply list_elem_of_bind. exists d. split; [|by apply elem_of_range].
  rewrite Hwd. destruct wd as [name flag]. cbn in Hname.
  rewrite decide_True by done.
  assert (off = 0 ∨ off = 1) as [-> | ->] by lia.
  - rewrite Z.add_0_r. left.
  - right. left.
Qed.

Section unmentioned_rest.
Variable shifts : gmap (Z * Z * Z) nat.
Variable rest_days : gmap (Z * Z) nat.
Variable rv : nat.
Variables n0 d0 : Z.
Hypothesis Hshifts : ∀ k v, shifts !! k = Some v → v ≠ rv.
Hypothesis Hrest : ∀ k, rest_days !! k = Some rv → k = (n0, d0).

Local Abbreviation Inv := (unmentioned rv).
Local Abbreviation clean := (λ v : nat, v ≠ rv).

Lemma unm_getitem_rest n d e :
  d ≠ d0 → Inv e → safe Inv clean (getitem_rest rest_days (n, d)) e.
Proof.
  intros Hd HI. unfold safe, wp, getitem_rest. cbn.
  destruct (rest_days !! (n, d)) as [v|] eqn:Hk; [|done]. split; [done|].
  intros ->. apply Hrest in Hk. congruence.
Qed.

Lemma unm_var_eq (u v : nat) e :
  clean u → clean v → Inv e →
  safe Inv (λ _, True) (Add (Linear (LVar u) Eq (LVar v) [])) e.
Proof.
  intros Hu Hv. apply unm_Add. intros H.
  apply vars_of_var_eq in H as [-> | ->]; done.
Qed.

Lemma unm_assign_consecutive_shifts nurses daily_shifts start_day num_days
    start_shift_day shift_index num_consecutive e :
  d0 ∉ rest_targets start_day num_days start_shift_day num_consecutive →
  Inv e →
  safe Inv (λ _, True)
    (assign_consecutive_shifts shifts nurses rest_days (range 0 num_days)
       daily_shifts start_day num_days start_shift_day shift_index
       num_consecutive) e.
Proof.
  intros Htarget HI. unfold assign_consecutive_shifts.
  apply safe_for_each; [done|]. clear e HI. intros d e Hd HI.
  apply elem_of_range in Hd.
  eapply safe_bind; [by apply (safe_lift _ (λ wd, what_day d start_day = Ok wd))|].
  clear e HI. intros wd e HI Hwd.
  apply safe_for_each; [done|]. clear e HI. intros n e _ HI.
  destruct (decide (wd.1 = start_shift_day)) as [Hname|_];
    [|by apply safe_ret].
  eapply safe_bind; [by apply unm_NewBoolVar|].
  clear e HI. intros w e HI Hw.
  eapply safe_bind; [by apply unm_getitem_shifts|].
  clear e HI. intros x0 e HI Hx0.
  eapply safe_bind; [by apply unm_var_eq|].
  clear e HI. intros _ e HI _.
  eapply safe_bind.
  { apply safe_for_each; [done|]. clear e HI. intros k e _ HI.
    destruct (decide (d + k < num_days)) as [_|_]; [|by apply safe_ret].
    eapply safe_bind; [by apply unm_getitem_shifts|].
    clear e HI. intros xk e HI Hxk.
    eapply safe_bind; [by apply unm_getitem_shifts|].
    clear e HI. intros x0' e HI Hx0'. by apply unm_var_eq. }
  clear e HI. intros _ e HI _.
  apply safe_for_each; [done|]. clear e HI. intros off e Hoff HI.
  apply elem_of_range in Hoff.
  destruct (decide (d + num_consecutive + off < num_days)) as [_|_];
    [|by apply safe_ret].
  eapply safe_bind; [by apply unm_lookups|].
  clear e HI. intros vs e HI Hvs.
  eapply safe_bind.
  { apply unm_Add; [|done]. cbn.
    rewrite elem_of_app, list_elem_of_singleton.
    intros [Hv| ->]; [|done]. by apply Forall_ne_not_elem_of in Hvs. }
  clear e HI. intros _ e HI _.
  eapply safe_bind.
  { apply unm_getitem_rest; [|done]. intros Heq. apply Htarget.
    rewrite <- Heq.
    by apply (elem_of_rest_targets _ _ _ _ d wd off). }
  clear e HI. intros r e HI Hr. by apply unm_var_eq.
Qed.

Lemma unm_add_constraints_body self e :
  Scheduler.shifts self = shifts →
  Scheduler.rest_days self = rest_days →
  Scheduler.all_days self = range 0 (Scheduler.num_days self) →
  d0 ∉ rest_targets (Scheduler.start_day self) (Scheduler.num_days self)
         "Monday" 3 →
  d0 ∉ rest_targets (Scheduler.start_day self) (Scheduler.num_days self)
         "Thursday" 4 →
  Inv e →
  safe Inv (λ _, True) (Scheduler.add_constraints_body self) e.
Proof.
  intros Hs Hr Hdays Hmon Hthu HI. unfold Scheduler.add_constraints_body.
  rewrite Hs, Hr, Hdays.
  eapply safe_bind; [by apply unm_limit_shifts_per_period|].
  clear e HI. intros _ e HI _.
  eapply safe_bind; [by apply unm_single_nurse_per_shift|].
  clear e HI. intros _ e HI _.
  eapply safe_bind; [by apply unm_assign_consecutive_shifts|].
  clear e HI. intros _ e HI _.
  eapply safe_bind; [by apply unm_assign_consecutive_shifts|].
  clear e HI. intros _ e HI _.
  eapply safe_bind; [by apply unm_distribute_shifts_evenly|].
  clear e HI. intros _ e HI _.
  eapply safe_bind; [by apply unm_distribute_night_shifts_evenly|].
  clear e HI. intros _ e HI _.
  eapply safe_bind; [by apply unm_distribute_shifts_evenly|].
  clear e HI. intros _ e HI _.
  eapply safe_bind; [by apply unm_lift|].
  clear e HI. intros weekend_days e HI _.
  eapply safe_bind; [by apply unm_distribute_shifts_evenly|].
  clear e HI. intros _ e HI _.
  eapply safe_bind; [by apply unm_lift|].
  clear e HI. intros weekday_days e HI _.
  eapply safe_bind; [by apply unm_distribute_shifts_evenly|].
  clear e HI. intros _ e HI _.
  eapply safe_bind; [by apply unm_limit_consecutive_shifts|].
  clear e HI. intros _ e HI _.
  eapply safe_bind; [by apply unm_limit_shifts_per_period|].
  clear e HI. intros _ e HI _.
  eapply safe_bind; [by apply unm_limit_shifts_after_shifts|].
  clear e HI. intros _ e HI _.
  by apply unm_limit_nurse_per_team_per_day.
Qed.

End unmentioned_rest.

Lemma safe_leaves_alone rv (m : M unit) :
  (∀ e, unmentioned rv e → safe (unmentioned rv) (λ _, True) m e) →
  leaves_alone rv m.
Proof.
  intros H e HI. specialize (H e HI). unfold safe, wp in H.
  destruct (m e) as [[[]|x] e']; cbn; [by destruct H|done].
Qed.

(** C10. Take a freshly constructed scheduler, a nurse [n] of its roster
    and a day [d] of its horizon that is not one of the two days after
    a Monday block of three or after a Thursday block of four. The
    rest-day variable [r[n, d]] exists, and: (1) none of the eight
    rules that are not given [rest_days] ever mentions it, and
    [assign_consecutive_shifts] mentions it only for the two days after
    one of its blocks; (2) after [add_constraints] of scheduler.py,
    whether or not that ran to its end, no constraint of the model
    mentions it; (3) so every satisfying assignment stays satisfying
    when [r[n, d]] is set to 1, whatever the nurse works that day;
    (4) and when the solver returns such an assignment as optimal,
    [solve] (the starting weekday being one of the seven and the
    export of the rota table not raising) returns and lists [(n, d)]
    among the assigned rest days, as does any [solve] that returns. *)
Theorem rest_day_unconstrained
    nurses daily_shifts num_days start_day self n d :
  Scheduler.post_init nurses daily_shifts num_days start_day = Ok self →
  n ∈ col_Nurse nurses →
  0 ≤ d < num_days →
  d ∉ rest_targets start_day num_days "Monday" 3 →
  d ∉ rest_targets start_day num_days "Thursday" 4 →
  ∃ rv : nat,
    Scheduler.rest_days self !! (n, d) = Some rv ∧
    variables (Scheduler.model self) !! rv = Some (rest_name n d) ∧
    unmentioned rv (mkEnv (Scheduler.model self) []) ∧
    (let sh := Scheduler.shifts self in
     (∀ ns days ds period_length shift_limit,
        leaves_alone rv
          (limit_shifts_per_period sh ns days ds period_length shift_limit)) ∧
     (∀ ns days ds, leaves_alone rv (single_nurse_per_shift sh ns days ds)) ∧
     (∀ ns days ds nurse_limit,
        leaves_alone rv
          (limit_nurse_per_team_per_day sh ns days ds nurse_limit)) ∧
     (∀ ns days ds num_nurses tolerance,
        leaves_alone rv
          (distribute_shifts_evenly sh ns days ds num_nurses tolerance)) ∧
     (∀ ns days ds horizon shift_limit,
        leaves_alone rv (max_shifts_per_week sh ns days ds horizon shift_limit)) ∧
     (∀ ns days horizon limited num_consecutive,
        leaves_alone rv
          (limit_consecutive_shifts sh ns days horizon limited
             num_consecutive)) ∧
     (∀ ns days first limited num_consecutive allowed,
        leaves_alone rv
          (limit_shifts_after_shifts sh ns days first limited
             num_consecutive allowed)) ∧
     (∀ ns days num_nurses shift_index,
        leaves_alone rv
          (distribute_night_shifts_evenly sh ns days num_nurses shift_index)) ∧
     (∀ ns ds sd start_shift_day shift_index num_consecutive,
        d ∉ rest_targets sd num_days start_shift_day num_consecutive →
        leaves_alone rv
          (assign_consecutive_shifts sh ns (Scheduler.rest_days self)
             (range 0 num_days) ds sd num_days start_shift_day shift_index
             num_consecutive))) ∧
    (let self' := (Scheduler.add_constraints self).2 in
     ¬ mentions rv (Scheduler.model self') ∧
     (∀ a, satisfies a (Scheduler.model self') = true →
           satisfies (override a rv true) (Scheduler.model self') = true) ∧
     (∀ solver export_rota,
        status solver = OPTIMAL →
        values solver rv = true →
        start_day ∈ days_of_week →
        export_rota (rota_dict solver (Scheduler.shifts self')) = Ok () →
        ∃ self'' rests,
          Scheduler.solve solver export_rota self' = (Ok (), self'') ∧
          Scheduler.assigned_rests self'' = Some rests ∧
          (n, d) ∈ rests) ∧
     (∀ solver export_rota self'',
        values solver rv = true →
        Scheduler.solve solver export_rota self' = (Ok (), self'') →
        ∃ rests, Scheduler.assigned_rests self'' = Some rests ∧
                 (n, d) ∈ rests)).
Proof.
  intros Hinit Hn Hd Hmon Hthu.
  destruct (post_init_built _ _ _ _ _ Hinit)
    as (_ & _ & Hnd & Hsd & Hdays & _ & Hb).
  destruct (post_init_model _ _ _ _ _ Hinit) as (Hm & _ & _).
  pose proof Hb as (_ & _ & Hin & _).
  destruct (Hin (n, d)) as (i & Hi & Hrv).
  { apply elem_of_rest_keys_of. by rewrite elem_of_range. }
  set (rv := (length (shift_keys_of nurses (range 0 num_days) daily_shifts)
              + i)%nat) in *.
  assert (Hname : variables (Scheduler.model self) !! rv
                  = Some (rest_name n d)).
  { rewrite Hm. cbn. subst rv.
    rewrite lookup_app_r by (rewrite length_fmap; lia).
    rewrite length_fmap, list_lookup_fmap.
    replace (_ + i - _)%nat with i by lia. by rewrite Hi. }
  assert (Hshifts : ∀ k v, Scheduler.shifts self !! k = Some v → v ≠ rv).
  { intros k v Hk ->. by eapply built_disjoint. }
  assert (Hrest : ∀ k, Scheduler.rest_days self !! k = Some rv → k = (n, d)).
  { intros k Hk.
    apply (built_rest_index _ _ _ _ _ _ _ Hb) in Hk as (i' & Heq & Hi').
    assert (i' = i) as -> by lia. congruence. }
  assert (H0 : unmentioned rv (mkEnv (Scheduler.model self) [])).
  { split; [by eapply lookup_lt_Some|]. rewrite Hm. cbn.
    intros c Hc. by apply elem_of_nil in Hc. }
  exists rv. split; [done|]. split; [done|]. split; [done|]. split.
  { cbn zeta.
    split. { intros. apply safe_leaves_alone. intros.
             by apply unm_limit_shifts_per_period. }
    split. { intros. apply safe_leaves_alone. intros.
             by apply unm_single_nurse_per_shift. }
    split. { intros. apply safe_leaves_alone. intros.
             by apply unm_limit_nurse_per_team_per_day. }
    split. { intros. apply safe_leaves_alone. intros.
             by apply unm_distribute_shifts_evenly. }
    split. { intros. apply safe_leaves_alone. intros.
             by apply unm_max_shifts_per_week. }
    split. { intros. apply safe_leaves_alone. intros.
             by apply unm_limit_consecutive_shifts. }
    split. { intros. apply safe_leaves_alone. intros.
             by apply unm_limit_shifts_after_shifts. }
    split. { intros. apply safe_leaves_alone. intros.
             by apply unm_distribute_night_shifts_evenly. }
    intros. apply safe_leaves_alone. intros.
    by apply (unm_assign_consecutive_shifts _ _ rv n d). }
  cbn zeta.
  assert (Hfinal : unmentioned rv
            ((Scheduler.add_constraints_body self
                (mkEnv (Scheduler.model self) [])).2)).
  { apply (safe_leaves_alone rv); [|done]. intros e He.
    apply (unm_add_constraints_body (Scheduler.shifts self)
             (Scheduler.rest_days self) rv n d); try done.
    - by rewrite Hdays, Hnd.
    - by rewrite Hsd, Hnd.
    - by rewrite Hsd, Hnd. }
  unfold Scheduler.add_constraints.
  destruct (Scheduler.add_constraints_body self _) as [o e'].
  cbn [snd Scheduler.model Scheduler.with_model] in *.
  assert (Hnot : ¬ mentions rv (cp e')).
  { intros (c & Hc & Hv). destruct Hfinal as [_ Hfinal]. by eapply Hfinal. }
  split; [done|]. split.
  { intros a Ha. by rewrite satisfies_override. }
  split.
  { intros solver export_rota Hopt Hval Hstart Hexp.
    cbn [Scheduler.shifts Scheduler.with_model] in Hexp.
    destruct (weekend_column_Ok (Scheduler.start_day self)
                (rota_dict solver (Scheduler.shifts self)))
      as (col & Hcol & _); [by rewrite Hsd|].
    unfold Scheduler.solve. rewrite decide_True by done.
    cbn [Scheduler.shifts Scheduler.rest_days Scheduler.start_day
         Scheduler.with_model Scheduler.with_solution
         Scheduler.with_assigned_rests].
    rewrite Hexp, Hcol.
    eexists _, _. split; [reflexivity|]. split; [reflexivity|].
    apply elem_of_rests_dict. unfold is_assigned. by rewrite Hrv. }
  intros solver export_rota self'' Hval. unfold Scheduler.solve.
  destruct (decide (status solver = OPTIMAL)); [|done].
  destruct (export_rota _); [|done].
  destruct (weekend_column _ _); [|done].
  intros [= <-]. cbn. eexists. split; [reflexivity|].
  apply elem_of_rests_dict. unfold is_assigned. by rewrite Hrv.
Qed.

(** The hypotheses meet on a model that has a solution: for the five
    nurses of [ward_nurses] over two days, [ward_values] satisfies the
    model that [add_constraints] builds; in it nurse 1 has the night of
    day 0 and no rest flag. *)
Example ward_roster_satisfies :
  match Scheduler.post_init ward_nurses ed_shifts 2 "Monday" with
  | Ok self =>
      let r := Scheduler.add_constraints self in
      r.1 = Ok () ∧
      satisfies ward_values (Scheduler.model r.2) = true ∧
      is_assigned ward_values (Scheduler.shifts self) (1, 0, 2) = true ∧
      is_assigned ward_values (Scheduler.rest_days self) (1, 0) = false
  | Raise _ => False
  end.
Proof. vm_compute. repeat split. Qed.

Lemma rest_day_unconstrained_witness :
  ∃ self (rv : nat) self'',
    Scheduler.post_init ward_nurses ed_shifts 2 "Monday" = Ok self ∧
    1 ∈ col_Nurse ward_nurses ∧
    0 ≤ 0 < 2 ∧
    (0 ∉ rest_targets "Monday" 2 "Monday" 3) ∧
    (0 ∉ rest_targets "Monday" 2 "Thursday" 4) ∧
    Scheduler.rest_days self !! (1, 0) = Some rv ∧
    variables (Scheduler.model self) !! rv = Some (rest_name 1 0) ∧
    ¬ mentions rv (Scheduler.model (Scheduler.add_constraints self).2) ∧
    satisfies ward_values (Scheduler.model (Scheduler.add_constraints self).2)
      = true ∧
    is_assigned ward_values (Scheduler.shifts self) (1, 0, 2) = true ∧
    satisfies (override ward_values rv true)
      (Scheduler.model (Scheduler.add_constraints self).2) = true ∧
    Scheduler.solve (mkSolver OPTIMAL (override ward_values rv true))
      (λ _, Ok ()) (Scheduler.add_constraints self).2 = (Ok (), self'') ∧
    ∃ rests, Scheduler.assigned_rests self'' = Some rests ∧ (1, 0) ∈ rests.
Proof.
  destruct (post_init_Ok ward_nurses ed_shifts 2 "Monday") as [self Hself].
  assert (Hn : 1 ∈ col_Nurse ward_nurses) by left.
  assert (Hd : 0 ≤ 0 < 2) by lia.
  assert (Hmon : 0 ∉ rest_targets "Monday" 2 "Monday" 3).
  { apply (bool_decide_unpack _). vm_compute. exact I. }
  assert (Hthu : 0 ∉ rest_targets "Monday" 2 "Thursday" 4).
  { apply (bool_decide_unpack _). vm_compute. exact I. }
  destruct (rest_day_unconstrained ward_nurses ed_shifts 2 "Monday" self 1 0
              Hself Hn Hd Hmon Hthu)
    as (rv & Hrv & Hname & _ & _ & Hnot & Hover & Hsolve & _).
  pose proof ward_roster_satisfies as Hex.
  rewrite Hself in Hex. cbv zeta in Hex.
  destruct Hex as (_ & Hsat & Hnight & _).
  assert (Hval : values (mkSolver OPTIMAL (override ward_values rv true)) rv
                 = true).
  { cbn [values]. unfold override. by rewrite decide_True. }
  assert (Hstart : "Monday"%string ∈ days_of_week) by left.
  destruct (Hsolve (mkSolver OPTIMAL (override ward_values rv true))
              (λ _, Ok ()) eq_refl Hval Hstart eq_refl)
    as (self'' & rests & Hrun & Hrests & Hin).
  exists self, rv, self''.
  split; [exact Hself|]. split; [exact Hn|]. split; [exact Hd|].
  split; [exact Hmon|]. split; [exact Hthu|]. split; [exact Hrv|].
  split; [exact Hname|]. split; [exact Hnot|]. split; [exact Hsat|].
  split; [exact Hnight|]. split; [exact (Hover ward_values Hsat)|].
  split; [exact Hrun|]. exists rests. split; [exact Hrests|exact Hin].
Defined.

(** The case is not an empty one: with the coverage rule and the
    Monday night block on the small roster, [demo_roster] satisfies
    the model although it flags nurse 3 as resting on the Sunday whose
    night she works, and [solve] reports both. *)
Example rest_flag_on_a_worked_day :
  match Scheduler.post_init demo_nurses demo_shifts 7 "Monday" with
  | Ok self =>
      let sh := Scheduler.shifts self in
      let r :=
        (single_nurse_per_shift sh demo_nurses (Scheduler.all_days self)
           demo_shifts ;;
         assign_consecutive_shifts sh demo_nurses (Scheduler.rest_days self)
           (Scheduler.all_days self) demo_shifts "Monday" 7 "Monday" 1 3)
          (mkEnv (Scheduler.model self) []) in
      let a := assignment_of (cp r.2) demo_roster in
      let solved :=
        Scheduler.solve (mkSolver OPTIMAL a) (λ _, Ok ())
          (Scheduler.with_model self (cp r.2)) in
      r.1 = Ok () ∧
      satisfies a (cp r.2) = true ∧
      is_assigned a sh (3, 6, 1) = true ∧
      is_assigned a (Scheduler.rest_days self) (3, 6) = true ∧
      solved.1 = Ok () ∧
      bool_decide ((3, 6, 1) ∈ default [] (rows <$> Scheduler.solution solved.2))
        = true ∧
      bool_decide ((3, 6) ∈ default [] (Scheduler.assigned_rests solved.2))
        = true
  | Raise _ => False
  end.
Proof. vm_compute. repeat split. Qed.

(** ** Caps per period and per week *)

Lemma elem_of_every {A} (k : nat) (l : list A) (x : A) :
  (0 < k)%nat →
  x ∈ every k l ↔ ∃ j : nat, l !! (j * k)%nat = Some x.
Proof.
  intros Hk. unfold every. rewrite list_elem_of_omap. split.
  - intros (j & _ & Hj). eauto.
  - intros (j & Hj). exists j. split; [|done].
    apply elem_of_seq. apply lookup_lt_Some in Hj. nia.
Qed.

Lemma lookup_range (a b : Z) (i : nat) :
  range a b !! i = if decide (Z.of_nat i < b - a) then Some (a + Z.of_nat i)
                   else None.
Proof.
  unfold range. rewrite list_lookup_fmap.
  destruct (decide (Z.of_nat i < b - a)) as [Hlt|Hge].
  - rewrite lookup_seq_lt by lia. done.
  - rewrite lookup_seq_ge by lia. done.
Qed.

Lemma len_range (n : Z) : 0 ≤ n → len (range 0 n) = n.
Proof. intros Hn. unfold len. rewrite length_range. lia. Qed.

(** The starts of the periods of [k > 0] days in a horizon of [n] days:
    the multiples of [k] below [n]. *)
Lemma slice_step_range (n k : Z) (p : Z) :
  0 < k →
  ∃ periods, slice_step (range 0 n) k = Ok periods ∧
    (p ∈ periods ↔ ∃ j, 0 ≤ j ∧ p = j * k ∧ p < n).
Proof.
  intros Hk. unfold slice_step.
  rewrite decide_False by lia. rewrite decide_True by done.
  eexists. split; [reflexivity|].
  rewrite elem_of_every by lia. split.
  - intros (j & Hj). rewrite lookup_range in Hj.
    destruct (decide _) as [Hlt|]; [|done]. injection Hj as <-.
    exists (Z.of_nat j). lia.
  - intros (j & Hj0 & -> & Hlt). exists (Z.to_nat j).
    rewrite lookup_range. rewrite decide_True by nia. f_equal. nia.
Qed.

Lemma limit_shifts_per_period_total shifts nurses days daily_shifts
    period_length shift_limit periods e :
  slice_step days period_length = Ok periods →
  (∀ p n d s, p ∈ periods → n ∈ col_Nurse nurses →
     d ∈ range p (Z.min (p + period_length) (len days)) →
     s ∈ shift_keys daily_shifts → is_Some (shifts !! (n, d, s))) →
  total (limit_shifts_per_period shifts nurses days daily_shifts
           period_length shift_limit) e
    (λ _ e', ∀ p, p ∈ periods → ∀ n, n ∈ col_Nurse nurses →
       ∃ vs, Forall2 (λ k v, shifts !! k = Some v)
               (d ← range p (Z.min (p + period_length) (len days));
                s ← shift_keys daily_shifts; [(n, d, s)]) vs ∧
             Linear (LSum vs) Le (LInt shift_limit) []
               ∈ constraints (cp e')).
Proof.
  intros Hslice Hdict. unfold limit_shifts_per_period. rewrite Hslice.
  apply total_bind, total_lift.
  apply (total_for_each (λ p e',
     ∀ n, n ∈ col_Nurse nurses →
     ∃ vs, Forall2 (λ k v, shifts !! k = Some v)
             (d ← range p (Z.min (p + period_length) (len days));
              s ← shift_keys daily_shifts; [(n, d, s)]) vs ∧
           Linear (LSum vs) Le (LInt shift_limit) []
             ∈ constraints (cp e'))).
  { intros p e1 e2 H Hext n Hn. destruct (H n Hn) as (vs & Hvs & Hc).
    exists vs. split; [done|]. by eapply extends_constraint. }
  intros p e1 Hp _.
  apply (total_for_each (λ n e',
     ∃ vs, Forall2 (λ k v, shifts !! k = Some v)
             (d ← range p (Z.min (p + period_length) (len days));
              s ← shift_keys daily_shifts; [(n, d, s)]) vs ∧
           Linear (LSum vs) Le (LInt shift_limit) []
             ∈ constraints (cp e'))).
  { intros n e2 e3 (vs & Hvs & Hc) Hext. exists vs.
    split; [done|]. by eapply extends_constraint. }
  intros n e2 Hn _. unfold shift_vars.
  apply total_bind, total_shift_lookups.
  { intros k Hk. apply elem_of_slots in Hk as (d & s & -> & Hd & Hs).
    eauto. }
  intros vs e3 Hvs Hcp3. apply total_Add. intros e4 Hcp4 _.
  exists vs. split; [done|]. rewrite Hcp4. cbn.
  apply elem_of_app. right. by left.
Qed.

Lemma holds_sum_le (a : assignment) (shifts : gmap (Z * Z * Z) nat)
    (ks : list (Z * Z * Z)) (vs : list nat) (k : Z) (m : CpModel) :
  satisfies a m = true →
  Forall2 (λ k v, shifts !! k = Some v) ks vs →
  Linear (LSum vs) Le (LInt k) [] ∈ constraints m →
  count_assigned a shifts ks ≤ k.
Proof.
  intros Hsat Hvs Hc. pose proof (satisfies_holds _ _ _ Hsat Hc) as Hh.
  cbn in Hh. apply bool_decide_eq_true in Hh.
  by rewrite <- (sum_values_count a _ _ _ Hvs).
Qed.

(** X1. Period cap. On a freshly constructed scheduler and for a period
    of [period_length > 0] days, [limit_shifts_per_period] returns
    normally and cuts the horizon into the windows starting at the
    multiples of [period_length], the last one cut off at the end of
    the horizon: in every satisfying assignment each nurse has at most
    [shift_limit] assigned slots, over all shift types, in each
    window. The limit is one that a comparison takes, within the
    64-bit integers. *)
Theorem limit_shifts_per_period_cap
    nurses daily_shifts num_days start_day self period_length shift_limit
    e n j :
  Scheduler.post_init nurses daily_shifts num_days start_day = Ok self →
  0 < period_length →
  n ∈ col_Nurse nurses →
  0 ≤ j →
  j * period_length < num_days →
  fits_int64 shift_limit →
  ∃ e',
    limit_shifts_per_period (Scheduler.shifts self) nurses
      (Scheduler.all_days self) daily_shifts period_length shift_limit e
      = (Ok (), e') ∧
    ∀ a, satisfies a (cp e') = true →
      count_assigned a (Scheduler.shifts self)
        (d ← range (j * period_length)
               (Z.min (j * period_length + period_length) num_days);
         s ← shift_keys daily_shifts; [(n, d, s)]) ≤ shift_limit.
Proof.
  intros Hinit Hpl Hn Hj Hlt _.
  destruct (post_init_built _ _ _ _ _ Hinit)
    as (_ & _ & _ & _ & Hdays & _ & Hb).
  rewrite Hdays.
  assert (Hnd : 0 ≤ num_days) by nia.
  destruct (slice_step_range num_days period_length (j * period_length) Hpl)
    as (periods & Hslice & Hp).
  destruct (limit_shifts_per_period_total (Scheduler.shifts self) nurses
              (range 0 num_days) daily_shifts period_length shift_limit
              periods e Hslice)
    as ([] & e' & Hrun & _ & Hpost).
  { intros p n' d s Hp' Hn' Hd Hs. eapply built_shift_lookup; eauto.
    rewrite len_range in Hd by done.
    apply elem_of_range in Hd. apply elem_of_range.
    assert (0 ≤ p); [|lia].
    destruct (slice_step_range num_days period_length p Hpl)
      as (periods' & Hslice' & Hp'').
    assert (periods' = periods) as -> by congruence.
    apply Hp'' in Hp' as (j' & ? & -> & _). nia. }
  exists e'. split; [done|]. intros a Hsat.
  destruct (Hpost (j * period_length)) with (n := n) as (vs & Hvs & Hc);
    [apply Hp; eauto|done|].
  rewrite len_range in Hvs by done.
  by eapply holds_sum_le.
Qed.

Lemma limit_shifts_per_period_cap_witness :
  ∃ self,
    Scheduler.post_init demo_nurses demo_shifts 10 "Monday" = Ok self ∧
    0 < 4 ∧ 1 ∈ col_Nurse demo_nurses ∧ 0 ≤ 2 ∧ 2 * 4 < 10 ∧
    fits_int64 3 ∧
    ∃ e',
      limit_shifts_per_period (Scheduler.shifts self) demo_nurses
        (Scheduler.all_days self) demo_shifts 4 3
        (mkEnv (Scheduler.model self) []) = (Ok (), e') ∧
      ∀ a, satisfies a (cp e') = true →
        count_assigned a (Scheduler.shifts self)
          (d ← range (2 * 4) (Z.min (2 * 4 + 4) 10);
           s ← shift_keys demo_shifts; [(1, d, s)]) ≤ 3.
Proof.
  destruct (post_init_Ok demo_nurses demo_shifts 10 "Monday") as [self Hself].
  assert (H1 : 0 < 4) by lia.
  assert (H2 : 1 ∈ col_Nurse demo_nurses) by left.
  assert (H3 : 0 ≤ 2) by lia.
  assert (H4 : 2 * 4 < 10) by lia.
  assert (H5 : fits_int64 3) by (vm_compute; split; reflexivity).
  exists self. split; [exact Hself|]. split; [exact H1|]. split; [exact H2|].
  split; [exact H3|]. split; [exact H4|]. split; [exact H5|].
  exact (limit_shifts_per_period_cap demo_nurses demo_shifts 10 "Monday" self
           4 3 _ 1 2 Hself H1 H2 H3 H4 H5).
Defined.

Lemma for_each_cons_Ok {A} (x : A) (xs : list A) (body : A → M unit) e e1 :
  body x e = (Ok (), e1) →
  for_each (x :: xs) body e = for_each xs body e1.
Proof. intros H. cbn [for_each]. unfold bind. by rewrite H. Qed.

Lemma empty_window_loop (shifts : gmap (Z * Z * Z) nat) (ns ss : list Z)
    (shift_limit : Z) e :
  ∃ e',
    for_each ns (λ nurse,
      do vs <- shift_vars shifts nurse [] ss;
      Add (Linear (LSum vs) Le (LInt shift_limit) [])) e = (Ok (), e') ∧
    variables (cp e') = variables (cp e) ∧ reads e' = reads e ∧
    constraints (cp e') =
      constraints (cp e) ++
      replicate (length ns) (Linear (LSum []) Le (LInt shift_limit) []).
Proof.
  revert e. induction ns as [|n ns IH]; intros e.
  - exists e. cbn. by rewrite app_nil_r.
  - erewrite for_each_cons_Ok by reflexivity.
    destruct (IH (mkEnv (mkCpModel (variables (cp e))
                (constraints (cp e) ++
                   [Linear (LSum []) Le (LInt shift_limit) []])) (reads e)))
      as (e' & Hrun & Hv & Hr & Hc).
    exists e'. split; [exact Hrun|]. cbn in *.
    split; [done|]. split; [done|]. by rewrite Hc, <- app_assoc.
Qed.

Lemma negative_period_run (shifts : gmap (Z * Z * Z) nat)
    (nurses : list NurseRow) (days : list Z)
    (daily_shifts : list (Z * string)) (period_length shift_limit : Z) e :
  period_length < 0 →
  ∃ e',
    limit_shifts_per_period shifts nurses days daily_shifts
      period_length shift_limit e = (Ok (), e') ∧
    reads e' = reads e ∧
    constraints (cp e') =
      constraints (cp e) ++
      replicate (length (every (Z.to_nat (- period_length)) (reverse days))
                 * length nurses)
                (Linear (LSum []) Le (LInt shift_limit) []).
Proof.
  intros Hneg. unfold limit_shifts_per_period, slice_step.
  rewrite decide_False by lia. rewrite decide_False by lia.
  unfold bind at 1, lift. cbn beta iota.
  generalize (every (Z.to_nat (- period_length)) (reverse days)).
  intros periods. revert e.
  induction periods as [|p periods IH]; intros e.
  - exists e. cbn. by rewrite app_nil_r.
  - assert (Hempty : range p (Z.min (p + period_length) (len days)) = []).
    { unfold range. replace (Z.to_nat _) with 0%nat by lia. done. }
    destruct (empty_window_loop shifts (col_Nurse nurses)
                (shift_keys daily_shifts) shift_limit e)
      as (e2 & Hrun & Hv & Hr & Hc).
    erewrite for_each_cons_Ok by (cbn zeta; rewrite Hempty; exact Hrun).
    destruct (IH e2) as (e3 & Hrun' & Hr' & Hc').
    exists e3. split; [done|]. split; [congruence|].
    rewrite Hc', Hc, <- app_assoc, <- replicate_add.
    unfold col_Nurse. rewrite length_fmap. done.
Qed.

Lemma satisfies_empty_caps a (cs : list constraint) (k : nat) (limit : Z) :
  forallb (holds a) (cs ++ replicate k (Linear (LSum []) Le (LInt limit) []))
  = forallb (holds a) cs && (bool_decide (k = 0%nat) || bool_decide (0 ≤ limit)).
Proof.
  rewrite forallb_app. f_equal. induction k as [|k IH]; [done|].
  cbn [replicate forallb]. rewrite IH. cbn.
  destruct (bool_decide (0 ≤ limit)); [|done].
  by rewrite orb_true_r.
Qed.

(** X2. A zero period is refused the way Python refuses a zero slice
    step, with a [ValueError] and before anything is added. A negative
    period is not refused: the rule returns normally without looking
    up a key, every window being empty, and caps nothing. With a limit
    that is not negative the model keeps its satisfying assignments;
    with a negative limit, a day and a nurse, it has none left. *)
Theorem limit_shifts_per_period_degenerate
    (shifts : gmap (Z * Z * Z) nat) (nurses : list NurseRow) (days : list Z)
    (daily_shifts : list (Z * string)) (period_length shift_limit : Z) e :
  (period_length = 0 →
     limit_shifts_per_period shifts nurses days daily_shifts
       period_length shift_limit e = (Raise ValueError, e)) ∧
  (period_length < 0 →
     ∃ e',
       limit_shifts_per_period shifts nurses days daily_shifts
         period_length shift_limit e = (Ok (), e') ∧
       reads e' = reads e ∧
       (0 ≤ shift_limit →
          ∀ a, satisfies a (cp e') = satisfies a (cp e)) ∧
       (shift_limit < 0 → days ≠ [] → nurses ≠ [] →
          ∀ a, satisfies a (cp e') = false)).
Proof.
  split.
  - intros ->. reflexivity.
  - intros Hneg.
    destruct (negative_period_run shifts nurses days daily_shifts
                period_length shift_limit e Hneg) as (e' & Hrun & Hr & Hc).
    exists e'. split; [exact Hrun|]. split; [exact Hr|].
    unfold satisfies. rewrite Hc. split.
    + intros Hlim a. rewrite satisfies_empty_caps.
      rewrite (bool_decide_eq_true_2 (0 ≤ shift_limit)) by done.
      by rewrite orb_true_r, andb_true_r.
    + intros Hlim Hdays Hnurses a. rewrite satisfies_empty_caps.
      rewrite (bool_decide_eq_false_2 (0 ≤ shift_limit)) by lia.
      rewrite bool_decide_eq_false_2; [by rewrite andb_false_r|].
      assert (every (Z.to_nat (- period_length)) (reverse days) ≠ []).
      { destruct (reverse days) as [|x l] eqn:Hrev.
        - apply (f_equal reverse) in Hrev. rewrite reverse_involutive in Hrev.
          done.
        - intros Hnil.
          assert (Hx : x ∈ every (Z.to_nat (- period_length)) (x :: l)).
          { apply elem_of_every; [lia|]. by exists 0%nat. }
          rewrite Hnil in Hx. by apply elem_of_nil in Hx. }
      destruct (every _ _); [done|]. destruct nurses; [done|]. cbn. lia.
Qed.

Lemma max_shifts_per_week_as_period shifts nurses days daily_shifts
    shift_limit :
  max_shifts_per_week shifts nurses days daily_shifts (len days) shift_limit
  = limit_shifts_per_period shifts nurses days daily_shifts 7 shift_limit.
Proof. reflexivity. Qed.

(** X3. Weekly cap. The weeks of [max_shifts_per_week] are the blocks
    of seven days counted from day 0 of the horizon, whatever weekday
    that is, the last block ending with the horizon: on a freshly
    constructed scheduler the rule returns normally, and in every
    satisfying assignment each nurse has at most [shift_limit] assigned
    slots in each such block. On the scheduler's own days it is the
    same computation as [limit_shifts_per_period] with a period of 7.
    The limit is one that a comparison takes, within the 64-bit
    integers. *)
Theorem max_shifts_per_week_cap
    nurses daily_shifts num_days start_day self shift_limit e n j :
  Scheduler.post_init nurses daily_shifts num_days start_day = Ok self →
  n ∈ col_Nurse nurses →
  0 ≤ j →
  7 * j < num_days →
  fits_int64 shift_limit →
  max_shifts_per_week (Scheduler.shifts self) nurses
    (Scheduler.all_days self) daily_shifts num_days shift_limit
  = limit_shifts_per_period (Scheduler.shifts self) nurses
      (Scheduler.all_days self) daily_shifts 7 shift_limit ∧
  ∃ e',
    max_shifts_per_week (Scheduler.shifts self) nurses
      (Scheduler.all_days self) daily_shifts num_days shift_limit e
      = (Ok (), e') ∧
    ∀ a, satisfies a (cp e') = true →
      count_assigned a (Scheduler.shifts self)
        (d ← range (7 * j) (Z.min (7 * j + 7) num_days);
         s ← shift_keys daily_shifts; [(n, d, s)]) ≤ shift_limit.
Proof.
  intros Hinit Hn Hj Hlt _.
  destruct (post_init_built _ _ _ _ _ Hinit)
    as (_ & _ & _ & _ & Hdays & _ & Hb).
  rewrite Hdays.
  assert (Hnd : 0 ≤ num_days) by lia.
  assert (Heq : max_shifts_per_week (Scheduler.shifts self) nurses
                  (range 0 num_days) daily_shifts num_days shift_limit
                = limit_shifts_per_period (Scheduler.shifts self) nurses
                    (range 0 num_days) daily_shifts 7 shift_limit).
  { rewrite <- max_shifts_per_week_as_period. by rewrite len_range. }
  split; [exact Heq|]. rewrite Heq.
  assert (H7 : 0 < 7) by lia.
  destruct (slice_step_range num_days 7 (j * 7) H7)
    as (periods & Hslice & Hp).
  destruct (limit_shifts_per_period_total (Scheduler.shifts self) nurses
              (range 0 num_days) daily_shifts 7 shift_limit
              periods e Hslice)
    as ([] & e' & Hrun & _ & Hpost).
  { intros p n' d s Hp' Hn' Hd Hs. eapply built_shift_lookup; eauto.
    rewrite len_range in Hd by done.
    apply elem_of_range in Hd. apply elem_of_range.
    assert (0 ≤ p); [|lia].
    destruct (slice_step_range num_days 7 p H7)
      as (periods' & Hslice' & Hp'').
    assert (periods' = periods) as -> by congruence.
    apply Hp'' in Hp' as (j' & ? & -> & _). lia. }
  exists e'. split; [done|]. intros a Hsat.
  destruct (Hpost (j * 7)) with (n := n) as (vs & Hvs & Hc);
    [apply Hp; exists j; lia|done|].
  rewrite len_range in Hvs by done.
  replace (7 * j) with (j * 7) by lia.
  by eapply holds_sum_le.
Qed.

Lemma max_shifts_per_week_cap_witness :
  ∃ self,
    Scheduler.post_init demo_nurses demo_shifts 10 "Wednesday" = Ok self ∧
    1 ∈ col_Nurse demo_nurses ∧ 0 ≤ 1 ∧ 7 * 1 < 10 ∧ fits_int64 4 ∧
    max_shifts_per_week (Scheduler.shifts self) demo_nurses
      (Scheduler.all_days self) demo_shifts 10 4
    = limit_shifts_per_period (Scheduler.shifts self) demo_nurses
        (Scheduler.all_days self) demo_shifts 7 4 ∧
    ∃ e',
      max_shifts_per_week (Scheduler.shifts self) demo_nurses
        (Scheduler.all_days self) demo_shifts 10 4
        (mkEnv (Scheduler.model self) []) = (Ok (), e') ∧
      ∀ a, satisfies a (cp e') = true →
        count_assigned a (Scheduler.shifts self)
          (d ← range (7 * 1) (Z.min (7 * 1 + 7) 10);
           s ← shift_keys demo_shifts; [(1, d, s)]) ≤ 4.
Proof.
  destruct (post_init_Ok demo_nurses demo_shifts 10 "Wednesday")
    as [self Hself].
  assert (H2 : 1 ∈ col_Nurse demo_nurses) by left.
  assert (H3 : 0 ≤ 1) by lia.
  assert (H4 : 7 * 1 < 10) by lia.
  assert (H5 : fits_int64 4) by (vm_compute; split; reflexivity).
  exists self. split; [exact Hself|]. split; [exact H2|].
  split; [exact H3|]. split; [exact H4|]. split; [exact H5|].
  exact (max_shifts_per_week_cap demo_nurses demo_shifts 10 "Wednesday" self
           4 _ 1 1 Hself H2 H3 H4 H5).
Defined.

(** ** Team concurrency: limit_nurse_per_team_per_day *)

Lemma elem_of_groupby_Team nurses t g :
  (t, g) ∈ groupby_Team nurses ↔
  t ∈ Team <$> nurses ∧ g = filter (λ r, Team r = t) nurses.
Proof.
  unfold groupby_Team. rewrite list_elem_of_fmap. split.
  - intros (t' & [= -> ->] & Ht). split; [|done].
    rewrite merge_sort_Permutation in Ht.
    by apply (proj1 (elem_of_remove_dups _ _)) in Ht.
  - intros [Ht ->]. exists t. split; [done|].
    rewrite merge_sort_Permutation.
    by apply (proj2 (elem_of_remove_dups _ _)).
Qed.

Lemma elem_of_team_slots (ns ss : list Z) (d : Z) k :
  k ∈ (n ← ns; s ← ss; [(n, d, s)]) ↔
  ∃ n s, k = (n, d, s) ∧ n ∈ ns ∧ s ∈ ss.
Proof.
  rewrite list_elem_of_bind. split.
  - intros (n & H & Hn). apply list_elem_of_bind in H as (s & H & Hs).
    apply list_elem_of_singleton in H. eauto.
  - intros (n & s & -> & Hn & Hs). exists n. split; [|done].
    apply list_elem_of_bind. exists s. split; [|done].
    by apply list_elem_of_singleton.
Qed.

Lemma limit_nurse_per_team_per_day_total shifts nurses days daily_shifts
    nurse_limit e :
  (∀ n d s, n ∈ col_Nurse nurses → d ∈ days → s ∈ shift_keys daily_shifts →
            is_Some (shifts !! (n, d, s))) →
  total (limit_nurse_per_team_per_day shifts nurses days daily_shifts
           nurse_limit) e
    (λ _ e', ∀ d, d ∈ days → ∀ tg, tg ∈ groupby_Team nurses →
       ∃ vs, Forall2 (λ k v, shifts !! k = Some v)
               (n ← col_Nurse tg.2; s ← shift_keys daily_shifts;
                [(n, d, s)]) vs ∧
             Linear (LSum vs) Le (LInt nurse_limit) []
               ∈ constraints (cp e')).
Proof.
  intros Hdict. unfold limit_nurse_per_team_per_day.
  apply (total_for_each (λ d e', ∀ tg, tg ∈ groupby_Team nurses →
       ∃ vs, Forall2 (λ k v, shifts !! k = Some v)
               (n ← col_Nurse tg.2; s ← shift_keys daily_shifts;
                [(n, d, s)]) vs ∧
             Linear (LSum vs) Le (LInt nurse_limit) []
               ∈ constraints (cp e'))).
  { intros d e1 e2 H Hext tg Htg. destruct (H tg Htg) as (vs & Hvs & Hc).
    exists vs. split; [done|]. by eapply extends_constraint. }
  intros d e1 Hd _.
  apply (total_for_each (λ tg e',
       ∃ vs, Forall2 (λ k v, shifts !! k = Some v)
               (n ← col_Nurse tg.2; s ← shift_keys daily_shifts;
                [(n, d, s)]) vs ∧
             Linear (LSum vs) Le (LInt nurse_limit) []
               ∈ constraints (cp e'))).
  { intros tg e2 e3 (vs & Hvs & Hc) Hext. exists vs.
    split; [done|]. by eapply extends_constraint. }
  intros [t g] e2 Htg _. apply elem_of_groupby_Team in Htg as [Ht ->].
  apply total_bind, total_shift_lookups.
  { intros k Hk. apply elem_of_team_slots in Hk as (n & s & -> & Hn & Hs).
    apply Hdict; [|done|done].
    apply list_elem_of_fmap in Hn as (r & -> & Hr).
    apply list_elem_of_filter in Hr as [_ Hr].
    apply list_elem_of_fmap. eauto. }
  intros vs e3 Hvs Hcp3. apply total_Add. intros e4 Hcp4 _.
  exists vs. split; [done|]. rewrite Hcp4. cbn.
  apply elem_of_app. right. by left.
Qed.

(** X4. Team concurrency. On a freshly constructed scheduler
    [limit_nurse_per_team_per_day] returns normally, and in every
    satisfying assignment, on each day of the horizon and for each
    team label of the roster, the nurses of that team hold together at
    most [nurse_limit] slots, all shift types counted. The limit is one
    that a comparison takes, within the 64-bit integers. *)
Theorem limit_nurse_per_team_per_day_cap
    nurses daily_shifts num_days start_day self nurse_limit e d t :
  Scheduler.post_init nurses daily_shifts num_days start_day = Ok self →
  0 ≤ d < num_days →
  t ∈ Team <$> nurses →
  fits_int64 nurse_limit →
  ∃ e',
    limit_nurse_per_team_per_day (Scheduler.shifts self) nurses
      (Scheduler.all_days self) daily_shifts nurse_limit e = (Ok (), e') ∧
    ∀ a, satisfies a (cp e') = true →
      count_assigned a (Scheduler.shifts self)
        (n ← col_Nurse (filter (λ r, Team r = t) nurses);
         s ← shift_keys daily_shifts; [(n, d, s)]) ≤ nurse_limit.
Proof.
  intros Hinit Hd Ht _.
  destruct (post_init_built _ _ _ _ _ Hinit)
    as (_ & _ & _ & _ & Hdays & _ & Hb).
  rewrite Hdays.
  destruct (limit_nurse_per_team_per_day_total (Scheduler.shifts self) nurses
              (range 0 num_days) daily_shifts nurse_limit e)
    as ([] & e' & Hrun & _ & Hpost).
  { intros. by eapply built_shift_lookup. }
  exists e'. split; [done|]. intros a Hsat.
  destruct (Hpost d (proj2 (elem_of_range _ _ _) Hd)
              (t, filter (λ r, Team r = t) nurses))
    as (vs & Hvs & Hc).
  { by apply elem_of_groupby_Team. }
  by eapply holds_sum_le.
Qed.

Lemma limit_nurse_per_team_per_day_cap_witness :
  ∃ self,
    Scheduler.post_init demo_nurses demo_shifts 7 "Monday" = Ok self ∧
    0 ≤ 4 < 7 ∧
    "A"%string ∈ Team <$> demo_nurses ∧
    fits_int64 1 ∧
    ∃ e',
      limit_nurse_per_team_per_day (Scheduler.shifts self) demo_nurses
        (Scheduler.all_days self) demo_shifts 1
        (mkEnv (Scheduler.model self) []) = (Ok (), e') ∧
      ∀ a, satisfies a (cp e') = true →
        count_assigned a (Scheduler.shifts self)
          (n ← col_Nurse (filter (λ r, Team r = "A"%string) demo_nurses);
           s ← shift_keys demo_shifts; [(n, 4, s)]) ≤ 1.
Proof.
  destruct (post_init_Ok demo_nurses demo_shifts 7 "Monday") as [self Hself].
  assert (H1 : 0 ≤ 4 < 7) by lia.
  assert (H2 : "A"%string ∈ Team <$> demo_nurses) by left.
  assert (H3 : fits_int64 1) by (vm_compute; split; reflexivity).
  exists self. split; [exact Hself|]. split; [exact H1|]. split; [exact H2|].
  split; [exact H3|].
  exact (limit_nurse_per_team_per_day_cap demo_nurses demo_shifts 7 "Monday"
           self 1 _ 4 "A" Hself H1 H2 H3).
Defined.

(** ** Consecutive exclusion: limit_consecutive_shifts *)

Lemma limit_consecutive_shifts_total shifts nurses days num_days
    limited_shifts num_consecutive e :
  (∀ n d off s, n ∈ col_Nurse nurses → d ∈ days →
     0 ≤ off < Z.min num_consecutive (num_days - d) → s ∈ limited_shifts →
     is_Some (shifts !! (n, d + off, s))) →
  total (limit_consecutive_shifts shifts nurses days num_days limited_shifts
           num_consecutive) e
    (λ _ e', ∀ d, d ∈ days → ∀ n, n ∈ col_Nurse nurses →
       ∃ vs, Forall2 (λ k v, shifts !! k = Some v)
               (off ← range 0 (Z.min num_consecutive (num_days - d));
                s ← limited_shifts; [(n, d + off, s)]) vs ∧
             AtMostOne vs ∈ constraints (cp e')).
Proof.
  intros Hdict. unfold limit_consecutive_shifts.
  apply (total_for_each (λ d e', ∀ n, n ∈ col_Nurse nurses →
       ∃ vs, Forall2 (λ k v, shifts !! k = Some v)
               (off ← range 0 (Z.min num_consecutive (num_days - d));
                s ← limited_shifts; [(n, d + off, s)]) vs ∧
             AtMostOne vs ∈ constraints (cp e'))).
  { intros d e1 e2 H Hext n Hn. destruct (H n Hn) as (vs & Hvs & Hc).
    exists vs. split; [done|]. by eapply extends_constraint. }
  intros d e1 Hd _.
  apply (total_for_each (λ n e',
       ∃ vs, Forall2 (λ k v, shifts !! k = Some v)
               (off ← range 0 (Z.min num_consecutive (num_days - d));
                s ← limited_shifts; [(n, d + off, s)]) vs ∧
             AtMostOne vs ∈ constraints (cp e'))).
  { intros n e2 e3 (vs & Hvs & Hc) Hext. exists vs.
    split; [done|]. by eapply extends_constraint. }
  intros n e2 Hn _.
  apply total_bind, total_shift_lookups.
  { intros k Hk. apply elem_of_window in Hk as (off & s & -> & Hoff & Hs).
    apply elem_of_range in Hoff. apply Hdict; first [done | lia]. }
  intros vs e3 Hvs Hcp3. apply total_Add. intros e4 Hcp4 _.
  exists vs. split; [done|]. rewrite Hcp4. cbn.
  apply elem_of_app. right. by left.
Qed.

(** X5. Consecutive exclusion. For shift types [limited_shifts] of the
    mapping, [limit_consecutive_shifts] on a freshly constructed
    scheduler returns normally, and in every satisfying assignment
    each nurse holds at most one slot of those types in each window of
    [min(num_consecutive, num_days - d)] days starting at a day [d] of
    the horizon: the windows overlap, one starts on every day, and the
    last ones are cut off at the end of the horizon. *)
Theorem limit_consecutive_shifts_at_most_one
    nurses daily_shifts num_days start_day self limited_shifts
    num_consecutive e n d :
  Scheduler.post_init nurses daily_shifts num_days start_day = Ok self →
  (∀ s, s ∈ limited_shifts → s ∈ shift_keys daily_shifts) →
  n ∈ col_Nurse nurses →
  0 ≤ d < num_days →
  ∃ e',
    limit_consecutive_shifts (Scheduler.shifts self) nurses
      (Scheduler.all_days self) num_days limited_shifts num_consecutive e
      = (Ok (), e') ∧
    ∀ a, satisfies a (cp e') = true →
      count_assigned a (Scheduler.shifts self)
        (off ← range 0 (Z.min num_consecutive (num_days - d));
         s ← limited_shifts; [(n, d + off, s)]) ≤ 1.
Proof.
  intros Hinit Hsub Hn Hd.
  destruct (post_init_built _ _ _ _ _ Hinit)
    as (_ & _ & _ & _ & Hdays & _ & Hb).
  rewrite Hdays.
  destruct (limit_consecutive_shifts_total (Scheduler.shifts self) nurses
              (range 0 num_days) num_days limited_shifts num_consecutive e)
    as ([] & e' & Hrun & _ & Hpost).
  { intros n' d' off s Hn' Hd' Hoff Hs. apply elem_of_range in Hd'.
    eapply built_shift_lookup; eauto. apply elem_of_range. lia. }
  exists e'. split; [done|]. intros a Hsat.
  destruct (Hpost d (proj2 (elem_of_range _ _ _) Hd) n Hn) as (vs & Hvs & Hc).
  pose proof (satisfies_holds _ _ _ Hsat Hc) as Hh.
  cbn in Hh. apply bool_decide_eq_true in Hh.
  by rewrite <- (sum_values_count a _ _ _ Hvs).
Qed.

Lemma limit_consecutive_shifts_at_most_one_witness :
  ∃ self,
    Scheduler.post_init demo_nurses demo_shifts 7 "Monday" = Ok self ∧
    (∀ s, s ∈ [0; 1] → s ∈ shift_keys demo_shifts) ∧
    3 ∈ col_Nurse demo_nurses ∧
    0 ≤ 6 < 7 ∧
    ∃ e',
      limit_consecutive_shifts (Scheduler.shifts self) demo_nurses
        (Scheduler.all_days self) 7 [0; 1] 2
        (mkEnv (Scheduler.model self) []) = (Ok (), e') ∧
      ∀ a, satisfies a (cp e') = true →
        count_assigned a (Scheduler.shifts self)
          (off ← range 0 (Z.min 2 (7 - 6)); s ← [0; 1]; [(3, 6 + off, s)])
        ≤ 1.
Proof.
  destruct (post_init_Ok demo_nurses demo_shifts 7 "Monday") as [self Hself].
  assert (H1 : ∀ s, s ∈ [0; 1] → s ∈ shift_keys demo_shifts) by done.
  assert (H2 : 3 ∈ col_Nurse demo_nurses) by (right; right; left).
  assert (H3 : 0 ≤ 6 < 7) by lia.
  exists self. split; [exact Hself|]. split; [exact H1|]. split; [exact H2|].
  split; [exact H3|].
  exact (limit_consecutive_shifts_at_most_one demo_nurses demo_shifts 7
           "Monday" self [0; 1] 2 _ 3 6 Hself H1 H2 H3).
Defined.

(** ** Night-shift fairness: distribute_night_shifts_evenly *)

Lemma range_snoc (k : nat) :
  range 0 (Z.of_nat (S k)) = range 0 (Z.of_nat k) ++ [Z.of_nat k].
Proof.
  unfold range. replace (Z.to_nat (Z.of_nat (S k) - 0)) with (S k) by lia.
  replace (Z.to_nat (Z.of_nat k - 0)) with k by lia.
  rewrite seq_S, fmap_app. cbn. do 2 f_equal.
Qed.

(** The fair share computed by the loop over the blocks, three nights
    for a block of even rank and four for one of odd rank, is seven
    nights for every two blocks and three for a block left over. *)
Lemma night_share_closed (b : Z) :
  0 ≤ b →
  foldl (λ acc i, if decide (i `mod` 2 = 0) then acc + 3 else acc + 4)
        0 (range 0 b)
  = 7 * (b `div` 2) + 3 * (b `mod` 2).
Proof.
  intros Hb. rewrite <- (Z2Nat.id b Hb). clear Hb.
  induction (Z.to_nat b) as [|k IH]; [done|].
  rewrite range_snoc, foldl_app, IH. cbn [foldl].
  destruct (decide (Z.of_nat k `mod` 2 = 0)) as [He|Ho].
  - replace (Z.of_nat (S k)) with (Z.of_nat k + 1) by lia.
    Z.div_mod_to_equations. lia.
  - replace (Z.of_nat (S k)) with (Z.of_nat k + 1) by lia.
    Z.div_mod_to_equations. lia.
Qed.

Lemma distribute_night_shifts_evenly_total shifts nurses days num_nurses
    shift_index e :
  (∀ n d, n ∈ col_Nurse nurses → d ∈ days →
          is_Some (shifts !! (n, d, shift_index))) →
  num_nurses ≠ 0 →
  let num_days := len days in
  let blocks :=
    (num_days `div` 7 + (num_days `mod` 7) `div` 3 + num_days `div` 7)
      `div` num_nurses in
  let lo := foldl (λ acc i, if decide (i `mod` 2 = 0) then acc + 3
                            else acc + 4) 0 (range 0 blocks) in
  let hi := if decide (num_days `mod` num_nurses = 0) then lo else lo + 4 in
  total (distribute_night_shifts_evenly shifts nurses days num_nurses
           shift_index) e
    (λ _ e', ∀ n, n ∈ col_Nurse nurses →
       ∃ vs, Forall2 (λ k v, shifts !! k = Some v)
               ((λ d, (n, d, shift_index)) <$> days) vs ∧
             Linear (LSum vs) Ge (LInt lo) [] ∈ constraints (cp e') ∧
             Linear (LSum vs) Le (LInt hi) [] ∈ constraints (cp e')).
Proof.
  intros Hdict Hm num_days blocks lo hi.
  unfold distribute_night_shifts_evenly, floordiv, pymod.
  destruct (decide (num_nurses = 0)) as [|_]; [done|].
  apply total_bind, total_lift, total_bind, total_lift.
  fold num_days. fold blocks. fold lo. fold hi.
  apply (total_for_each (λ n e',
       ∃ vs, Forall2 (λ k v, shifts !! k = Some v)
               ((λ d, (n, d, shift_index)) <$> days) vs ∧
             Linear (LSum vs) Ge (LInt lo) [] ∈ constraints (cp e') ∧
             Linear (LSum vs) Le (LInt hi) [] ∈ constraints (cp e'))).
  { intros n e1 e2 (vs & Hvs & Hc1 & Hc2) Hext. exists vs.
    split; [done|]. split; by eapply extends_constraint. }
  intros n e1 Hn _.
  apply total_bind, total_shift_lookups.
  { intros k Hk. apply list_elem_of_fmap in Hk as (d & -> & Hd). eauto. }
  intros vs e2 Hvs Hcp2. apply total_bind, total_Add. intros e3 Hcp3 _.
  apply total_Add. intros e4 Hcp4 _. exists vs. split; [done|].
  rewrite Hcp4, Hcp3. cbn. rewrite !elem_of_app, !list_elem_of_singleton.
  split; eauto.
Qed.

(** X6. Night-shift fairness. On a freshly constructed scheduler over
    [num_days >= 0] days, for a shift type of the mapping and a nurse
    count [m > 0], [distribute_night_shifts_evenly] returns normally.
    With [b] the number of blocks per nurse, namely
    [(num_days // 7 + (num_days % 7) // 3 + num_days // 7) // m], every
    satisfying assignment gives each nurse between
    [lo = 7 * (b // 2) + 3 * (b % 2)] and [hi] slots of that type over
    the horizon, [hi] being [lo] when [m] divides the number of days
    and [lo + 4] otherwise. *)
Theorem distribute_night_shifts_evenly_bounds
    nurses daily_shifts num_days start_day self m shift_index e n :
  Scheduler.post_init nurses daily_shifts num_days start_day = Ok self →
  0 ≤ num_days →
  shift_index ∈ shift_keys daily_shifts →
  0 < m →
  n ∈ col_Nurse nurses →
  ∃ e' b lo hi,
    distribute_night_shifts_evenly (Scheduler.shifts self) nurses
      (Scheduler.all_days self) m shift_index e = (Ok (), e') ∧
    b = (num_days `div` 7 + (num_days `mod` 7) `div` 3 + num_days `div` 7)
          `div` m ∧
    lo = 7 * (b `div` 2) + 3 * (b `mod` 2) ∧
    hi = (if decide (num_days `mod` m = 0) then lo else lo + 4) ∧
    ∀ a, satisfies a (cp e') = true →
      lo ≤ count_assigned a (Scheduler.shifts self)
             ((λ d, (n, d, shift_index)) <$> range 0 num_days) ≤ hi.
Proof.
  intros Hinit Hnd Hsi Hm Hn.
  destruct (post_init_built _ _ _ _ _ Hinit)
    as (_ & _ & _ & _ & Hdays & _ & Hb).
  rewrite Hdays.
  destruct (distribute_night_shifts_evenly_total (Scheduler.shifts self)
              nurses (range 0 num_days) m shift_index e)
    as ([] & e' & Hrun & _ & Hpost).
  { intros n' d Hn' Hd. by eapply built_shift_lookup. }
  { lia. }
  rewrite len_range in Hpost by done.
  exists e'. eexists _, _, _. split; [exact Hrun|].
  split; [reflexivity|]. split; [reflexivity|]. split; [reflexivity|].
  intros a Hsat. destruct (Hpost n Hn) as (vs & Hvs & Hc1 & Hc2).
  rewrite night_share_closed in Hc1, Hc2.
  2,3: apply Z.div_pos; [|lia];
       pose proof (Z.div_pos num_days 7); pose proof (Z.mod_pos_bound num_days 7);
       pose proof (Z.div_pos (num_days `mod` 7) 3); lia.
  pose proof (satisfies_holds _ _ _ Hsat Hc1) as H1.
  pose proof (satisfies_holds _ _ _ Hsat Hc2) as H2.
  cbn in H1, H2. apply bool_decide_eq_true in H1, H2.
  rewrite <- (sum_values_count a _ _ _ Hvs). lia.
Qed.

Lemma distribute_night_shifts_evenly_bounds_witness :
  ∃ self,
    Scheduler.post_init demo_nurses ed_shifts 24 "Monday" = Ok self ∧
    0 ≤ 24 ∧ 2 ∈ shift_keys ed_shifts ∧ 0 < 3 ∧ 1 ∈ col_Nurse demo_nurses ∧
    ∃ e' b lo hi,
      distribute_night_shifts_evenly (Scheduler.shifts self) demo_nurses
        (Scheduler.all_days self) 3 2 (mkEnv (Scheduler.model self) [])
        = (Ok (), e') ∧
      b = (24 `div` 7 + (24 `mod` 7) `div` 3 + 24 `div` 7) `div` 3 ∧
      lo = 7 * (b `div` 2) + 3 * (b `mod` 2) ∧
      hi = (if decide (24 `mod` 3 = 0) then lo else lo + 4) ∧
      ∀ a, satisfies a (cp e') = true →
        lo ≤ count_assigned a (Scheduler.shifts self)
               ((λ d, (1, d, 2)) <$> range 0 24) ≤ hi.
Proof.
  destruct (post_init_Ok demo_nurses ed_shifts 24 "Monday") as [self Hself].
  assert (H1 : 0 ≤ 24) by lia.
  assert (H2 : 2 ∈ shift_keys ed_shifts) by (right; right; left).
  assert (H3 : 0 < 3) by lia.
  assert (H4 : 1 ∈ col_Nurse demo_nurses) by left.
  exists self. split; [exact Hself|]. split; [exact H1|]. split; [exact H2|].
  split; [exact H3|]. split; [exact H4|].
  exact (distribute_night_shifts_evenly_bounds demo_nurses ed_shifts 24
           "Monday" self 3 2 _ 1 Hself H1 H2 H3 H4).
Defined.

(** ** Rules only append *)

Section stable.
Variable Inv : Env → Prop.
Hypothesis Hread : ∀ e k, Inv e → Inv (mkEnv (cp e) (reads e ++ [k])).
Hypothesis Hadd : ∀ e c, Inv e →
  Inv (mkEnv (mkCpModel (variables (cp e)) (constraints (cp e) ++ [c]))
             (reads e)).

Lemma st_getitem_shifts (shifts : gmap (Z * Z * Z) nat) k e :
  Inv e → safe Inv (λ _, True) (getitem_shifts shifts k) e.
Proof.
  intros HI. unfold safe, wp, getitem_shifts. cbn.
  destruct (shifts !! k); [split; [|done]|]; by apply Hread.
Qed.

Lemma st_getitem_rest (rest_days : gmap (Z * Z) nat) k e :
  Inv e → safe Inv (λ _, True) (getitem_rest rest_days k) e.
Proof.
  intros HI. unfold safe, wp, getitem_rest. cbn.
  destruct (rest_days !! k); [split; [|done]|]; by apply Hread.
Qed.

Lemma st_lookups (shifts : gmap (Z * Z * Z) nat) ks e :
  Inv e → safe Inv (λ _, True) (mapM (getitem_shifts shifts) ks) e.
Proof.
  intros HI. eapply safe_weaken.
  - apply (safe_mapM _ (λ _, True)); [done|].
    intros k e1 _. apply st_getitem_shifts.
  - done.
Qed.

Lemma st_Add c e : Inv e → safe Inv (λ _, True) (Add c) e.
Proof. intros HI. unfold safe, wp, Add. cbn. split; [|done]. by apply Hadd. Qed.

Lemma st_lift {A} (o : outcome A) e : Inv e → safe Inv (λ _, True) (lift o) e.
Proof. intros HI. by apply safe_lift. Qed.

(** The inner step shared by most rules: fetch variables, add one or
    two constraints built from them. *)
Ltac st_step :=
  match goal with
  | |- safe _ _ (bind _ _) _ => eapply safe_bind
  | |- safe _ _ (for_each _ _) _ => apply safe_for_each
  | |- safe _ _ (mapM (getitem_shifts _) _) _ => apply st_lookups
  | |- safe _ _ (shift_vars _ _ _ _) _ => apply st_lookups
  | |- safe _ _ (getitem_shifts _ _) _ => apply st_getitem_shifts
  | |- safe _ _ (getitem_rest _ _) _ => apply st_getitem_rest
  | |- safe _ _ (Add _) _ => apply st_Add
  | |- safe _ _ (lift _) _ => apply st_lift
  | |- safe _ _ (ret _) _ => apply safe_ret
  | |- safe _ _ (if decide _ then _ else _) _ => case_decide
  | |- safe _ _ (match ?x with (_, _) => _ end) _ => destruct x
  | |- ∀ _, _ => intro
  | |- True => exact I
  | |- Inv _ => assumption
  end.

Lemma st_limit_shifts_per_period sh ns days ds pl sl e :
  Inv e → safe Inv (λ _, True) (limit_shifts_per_period sh ns days ds pl sl) e.
Proof. intros. unfold limit_shifts_per_period. repeat st_step. Qed.

Lemma st_single_nurse_per_shift sh ns days ds e :
  Inv e → safe Inv (λ _, True) (single_nurse_per_shift sh ns days ds) e.
Proof. intros. unfold single_nurse_per_shift. repeat st_step. Qed.

Lemma st_limit_nurse_per_team_per_day sh ns days ds nl e :
  Inv e →
  safe Inv (λ _, True) (limit_nurse_per_team_per_day sh ns days ds nl) e.
Proof. intros. unfold limit_nurse_per_team_per_day. repeat st_step. Qed.

Lemma st_distribute_shifts_evenly sh ns days ds m t e :
  Inv e → safe Inv (λ _, True) (distribute_shifts_evenly sh ns days ds m t) e.
Proof. intros. unfold distribute_shifts_evenly. repeat st_step. Qed.

Lemma st_max_shifts_per_week sh ns days ds nd sl e :
  Inv e → safe Inv (λ _, True) (max_shifts_per_week sh ns days ds nd sl) e.
Proof. intros. unfold max_shifts_per_week. repeat st_step. Qed.

Lemma st_limit_consecutive_shifts sh ns days nd ls nc e :
  Inv e →
  safe Inv (λ _, True) (limit_consecutive_shifts sh ns days nd ls nc) e.
Proof. intros. unfold limit_consecutive_shifts. repeat st_step. Qed.

Lemma st_distribute_night_shifts_evenly sh ns days m si e :
  Inv e →
  safe Inv (λ _, True) (distribute_night_shifts_evenly sh ns days m si) e.
Proof. intros. unfold distribute_night_shifts_evenly. repeat st_step. Qed.

Section with_new_variables.
Hypothesis Hnew : ∀ e name, Inv e →
  Inv (mkEnv (mkCpModel (variables (cp e) ++ [name]) (constraints (cp e)))
             (reads e)).

Lemma st_NewBoolVar name e : Inv e → safe Inv (λ _, True) (NewBoolVar name) e.
Proof.
  intros HI. unfold safe, wp, NewBoolVar. cbn. split; [|done]. by apply Hnew.
Qed.

Lemma st_limit_shifts_after_shifts sh ns days fs ls nc al e :
  Inv e →
  safe Inv (λ _, True) (limit_shifts_after_shifts sh ns days fs ls nc al) e.
Proof.
  intros. unfold limit_shifts_after_shifts.
  repeat first [apply st_NewBoolVar | st_step].
Qed.

Lemma st_assign_consecutive_shifts sh ns rs days ds sd nd ssd si nc e :
  Inv e →
  safe Inv (λ _, True)
    (assign_consecutive_shifts sh ns rs days ds sd nd ssd si nc) e.
Proof.
  intros. unfold assign_consecutive_shifts.
  repeat first [apply st_NewBoolVar | st_step].
Qed.

End with_new_variables.
End stable.

Lemma safe_final {A} (Inv : Env → Prop) (m : M A) e :
  safe Inv (λ _, True) m e → Inv (m e).2.
Proof.
  unfold safe, wp. destruct (m e) as [[a|x] e']; cbn; [by intros []|done].
Qed.

Lemma extends_read e0 e k :
  extends e0 e → extends e0 (mkEnv (cp e) (reads e ++ [k])).
Proof.
  intros (Hv & Hc & Hr). repeat split; cbn; [done..|by apply prefix_app_r].
Qed.

Lemma extends_add e0 e c :
  extends e0 e →
  extends e0 (mkEnv (mkCpModel (variables (cp e)) (constraints (cp e) ++ [c]))
                    (reads e)).
Proof.
  intros (Hv & Hc & Hr). repeat split; cbn; [done|by apply prefix_app_r|done].
Qed.

Lemma extends_new e0 e name :
  extends e0 e →
  extends e0 (mkEnv (mkCpModel (variables (cp e) ++ [name])
                               (constraints (cp e))) (reads e)).
Proof.
  intros (Hv & Hc & Hr). repeat split; cbn; [by apply prefix_app_r|done..].
Qed.

(** X7. Monotonic accumulation. Each of the nine rules of the library
    only appends: whatever its arguments, and whether it returns or
    raises half way, the variables and the constraints that were in the
    model before are still there, unchanged and in place. The two
    rules that hand literals to the library, [single_nurse_per_shift]
    and [limit_consecutive_shifts], never create a variable; nor do
    [limit_nurse_per_team_per_day], [distribute_shifts_evenly] and
    [distribute_night_shifts_evenly] when their sums are not empty. *)
Theorem rules_only_append (sh : gmap (Z * Z * Z) nat) (ns : list NurseRow)
    (days : list Z) (ds : list (Z * string)) :
  (∀ pl sl, only_appends (limit_shifts_per_period sh ns days ds pl sl)) ∧
  (only_appends (single_nurse_per_shift sh ns days ds) ∧
   creates_no_variable (single_nurse_per_shift sh ns days ds)) ∧
  (∀ nl, only_appends (limit_nurse_per_team_per_day sh ns days ds nl) ∧
         (ds ≠ [] →
          creates_no_variable
            (limit_nurse_per_team_per_day sh ns days ds nl))) ∧
  (∀ m t, only_appends (distribute_shifts_evenly sh ns days ds m t) ∧
          (days ≠ [] → ds ≠ [] →
           creates_no_variable (distribute_shifts_evenly sh ns days ds m t))) ∧
  (∀ nd sl, only_appends (max_shifts_per_week sh ns days ds nd sl)) ∧
  (∀ nd ls nc, only_appends (limit_consecutive_shifts sh ns days nd ls nc) ∧
               creates_no_variable
                 (limit_consecutive_shifts sh ns days nd ls nc)) ∧
  (∀ m si, only_appends (distribute_night_shifts_evenly sh ns days m si) ∧
           (days ≠ [] →
            creates_no_variable
              (distribute_night_shifts_evenly sh ns days m si))) ∧
  (∀ fs ls nc al,
     only_appends (limit_shifts_after_shifts sh ns days fs ls nc al)) ∧
  (∀ rs sd nd ssd si nc,
     only_appends (assign_consecutive_shifts sh ns rs days ds sd nd ssd si nc)).
Proof.
  assert (H7 : ∀ m : M unit,
            (∀ Inv : Env → Prop,
               (∀ e k, Inv e → Inv (mkEnv (cp e) (reads e ++ [k]))) →
               (∀ e c, Inv e →
                  Inv (mkEnv (mkCpModel (variables (cp e))
                                (constraints (cp e) ++ [c])) (reads e))) →
               ∀ e, Inv e → safe Inv (λ _, True) m e) →
            only_appends m ∧ creates_no_variable m).
  { intros m Hm. split; intros e.
    - apply (safe_final (extends e)), Hm; [| |done].
      + intros. by apply extends_read.
      + intros. by apply extends_add.
    - apply (safe_final (λ e', variables (cp e') = variables (cp e))), Hm;
        done. }
  assert (H2 : ∀ m : M unit,
            (∀ Inv : Env → Prop,
               (∀ e k, Inv e → Inv (mkEnv (cp e) (reads e ++ [k]))) →
               (∀ e c, Inv e →
                  Inv (mkEnv (mkCpModel (variables (cp e))
                                (constraints (cp e) ++ [c])) (reads e))) →
               (∀ e name, Inv e →
                  Inv (mkEnv (mkCpModel (variables (cp e) ++ [name])
                                (constraints (cp e))) (reads e))) →
               ∀ e, Inv e → safe Inv (λ _, True) m e) →
            only_appends m).
  { intros m Hm e.
    apply (safe_final (extends e)), Hm; [| | |done].
    - intros. by apply extends_read.
    - intros. by apply extends_add.
    - intros. by apply extends_new. }
  split. { intros. apply H7. intros. by apply st_limit_shifts_per_period. }
  split. { apply H7. intros. by apply st_single_nurse_per_shift. }
  split.
  { intros nl.
    destruct (H7 (limit_nurse_per_team_per_day sh ns days ds nl)) as [Ha Hn];
      [intros; by apply st_limit_nurse_per_team_per_day|].
    split; [exact Ha|intros _; exact Hn]. }
  split.
  { intros m t.
    destruct (H7 (distribute_shifts_evenly sh ns days ds m t)) as [Ha Hn];
      [intros; by apply st_distribute_shifts_evenly|].
    split; [exact Ha|intros _ _; exact Hn]. }
  split. { intros. apply H7. intros. by apply st_max_shifts_per_week. }
  split. { intros. apply H7. intros. by apply st_limit_consecutive_shifts. }
  split.
  { intros m si.
    destruct (H7 (distribute_night_shifts_evenly sh ns days m si))
      as [Ha Hn]; [intros; by apply st_distribute_night_shifts_evenly|].
    split; [exact Ha|intros _; exact Hn]. }
  split. { intros. apply H2. intros. by apply st_limit_shifts_after_shifts. }
  intros. apply H2. intros. by apply st_assign_consecutive_shifts.
Qed.

(** ** The thirteen rule applications of add_constraints *)

Lemma total_seq {A B} (m : M A) (k : M B) e (Q : B → Env → Prop) :
  total m e (λ _ _, True) →
  (∀ e1, extends e e1 → total k e1 Q) →
  total (m ;; k) e Q.
Proof.
  intros Hm Hk. apply total_bind. eapply total_conseq; [exact Hm|].
  intros a e1 Hext _. by apply Hk.
Qed.

Lemma total_weaken {A} (m : M A) e (Q : A → Env → Prop) :
  total m e Q → total m e (λ _ _, True).
Proof. intros H. eapply total_conseq; [exact H|done]. Qed.

Lemma days_where_spec want start_day days :
  start_day ∈ days_of_week →
  days_where want start_day days =
    Ok (filter (λ d, weekend_flag start_day d = Some want) days).
Proof.
  intros Hs. induction days as [|d days IH]; [done|].
  destruct (proj2 (what_day_Ok_iff d start_day) Hs) as [[name flag] Hwd].
  cbn [days_where]. rewrite Hwd, IH. cbn [obind snd]. f_equal.
  destruct (decide (flag = want)) as [->|Hne].
  - rewrite filter_cons_True; [done|]. unfold weekend_flag. by rewrite Hwd.
  - rewrite filter_cons_False; [done|]. unfold weekend_flag. rewrite Hwd.
    cbn. congruence.
Qed.

Section pipeline.
Variables (nurses : list NurseRow) (daily_shifts : list (Z * string)).
Variables (num_days : Z) (sh : gmap (Z * Z * Z) nat) (rs : gmap (Z * Z) nat).
Hypothesis Hnd : 0 ≤ num_days.
Hypothesis Hsh : ∀ n d s, n ∈ col_Nurse nurses → 0 ≤ d < num_days →
  s ∈ shift_keys daily_shifts → is_Some (sh !! (n, d, s)).
Hypothesis Hrs : ∀ n d, n ∈ col_Nurse nurses → 0 ≤ d < num_days →
  is_Some (rs !! (n, d)).

Lemma pipeline_period period_length shift_limit e :
  0 < period_length →
  total (limit_shifts_per_period sh nurses (range 0 num_days) daily_shifts
           period_length shift_limit) e (λ _ _, True).
Proof.
  intros Hpl.
  destruct (slice_step_range num_days period_length 0 Hpl)
    as (periods & Hslice & _).
  eapply total_weaken, limit_shifts_per_period_total; [exact Hslice|].
  intros p n d s Hp Hn Hd Hs. apply Hsh; [done| |done].
  rewrite len_range in Hd by done. apply elem_of_range in Hd.
  assert (0 ≤ p); [|lia].
  destruct (slice_step_range num_days period_length p Hpl)
    as (periods' & Hslice' & Hp').
  assert (periods' = periods) as -> by congruence.
  apply Hp' in Hp as (j & ? & -> & _). nia.
Qed.

Lemma pipeline_coverage e :
  total (single_nurse_per_shift sh nurses (range 0 num_days) daily_shifts) e
    (λ _ _, True).
Proof.
  eapply total_weaken, single_nurse_per_shift_total.
  intros n d s Hn Hd Hs. apply Hsh; [done| |done]. by apply elem_of_range.
Qed.

Lemma pipeline_block start_day start_shift_day shift_index num_consecutive e :
  start_day ∈ days_of_week →
  shift_index ∈ shift_keys daily_shifts →
  0 ≤ num_consecutive →
  total (assign_consecutive_shifts sh nurses rs (range 0 num_days)
           daily_shifts start_day num_days start_shift_day shift_index
           num_consecutive) e (λ _ _, True).
Proof.
  intros Hs Hsi Hnc.
  eapply total_weaken, assign_consecutive_shifts_total; try done.
  - intros d Hd. by apply elem_of_range in Hd.
  - intros n d s Hn Hd [Hk| ->]; by apply Hsh.
Qed.

Lemma pipeline_even days ds tolerance e :
  nurses ≠ [] →
  (∀ d, d ∈ days → 0 ≤ d < num_days) →
  (∀ s, s ∈ shift_keys ds → s ∈ shift_keys daily_shifts) →
  total (distribute_shifts_evenly sh nurses days ds (len nurses) tolerance) e
    (λ _ _, True).
Proof.
  intros Hne Hdays Hds.
  eapply total_weaken. apply distribute_shifts_evenly_total.
  - intros n d s Hn Hd Hk. apply Hsh; eauto.
  - unfold len. destruct nurses; [done|]. cbn. lia.
Qed.

Lemma pipeline_night shift_index e :
  nurses ≠ [] →
  shift_index ∈ shift_keys daily_shifts →
  total (distribute_night_shifts_evenly sh nurses (range 0 num_days)
           (len nurses) shift_index) e (λ _ _, True).
Proof.
  intros Hne Hsi.
  eapply total_weaken. apply distribute_night_shifts_evenly_total.
  - intros n d Hn Hd. apply Hsh; [done| |done]. by apply elem_of_range.
  - unfold len. destruct nurses; [done|]. cbn. lia.
Qed.

Lemma pipeline_consecutive limited num_consecutive e :
  (∀ s, s ∈ limited → s ∈ shift_keys daily_shifts) →
  total (limit_consecutive_shifts sh nurses (range 0 num_days) num_days
           limited num_consecutive) e (λ _ _, True).
Proof.
  intros Hl. eapply total_weaken, limit_consecutive_shifts_total.
  intros n d off s Hn Hd Hoff Hs. apply elem_of_range in Hd.
  apply Hsh; [done|lia|eauto].
Qed.

Lemma pipeline_follow_on first limited num_consecutive allowed e :
  (∀ s, s ∈ first ∨ s ∈ limited → s ∈ shift_keys daily_shifts) →
  total (limit_shifts_after_shifts sh nurses (range 0 num_days) first
           limited num_consecutive allowed) e (λ _ _, True).
Proof.
  intros Hl. eapply total_weaken, limit_shifts_after_shifts_total.
  - intros d Hd. apply elem_of_range in Hd. lia.
  - intros n d s Hn Hd Hs. rewrite len_range in Hd by done. eauto.
  - intros d Hd. apply elem_of_range in Hd. rewrite len_range by done. lia.
Qed.

Lemma pipeline_team nurse_limit e :
  total (limit_nurse_per_team_per_day sh nurses (range 0 num_days)
           daily_shifts nurse_limit) e (λ _ _, True).
Proof.
  eapply total_weaken, limit_nurse_per_team_per_day_total.
  intros n d s Hn Hd Hs. apply Hsh; [done| |done]. by apply elem_of_range.
Qed.

End pipeline.

Lemma filter_days_in_range (P : Z → Prop) `{∀ d, Decision (P d)} num_days d :
  d ∈ filter P (range 0 num_days) → 0 ≤ d < num_days.
Proof.
  intros Hd. apply list_elem_of_filter in Hd as [_ Hd].
  by apply elem_of_range in Hd.
Qed.

Lemma range_cons (a b : Z) : a < b → range a b = a :: range (a + 1) b.
Proof.
  intros Hab. unfold range.
  replace (Z.to_nat (b - a)) with (S (Z.to_nat (b - (a + 1)))) by lia.
  cbn [seq fmap list_fmap]. f_equal; [lia|].
  rewrite <- fmap_S_seq, <- list_fmap_compose. apply list_fmap_ext.
  intros i x _. cbn. lia.
Qed.

Lemma range_single (d : Z) : range d (d + 1) = [d].
Proof.
  rewrite range_cons by lia. f_equal. unfold range.
  by replace (d + 1 - (d + 1)) with 0 by lia.
Qed.

Lemma bind_singleton {A B} (f : A → B) (l : list A) :
  (x ← l; [f x]) = f <$> l.
Proof. induction l as [|x l IH]; [done|]. cbn. by rewrite IH. Qed.

Lemma total_seq_fact {A B} (m : M A) (k : M B) e (F : Env → Prop)
    (Q : B → Env → Prop) :
  total m e (λ _ e1, F e1) →
  (∀ e1 e2, F e1 → extends e1 e2 → F e2) →
  (∀ e1, extends e e1 → total k e1 Q) →
  total (m ;; k) e (λ b e2, F e2 ∧ Q b e2).
Proof.
  intros Hm Hst Hk. apply total_bind. eapply total_conseq; [exact Hm|].
  intros a e1 Hext HF. cbn beta.
  eapply total_conseq; [by apply Hk|]. intros b e2 Hext2 HQ. eauto.
Qed.

Lemma daily_cap_stable sh nurses daily_shifts num_days e1 e2 :
  daily_cap_added sh nurses daily_shifts num_days e1 → extends e1 e2 →
  daily_cap_added sh nurses daily_shifts num_days e2.
Proof.
  intros H Hext n d Hn Hd. destruct (H n d Hn Hd) as (vs & Hvs & Hc).
  exists vs. split; [done|]. by eapply extends_constraint.
Qed.

Lemma coverage_stable sh nurses daily_shifts num_days e1 e2 :
  coverage_added sh nurses daily_shifts num_days e1 → extends e1 e2 →
  coverage_added sh nurses daily_shifts num_days e2.
Proof.
  intros H Hext d s Hd Hs. destruct (H d s Hd Hs) as (vs & Hvs & Hc).
  exists vs. split; [done|]. by eapply extends_constraint.
Qed.

Lemma daily_cap_total (nurses : list NurseRow)
    (daily_shifts : list (Z * string)) (num_days : Z)
    (sh : gmap (Z * Z * Z) nat) (e : Env) :
  0 ≤ num_days →
  (∀ n d s, n ∈ col_Nurse nurses → 0 ≤ d < num_days →
     s ∈ shift_keys daily_shifts → is_Some (sh !! (n, d, s))) →
  total (limit_shifts_per_period sh nurses (range 0 num_days) daily_shifts
           1 1) e
    (λ _ e', daily_cap_added sh nurses daily_shifts num_days e').
Proof.
  intros Hnd Hsh.
  destruct (slice_step_range num_days 1 0) as (periods & Hslice & _); [lia|].
  eapply total_conseq.
  - eapply limit_shifts_per_period_total; [exact Hslice|].
    intros p n d s Hp Hn Hd Hs. apply Hsh; [done| |done].
    rewrite len_range in Hd by done. apply elem_of_range in Hd.
    assert (0 ≤ p); [|lia].
    destruct (slice_step_range num_days 1 p) as (periods' & Hslice' & Hp');
      [lia|].
    assert (periods' = periods) as -> by congruence.
    apply Hp' in Hp as (j & ? & -> & _). lia.
  - intros [] e' _ Hpost n d Hn Hd. cbn beta in Hpost.
    destruct (slice_step_range num_days 1 d) as (periods' & Hslice' & Hp');
      [lia|].
    assert (periods' = periods) as -> by congruence.
    destruct (Hpost d) with (n := n) as (vs & Hvs & Hc); [|done|].
    { apply Hp'. exists d. lia. }
    exists vs. split; [|done].
    rewrite len_range in Hvs by done.
    rewrite Z.min_l in Hvs by lia. rewrite range_single in Hvs.
    cbn [mbind list_bind] in Hvs. rewrite app_nil_r in Hvs.
    rewrite bind_singleton in Hvs. by apply Forall2_fmap_l in Hvs.
Qed.

Lemma coverage_total (nurses : list NurseRow)
    (daily_shifts : list (Z * string)) (num_days : Z)
    (sh : gmap (Z * Z * Z) nat) (e : Env) :
  (∀ n d s, n ∈ col_Nurse nurses → 0 ≤ d < num_days →
     s ∈ shift_keys daily_shifts → is_Some (sh !! (n, d, s))) →
  total (single_nurse_per_shift sh nurses (range 0 num_days) daily_shifts) e
    (λ _ e', coverage_added sh nurses daily_shifts num_days e').
Proof.
  intros Hsh. eapply total_conseq.
  - apply single_nurse_per_shift_total.
    intros n d s Hn Hd Hs. apply Hsh; [done| |done]. by apply elem_of_range.
  - intros [] e' _ Hpost d s Hd Hs. apply Hpost; [|done].
    by apply elem_of_range.
Qed.

Lemma team_cap_total (nurses : list NurseRow)
    (daily_shifts : list (Z * string)) (num_days : Z)
    (sh : gmap (Z * Z * Z) nat) (e : Env) :
  (∀ n d s, n ∈ col_Nurse nurses → 0 ≤ d < num_days →
     s ∈ shift_keys daily_shifts → is_Some (sh !! (n, d, s))) →
  total (limit_nurse_per_team_per_day sh nurses (range 0 num_days)
           daily_shifts 1) e
    (λ _ e', team_cap_added sh nurses daily_shifts num_days e').
Proof.
  intros Hsh. eapply total_conseq.
  - apply limit_nurse_per_team_per_day_total.
    intros n d s Hn Hd Hs. apply Hsh; [done| |done]. by apply elem_of_range.
  - intros [] e' _ Hpost d t Hd Ht.
    apply (Hpost d (proj2 (elem_of_range _ _ _) Hd)
             (t, filter (λ r, Team r = t) nurses)).
    by apply elem_of_groupby_Team.
Qed.

Lemma add_constraints_body_facts nurses daily_shifts num_days start_day
    self e :
  Scheduler.post_init nurses daily_shifts num_days start_day = Ok self →
  nurses ≠ [] →
  0 ≤ num_days →
  (∀ s, s ∈ [0; 1; 2] → s ∈ shift_keys daily_shifts) →
  start_day ∈ days_of_week →
  total (Scheduler.add_constraints_body self) e
    (λ _ e',
       daily_cap_added (Scheduler.shifts self) nurses daily_shifts num_days e'
       ∧ coverage_added (Scheduler.shifts self) nurses daily_shifts
           num_days e'
       ∧ team_cap_added (Scheduler.shifts self) nurses daily_shifts
           num_days e').
Proof.
  intros Hinit Hne Hnd Hkeys Hstart.
  destruct (post_init_built _ _ _ _ _ Hinit)
    as (Hns & Hds & Hn & Hsd & Hdays & Hnn & Hb).
  assert (Hsh : ∀ n d s, n ∈ col_Nurse nurses → 0 ≤ d < num_days →
            s ∈ shift_keys daily_shifts →
            is_Some (Scheduler.shifts self !! (n, d, s))).
  { intros n d s ? Hd ?. eapply built_shift_lookup; eauto.
    by apply elem_of_range. }
  assert (Hrs : ∀ n d, n ∈ col_Nurse nurses → 0 ≤ d < num_days →
            is_Some (Scheduler.rest_days self !! (n, d))).
  { intros n d ? Hd. eapply built_rest_lookup; eauto.
    by apply elem_of_range. }
  assert (H0 : 0 ∈ shift_keys daily_shifts) by (apply Hkeys; left).
  assert (H1 : 1 ∈ shift_keys daily_shifts) by (apply Hkeys; right; left).
  assert (H2 : 2 ∈ shift_keys daily_shifts)
    by (apply Hkeys; right; right; left).
  assert (H01 : ∀ s, s ∈ [0; 1] → s ∈ shift_keys daily_shifts).
  { intros s Hs. apply elem_of_cons in Hs as [->|Hs]; [done|].
    by apply list_elem_of_singleton in Hs as ->. }
  unfold Scheduler.add_constraints_body.
  rewrite Hns, Hds, Hn, Hsd, Hdays, Hnn.
  apply total_seq_fact;
    [by apply daily_cap_total|apply daily_cap_stable|]. intros e1 _.
  apply total_seq_fact;
    [by apply coverage_total|apply coverage_stable|]. intros e2 _.
  apply total_seq; [by eapply pipeline_block|]. intros e3 _.
  apply total_seq; [by eapply pipeline_block|]. intros e4 _.
  apply total_seq.
  { eapply pipeline_even; try done.
    - intros d Hd. by apply elem_of_range in Hd.
    - intros s Hs. by apply list_elem_of_singleton in Hs as ->. }
  intros e5 _.
  apply total_seq; [by eapply pipeline_night|]. intros e6 _.
  apply total_seq.
  { eapply pipeline_even; try done.
    intros d Hd. by apply elem_of_range in Hd. }
  intros e7 _.
  rewrite days_where_spec by done. apply total_bind, total_lift.
  apply total_seq.
  { eapply pipeline_even; try done.
    intros d Hd. by apply filter_days_in_range in Hd. }
  intros e8 _.
  rewrite days_where_spec by done. apply total_bind, total_lift.
  apply total_seq.
  { eapply pipeline_even; try done.
    intros d Hd. by apply filter_days_in_range in Hd. }
  intros e9 _.
  apply total_seq; [by eapply pipeline_consecutive|].
  intros e10 _.
  apply total_seq; [by eapply pipeline_period|]. intros e11 _.
  apply total_seq.
  { eapply pipeline_follow_on; try done.
    intros s [Hs|Hs]; [by apply H01|].
    by apply list_elem_of_singleton in Hs as ->. }
  intros e12 _. by apply team_cap_total.
Qed.

Lemma add_constraints_body_total nurses daily_shifts num_days start_day
    self e :
  Scheduler.post_init nurses daily_shifts num_days start_day = Ok self →
  nurses ≠ [] →
  0 ≤ num_days →
  (∀ s, s ∈ [0; 1; 2] → s ∈ shift_keys daily_shifts) →
  start_day ∈ days_of_week →
  total (Scheduler.add_constraints_body self) e (λ _ _, True).
Proof.
  intros. eapply total_weaken. by eapply add_constraints_body_facts.
Qed.

(** X8. [add_constraints] of scheduler.py runs to its end on a
    freshly constructed scheduler as soon as the roster is not empty,
    the horizon is not negative, the shift mapping has the indices 0,
    1 and 2 that the method names, and the starting weekday is one of
    the seven; the variables created at construction keep their
    handles and the dictionaries are untouched. *)
Theorem add_constraints_succeeds nurses daily_shifts num_days start_day self :
  Scheduler.post_init nurses daily_shifts num_days start_day = Ok self →
  nurses ≠ [] →
  0 ≤ num_days →
  (∀ s, s ∈ [0; 1; 2] → s ∈ shift_keys daily_shifts) →
  start_day ∈ days_of_week →
  ∃ self',
    Scheduler.add_constraints self = (Ok (), self') ∧
    variables (Scheduler.model self)
      `prefix_of` variables (Scheduler.model self') ∧
    Scheduler.shifts self' = Scheduler.shifts self ∧
    Scheduler.rest_days self' = Scheduler.rest_days self.
Proof.
  intros Hinit Hne Hnd Hkeys Hstart.
  destruct (add_constraints_body_total _ _ _ _ _
              (mkEnv (Scheduler.model self) []) Hinit Hne Hnd Hkeys Hstart)
    as ([] & e' & Hrun & Hext & _).
  unfold Scheduler.add_constraints. rewrite Hrun.
  eexists. split; [reflexivity|]. cbn. split; [apply Hext|done].
Qed.

Lemma add_constraints_succeeds_witness :
  ∃ self,
    Scheduler.post_init demo_nurses ed_shifts 9 "Friday" = Ok self ∧
    demo_nurses ≠ [] ∧
    0 ≤ 9 ∧
    (∀ s, s ∈ [0; 1; 2] → s ∈ shift_keys ed_shifts) ∧
    "Friday"%string ∈ days_of_week ∧
    ∃ self',
      Scheduler.add_constraints self = (Ok (), self') ∧
      variables (Scheduler.model self)
        `prefix_of` variables (Scheduler.model self') ∧
      Scheduler.shifts self' = Scheduler.shifts self ∧
      Scheduler.rest_days self' = Scheduler.rest_days self.
Proof.
  destruct (post_init_Ok demo_nurses ed_shifts 9 "Friday") as [self Hself].
  assert (H1 : demo_nurses ≠ []) by done.
  assert (H2 : 0 ≤ 9) by lia.
  assert (H3 : ∀ s, s ∈ [0; 1; 2] → s ∈ shift_keys ed_shifts) by done.
  assert (H4 : "Friday"%string ∈ days_of_week)
    by (do 4 right; left).
  exists self. split; [exact Hself|]. split; [exact H1|]. split; [exact H2|].
  split; [exact H3|]. split; [exact H4|].
  exact (add_constraints_succeeds demo_nurses ed_shifts 9 "Friday" self
           Hself H1 H2 H3 H4).
Defined.

Lemma run_seq_Ok {A} (m1 : M unit) (m2 : M A) e e1 :
  m1 e = (Ok (), e1) → (m1 ;; m2) e = m2 e1.
Proof. intros H. unfold bind. by rewrite H. Qed.

Lemma run_seq_Raise {A} (m1 : M unit) (m2 : M A) e e1 x :
  m1 e = (Raise x, e1) → (m1 ;; m2) e = (Raise x, e1).
Proof. intros H. unfold bind. by rewrite H. Qed.

(** X9. An empty roster passes construction but not [add_constraints]:
    with a starting weekday among the seven, the first four rules run
    (over no nurse at all) and the fifth divides by the number of
    nurses, so the method raises [ZeroDivisionError]. *)
Theorem add_constraints_empty_roster daily_shifts num_days start_day self :
  Scheduler.post_init [] daily_shifts num_days start_day = Ok self →
  0 ≤ num_days →
  start_day ∈ days_of_week →
  (Scheduler.add_constraints self).1 = Raise ZeroDivisionError.
Proof.
  intros Hinit Hnd Hstart.
  destruct (post_init_built _ _ _ _ _ Hinit)
    as (Hns & Hds & Hn & Hsd & Hdays & Hnn & Hb).
  assert (Hsh : ∀ n d s, n ∈ col_Nurse [] → 0 ≤ d < num_days →
            s ∈ shift_keys daily_shifts →
            is_Some (Scheduler.shifts self !! (n, d, s))).
  { intros n d s Hn'. by apply elem_of_nil in Hn'. }
  assert (Hsh' : ∀ n d s, n ∈ col_Nurse [] → 0 ≤ d < num_days →
            s ∈ shift_keys daily_shifts ∨ s = 2 →
            is_Some (Scheduler.shifts self !! (n, d, s))).
  { intros n d s Hn'. by apply elem_of_nil in Hn'. }
  assert (Hrs : ∀ n d, n ∈ col_Nurse [] → 0 ≤ d < num_days →
            is_Some (Scheduler.rest_days self !! (n, d))).
  { intros n d Hn'. by apply elem_of_nil in Hn'. }
  assert (Hin : ∀ d, d ∈ range 0 num_days → 0 ≤ d < num_days).
  { intros d Hd. by apply elem_of_range in Hd. }
  unfold Scheduler.add_constraints, Scheduler.add_constraints_body.
  rewrite Hns, Hds, Hn, Hsd, Hdays, Hnn.
  set (e0 := mkEnv (Scheduler.model self) []).
  destruct (pipeline_period [] daily_shifts num_days (Scheduler.shifts self)
              Hnd Hsh 1 1 e0) as ([] & e1 & H1 & _); [lia|].
  rewrite (run_seq_Ok _ _ _ _ H1).
  destruct (pipeline_coverage [] daily_shifts num_days (Scheduler.shifts self)
              Hsh e1) as ([] & e2 & H2 & _).
  rewrite (run_seq_Ok _ _ _ _ H2).
  destruct (assign_consecutive_shifts_total (Scheduler.shifts self) []
              (Scheduler.rest_days self) (range 0 num_days) daily_shifts
              start_day num_days "Monday" 2 3 e2 Hstart Hin)
    as ([] & e3 & H3 & _); [lia|done..|].
  rewrite (run_seq_Ok _ _ _ _ H3).
  destruct (assign_consecutive_shifts_total (Scheduler.shifts self) []
              (Scheduler.rest_days self) (range 0 num_days) daily_shifts
              start_day num_days "Thursday" 2 4 e3 Hstart Hin)
    as ([] & e4 & H4 & _); [lia|done..|].
  rewrite (run_seq_Ok _ _ _ _ H4).
  reflexivity.
Qed.

Lemma add_constraints_empty_roster_witness :
  ∃ self,
    Scheduler.post_init [] ed_shifts 7 "Monday" = Ok self ∧
    0 ≤ 7 ∧
    "Monday"%string ∈ days_of_week ∧
    (Scheduler.add_constraints self).1 = Raise ZeroDivisionError.
Proof.
  destruct (post_init_Ok [] ed_shifts 7 "Monday") as [self Hself].
  assert (H1 : 0 ≤ 7) by lia.
  assert (H2 : "Monday"%string ∈ days_of_week) by left.
  exists self. split; [exact Hself|]. split; [exact H1|]. split; [exact H2|].
  exact (add_constraints_empty_roster ed_shifts 7 "Monday" self Hself H1 H2).
Defined.

Lemma what_day_Raise (day : Z) (start_day : string) :
  start_day ∉ days_of_week → what_day day start_day = Raise ValueError.
Proof.
  intros Hs. unfold what_day.
  destruct (list_index days_of_week start_day) as [i|x] eqn:Hidx.
  - exfalso. apply Hs. by apply index_from_Ok in Hidx.
  - by apply index_from_Raise in Hidx as [-> _].
Qed.

(** X10. A starting weekday that is not one of the seven names is not
    refused at construction; on a horizon of at least one day
    [add_constraints] runs its first two rules and then raises
    [ValueError], from [what_day], in the first block rule. *)
Theorem add_constraints_unknown_start_day
    nurses daily_shifts num_days start_day self :
  Scheduler.post_init nurses daily_shifts num_days start_day = Ok self →
  0 < num_days →
  start_day ∉ days_of_week →
  (Scheduler.add_constraints self).1 = Raise ValueError.
Proof.
  intros Hinit Hnd Hstart.
  destruct (post_init_built _ _ _ _ _ Hinit)
    as (Hns & Hds & Hn & Hsd & Hdays & Hnn & Hb).
  assert (Hsh : ∀ n d s, n ∈ col_Nurse nurses → 0 ≤ d < num_days →
            s ∈ shift_keys daily_shifts →
            is_Some (Scheduler.shifts self !! (n, d, s))).
  { intros n d s ? Hd ?. eapply built_shift_lookup; eauto.
    by apply elem_of_range. }
  unfold Scheduler.add_constraints, Scheduler.add_constraints_body.
  rewrite Hns, Hds, Hn, Hsd, Hdays, Hnn.
  set (e0 := mkEnv (Scheduler.model self) []).
  assert (Hnd' : 0 ≤ num_days) by lia.
  destruct (pipeline_period nurses daily_shifts num_days
              (Scheduler.shifts self) Hnd' Hsh 1 1 e0)
    as ([] & e1 & H1 & _); [lia|].
  rewrite (run_seq_Ok _ _ _ _ H1).
  destruct (pipeline_coverage nurses daily_shifts num_days
              (Scheduler.shifts self) Hsh e1) as ([] & e2 & H2 & _).
  rewrite (run_seq_Ok _ _ _ _ H2).
  erewrite run_seq_Raise; [reflexivity|].
  unfold assign_consecutive_shifts.
  rewrite range_cons by done. cbn [for_each].
  apply run_seq_Raise. unfold bind, lift.
  by rewrite what_day_Raise.
Qed.

Lemma add_constraints_unknown_start_day_witness :
  ∃ self,
    Scheduler.post_init demo_nurses ed_shifts 7 "monday" = Ok self ∧
    0 < 7 ∧
    ("monday"%string ∉ days_of_week) ∧
    (Scheduler.add_constraints self).1 = Raise ValueError.
Proof.
  destruct (post_init_Ok demo_nurses ed_shifts 7 "monday") as [self Hself].
  assert (H1 : 0 < 7) by lia.
  assert (H2 : "monday"%string ∉ days_of_week).
  { apply (bool_decide_unpack _). vm_compute. exact I. }
  exists self. split; [exact Hself|]. split; [exact H1|]. split; [exact H2|].
  exact (add_constraints_unknown_start_day demo_nurses ed_shifts 7 "monday"
           self Hself H1 H2).
Defined.

(** ** Which exceptions the rules raise *)

Section raises.
Variable P : exn → Prop.
Hypothesis HK : P KeyError.

Lemma ro_ret {A} (a : A) : raises_only P (ret a).
Proof. by intros e. Qed.

Lemma ro_bind {A B} (m : M A) (k : A → M B) :
  raises_only P m → (∀ a, raises_only P (k a)) → raises_only P (bind m k).
Proof.
  intros Hm Hk e. apply wp_bind. eapply wp_conseq; [apply Hm| |done].
  intros a e1 _. apply Hk.
Qed.

Lemma ro_for_each {A} (xs : list A) (body : A → M unit) :
  (∀ x, raises_only P (body x)) → raises_only P (for_each xs body).
Proof.
  intros Hbody. induction xs as [|x xs IH]; cbn [for_each].
  - apply ro_ret.
  - apply ro_bind; [apply Hbody|]. intros _. exact IH.
Qed.

Lemma ro_mapM {A B} (f : A → M B) (xs : list A) :
  (∀ x, raises_only P (f x)) → raises_only P (mapM f xs).
Proof.
  intros Hf. induction xs as [|x xs IH]; cbn [mapM].
  - apply ro_ret.
  - apply ro_bind; [apply Hf|]. intros y.
    apply ro_bind; [exact IH|]. intros ys. apply ro_ret.
Qed.

Lemma ro_getitem_shifts (shifts : gmap (Z * Z * Z) nat) k :
  raises_only P (getitem_shifts shifts k).
Proof.
  intros e. unfold wp, getitem_shifts. by destruct (shifts !! k).
Qed.

Lemma ro_getitem_rest (rest_days : gmap (Z * Z) nat) k :
  raises_only P (getitem_rest rest_days k).
Proof.
  intros e. unfold wp, getitem_rest. by destruct (rest_days !! k).
Qed.

Lemma ro_Add c : raises_only P (Add c).
Proof. by intros e. Qed.

Lemma ro_NewBoolVar name : raises_only P (NewBoolVar name).
Proof. by intros e. Qed.

Lemma ro_lift {A} (o : outcome A) :
  (∀ x, o = Raise x → P x) → raises_only P (lift o).
Proof. intros Ho e. unfold wp, lift. destruct o; [done|]. by apply Ho. Qed.

Ltac ro_step :=
  match goal with
  | |- raises_only _ (bind _ _) => apply ro_bind
  | |- raises_only _ (for_each _ _) => apply ro_for_each
  | |- raises_only _ (mapM _ _) => apply ro_mapM
  | |- raises_only _ (shift_vars _ _ _ _) => apply ro_mapM
  | |- raises_only _ (getitem_shifts _ _) => apply ro_getitem_shifts
  | |- raises_only _ (getitem_rest _ _) => apply ro_getitem_rest
  | |- raises_only _ (Add _) => apply ro_Add
  | |- raises_only _ (NewBoolVar _) => apply ro_NewBoolVar
  | |- raises_only _ (ret _) => apply ro_ret
  | |- raises_only _ (if decide _ then _ else _) => case_decide
  | |- raises_only _ (match ?x with (_, _) => _ end) => destruct x
  | |- ∀ _, _ => intro
  end.

Lemma ro_single_nurse_per_shift sh ns days ds :
  raises_only P (single_nurse_per_shift sh ns days ds).
Proof. unfold single_nurse_per_shift. repeat ro_step. Qed.

Lemma ro_limit_nurse_per_team_per_day sh ns days ds nl :
  raises_only P (limit_nurse_per_team_per_day sh ns days ds nl).
Proof. unfold limit_nurse_per_team_per_day. repeat ro_step. Qed.

Lemma ro_limit_consecutive_shifts sh ns days nd ls nc :
  raises_only P (limit_consecutive_shifts sh ns days nd ls nc).
Proof. unfold limit_consecutive_shifts. repeat ro_step. Qed.

Lemma ro_limit_shifts_after_shifts sh ns days fs ls nc al :
  raises_only P (limit_shifts_after_shifts sh ns days fs ls nc al).
Proof. unfold limit_shifts_after_shifts. repeat ro_step. Qed.

Lemma ro_max_shifts_per_week sh ns days ds nd sl :
  raises_only P (max_shifts_per_week sh ns days ds nd sl).
Proof.
  unfold max_shifts_per_week. apply ro_bind.
  - apply ro_lift. intros x. unfold slice_step.
    rewrite decide_False by lia. by rewrite decide_True by lia.
  - repeat ro_step.
Qed.

Lemma ro_limit_shifts_per_period sh ns days ds pl sl :
  (pl = 0 → P ValueError) →
  raises_only P (limit_shifts_per_period sh ns days ds pl sl).
Proof.
  intros Hpl. unfold limit_shifts_per_period. apply ro_bind.
  - apply ro_lift. intros x. unfold slice_step.
    destruct (decide (pl = 0)); [intros [= <-]; auto|].
    by destruct (decide (0 < pl)).
  - repeat ro_step.
Qed.

Lemma ro_floordiv a b :
  (b = 0 → P ZeroDivisionError) → raises_only P (lift (floordiv a b)).
Proof.
  intros Hb. apply ro_lift. intros x. unfold floordiv.
  destruct (decide (b = 0)); [intros [= <-]; auto|done].
Qed.

Lemma ro_pymod a b :
  (b = 0 → P ZeroDivisionError) → raises_only P (lift (pymod a b)).
Proof.
  intros Hb. apply ro_lift. intros x. unfold pymod.
  destruct (decide (b = 0)); [intros [= <-]; auto|done].
Qed.

Lemma ro_distribute_shifts_evenly sh ns days ds m t :
  (m = 0 → P ZeroDivisionError) →
  raises_only P (distribute_shifts_evenly sh ns days ds m t).
Proof.
  intros Hm. unfold distribute_shifts_evenly.
  apply ro_bind; [by apply ro_floordiv|]. intros lo.
  apply ro_bind; [by apply ro_pymod|]. repeat ro_step.
Qed.

Lemma ro_distribute_night_shifts_evenly sh ns days m si :
  (m = 0 → P ZeroDivisionError) →
  raises_only P (distribute_night_shifts_evenly sh ns days m si).
Proof.
  intros Hm. unfold distribute_night_shifts_evenly.
  apply ro_bind; [by apply ro_floordiv|]. intros b.
  apply ro_bind; [by apply ro_pymod|]. repeat ro_step.
Qed.

Lemma ro_assign_consecutive_shifts sh ns rs days ds sd nd ssd si nc :
  (sd ∉ days_of_week → P ValueError) →
  raises_only P (assign_consecutive_shifts sh ns rs days ds sd nd ssd si nc).
Proof.
  intros Hsd. unfold assign_consecutive_shifts.
  apply ro_for_each. intros d. apply ro_bind.
  - apply ro_lift. intros x Hx.
    destruct (decide (sd ∈ days_of_week)) as [Hin|Hnin].
    + apply (what_day_Ok_iff d) in Hin as [wd Hwd]. congruence.
    + rewrite what_day_Raise in Hx by done. injection Hx as <-. auto.
  - repeat ro_step.
Qed.

End raises.

(** X11. The exceptions of the rule library, for integer parameters
    that a comparison takes (within the 64-bit integers) and a list of
    days of a length far below that range. Two rules can raise nothing
    but [KeyError], from a key missing in [shifts], and so can, with
    such a limit, [limit_nurse_per_team_per_day],
    [limit_shifts_after_shifts] and [max_shifts_per_week];
    [limit_shifts_per_period] can also raise [ValueError], only for a
    zero period; the two even-distribution rules can also raise
    [ZeroDivisionError], only for a zero nurse count;
    [assign_consecutive_shifts] can also raise [ValueError], only for a
    starting weekday that is not one of the seven names. No rule
    validates its parameters otherwise. *)
Theorem rule_exceptions (sh : gmap (Z * Z * Z) nat) (ns : list NurseRow)
    (days : list Z) (ds : list (Z * string)) :
  raises_only (λ x, x = KeyError) (single_nurse_per_shift sh ns days ds) ∧
  (∀ nl, fits_int64 nl →
         raises_only (λ x, x = KeyError)
           (limit_nurse_per_team_per_day sh ns days ds nl)) ∧
  (∀ nd ls nc, raises_only (λ x, x = KeyError)
                 (limit_consecutive_shifts sh ns days nd ls nc)) ∧
  (∀ fs ls nc al, fits_int64 al →
                  raises_only (λ x, x = KeyError)
                    (limit_shifts_after_shifts sh ns days fs ls nc al)) ∧
  (∀ nd sl, fits_int64 sl →
            raises_only (λ x, x = KeyError)
              (max_shifts_per_week sh ns days ds nd sl)) ∧
  (∀ pl sl, fits_int64 sl →
            raises_only (λ x, x = KeyError ∨ (x = ValueError ∧ pl = 0))
              (limit_shifts_per_period sh ns days ds pl sl)) ∧
  (∀ m t, fits_int64 ((len ds * len days) `div` m) →
          fits_int64 ((len ds * len days) `div` m + t) →
          raises_only (λ x, x = KeyError ∨ (x = ZeroDivisionError ∧ m = 0))
            (distribute_shifts_evenly sh ns days ds m t)) ∧
  (∀ m si, len days < 2 ^ 61 →
           raises_only (λ x, x = KeyError ∨ (x = ZeroDivisionError ∧ m = 0))
             (distribute_night_shifts_evenly sh ns days m si)) ∧
  (∀ rs sd nd ssd si nc,
     raises_only (λ x, x = KeyError ∨ (x = ValueError ∧ sd ∉ days_of_week))
       (assign_consecutive_shifts sh ns rs days ds sd nd ssd si nc)).
Proof.
  split; [by apply ro_single_nurse_per_shift|].
  split; [intros; by apply ro_limit_nurse_per_team_per_day|].
  split; [intros; by apply ro_limit_consecutive_shifts|].
  split; [intros; by apply ro_limit_shifts_after_shifts|].
  split; [intros; by apply ro_max_shifts_per_week|].
  split; [intros; apply ro_limit_shifts_per_period; auto|].
  split; [intros; apply ro_distribute_shifts_evenly; auto|].
  split; [intros; apply ro_distribute_night_shifts_evenly; auto|].
  intros. apply ro_assign_consecutive_shifts; auto.
Qed.

Lemma raises_then {A} (P : exn → Prop) (m1 : M unit) (m2 : M A) :
  raises_only P m1 →
  (∀ e, ∃ x e', m2 e = (Raise x, e') ∧ P x) →
  ∀ e, ∃ x e', (m1 ;; m2) e = (Raise x, e') ∧ P x.
Proof.
  intros H1 H2 e. specialize (H1 e). unfold wp in H1. unfold bind.
  destruct (m1 e) as [[[]|x] e1]; [apply H2|]. by exists x, e1.
Qed.

Lemma raises_now {A} (P : exn → Prop) (m1 : M unit) (m2 : M A) :
  (∀ e, ∃ x e', m1 e = (Raise x, e') ∧ P x) →
  ∀ e, ∃ x e', (m1 ;; m2) e = (Raise x, e') ∧ P x.
Proof.
  intros H1 e. destruct (H1 e) as (x & e' & H & HP).
  exists x, e'. split; [|done]. by apply run_seq_Raise.
Qed.

Lemma night_rule_missing_shift (sh : gmap (Z * Z * Z) nat) ns days m si :
  ns ≠ [] → days ≠ [] → m ≠ 0 →
  (∀ n d, sh !! (n, d, si) = None) →
  ∀ e, ∃ x e',
    distribute_night_shifts_evenly sh ns days m si e = (Raise x, e') ∧
    x = KeyError.
Proof.
  intros Hns Hdays Hm Hnone e.
  destruct ns as [|n ns]; [done|]. destruct days as [|d days]; [done|].
  unfold distribute_night_shifts_evenly, floordiv, pymod.
  rewrite !decide_False by done.
  unfold bind at 1, lift at 1. unfold bind at 1, lift at 1.
  cbn [col_Nurse fmap list_fmap for_each mapM].
  eexists _, _. split; [|reflexivity].
  unfold bind, getitem_shifts. by rewrite Hnone.
Qed.

(** X12. The thirteen rule calls of [add_constraints] are written for
    the three shift types 0, 1 and 2: on a scheduler with at least one
    nurse, at least one day and a starting weekday among the seven,
    whose shift mapping has no key 2, the method raises [KeyError]. *)
Theorem add_constraints_needs_shift_2
    nurses daily_shifts num_days start_day self :
  Scheduler.post_init nurses daily_shifts num_days start_day = Ok self →
  nurses ≠ [] →
  0 < num_days →
  start_day ∈ days_of_week →
  2 ∉ shift_keys daily_shifts →
  (Scheduler.add_constraints self).1 = Raise KeyError.
Proof.
  intros Hinit Hne Hnd Hstart H2.
  destruct (post_init_built _ _ _ _ _ Hinit)
    as (Hns & Hds & Hn & Hsd & Hdays & Hnn & Hb).
  assert (Hnone : ∀ n d, Scheduler.shifts self !! (n, d, 2) = None).
  { intros n d. destruct Hb as (_ & Hout & _). apply Hout.
    rewrite elem_of_shift_keys_of. tauto. }
  assert (Hm : len nurses ≠ 0).
  { unfold len. destruct nurses; [done|]. cbn [length]. lia. }
  assert (Hrun : ∃ x e', Scheduler.add_constraints_body self
                           (mkEnv (Scheduler.model self) []) = (Raise x, e')
                         ∧ x = KeyError).
  { unfold Scheduler.add_constraints_body.
    rewrite Hns, Hds, Hn, Hsd, Hdays, Hnn.
    apply raises_then.
    { apply ro_limit_shifts_per_period; [done|]. lia. }
    apply raises_then; [by apply ro_single_nurse_per_shift|].
    apply raises_then; [by apply ro_assign_consecutive_shifts|].
    apply raises_then; [by apply ro_assign_consecutive_shifts|].
    apply raises_then; [by apply ro_distribute_shifts_evenly|].
    apply raises_now. apply night_rule_missing_shift; try done.
    rewrite range_cons by done. done. }
  destruct Hrun as (x & e' & Hrun & ->).
  unfold Scheduler.add_constraints. by rewrite Hrun.
Qed.

Lemma add_constraints_needs_shift_2_witness :
  ∃ self,
    Scheduler.post_init demo_nurses demo_shifts 7 "Monday" = Ok self ∧
    demo_nurses ≠ [] ∧
    0 < 7 ∧
    ("Monday"%string ∈ days_of_week) ∧
    (2 ∉ shift_keys demo_shifts) ∧
    (Scheduler.add_constraints self).1 = Raise KeyError.
Proof.
  destruct (post_init_Ok demo_nurses demo_shifts 7 "Monday") as [self Hself].
  assert (H1 : demo_nurses ≠ []) by done.
  assert (H2 : 0 < 7) by lia.
  assert (H3 : "Monday"%string ∈ days_of_week) by (by left).
  assert (H4 : 2 ∉ shift_keys demo_shifts).
  { cbn. intros H. apply elem_of_cons in H as [H|H]; [done|].
    by apply list_elem_of_singleton in H. }
  exists self. split; [exact Hself|]. split; [exact H1|]. split; [exact H2|].
  split; [exact H3|]. split; [exact H4|].
  exact (add_constraints_needs_shift_2 demo_nurses demo_shifts 7 "Monday" self
           Hself H1 H2 H3 H4).
Defined.

(** ** The roster that solve extracts *)

Lemma sum_values_le_one a vs (i j : nat) v v' :
  sum_values a vs ≤ 1 →
  vs !! i = Some v → vs !! j = Some v' → a v = true → a v' = true → i = j.
Proof.
  revert i j. induction vs as [|u vs IH]; intros i j Hs Hi Hj Hv Hv'.
  - done.
  - rewrite sum_values_cons in Hs.
    pose proof (sum_values_nonneg a vs) as Hnn.
    assert (Hu : 0 ≤ Value a u) by (unfold Value; destruct (a u); lia).
    destruct i as [|i], j as [|j]; cbn in Hi, Hj.
    + done.
    + injection Hi as ->. unfold Value in Hs. rewrite Hv in Hs.
      assert (a v' = false); [|congruence].
      eapply sum_values_zero; [|by eapply list_elem_of_lookup_2]. lia.
    + injection Hj as ->. unfold Value in Hs. rewrite Hv' in Hs.
      assert (a v = false); [|congruence].
      eapply sum_values_zero; [|by eapply list_elem_of_lookup_2]. lia.
    + f_equal. apply IH; [lia|done..].
Qed.

(** Under a sum capped at one, two assigned keys of the sum are the
    same key. *)
Lemma at_most_one_key {K} `{Countable K} (a : assignment) (sh : gmap K nat)
    (ks : list K) (vs : list nat) (k k' : K) :
  Forall2 (λ k v, sh !! k = Some v) ks vs →
  sum_values a vs ≤ 1 →
  k ∈ ks → k' ∈ ks →
  is_assigned a sh k = true → is_assigned a sh k' = true → k = k'.
Proof.
  intros Hvs Hs Hk Hk' Ha Ha'.
  apply list_elem_of_lookup in Hk as [i Hi].
  apply list_elem_of_lookup in Hk' as [j Hj].
  destruct (Forall2_lookup_l _ _ _ _ _ Hvs Hi) as (v & Hv & Hkv).
  destruct (Forall2_lookup_l _ _ _ _ _ Hvs Hj) as (v' & Hv' & Hkv').
  unfold is_assigned in Ha, Ha'. rewrite Hkv in Ha. rewrite Hkv' in Ha'.
  assert (i = j) as -> by (by eapply sum_values_le_one).
  congruence.
Qed.

Lemma holds_le_one a m vs :
  satisfies a m = true → Linear (LSum vs) Le (LInt 1) [] ∈ constraints m →
  sum_values a vs ≤ 1.
Proof.
  intros Hsat Hc. pose proof (satisfies_holds _ _ _ Hsat Hc) as Hh.
  cbn in Hh. by apply bool_decide_eq_true in Hh.
Qed.

Lemma holds_exactly_one a m vs :
  satisfies a m = true → ExactlyOne vs ∈ constraints m →
  sum_values a vs = 1.
Proof.
  intros Hsat Hc. pose proof (satisfies_holds _ _ _ Hsat Hc) as Hh.
  cbn in Hh. by apply bool_decide_eq_true in Hh.
Qed.

Section roster.
Variables (nurses : list NurseRow) (daily_shifts : list (Z * string)).
Variables (num_days : Z) (sh : gmap (Z * Z * Z) nat) (rs : gmap (Z * Z) nat).
Variables (m : CpModel) (a : assignment).
Hypothesis Hb : built nurses (range 0 num_days) daily_shifts sh rs.
Hypothesis Hsat : satisfies a m = true.

Lemma assigned_in_universe n d s :
  is_assigned a sh (n, d, s) = true →
  n ∈ col_Nurse nurses ∧ 0 ≤ d < num_days ∧ s ∈ shift_keys daily_shifts.
Proof.
  intros Ha. unfold is_assigned in Ha.
  destruct (sh !! (n, d, s)) as [v|] eqn:Hk; [|done].
  destruct (decide ((n, d, s) ∈
              shift_keys_of nurses (range 0 num_days) daily_shifts))
    as [Hin|Hout].
  - apply elem_of_shift_keys_of in Hin as (Hn & Hd & Hs).
    by apply elem_of_range in Hd.
  - destruct Hb as (_ & Hnone & _). rewrite (Hnone _ Hout) in Hk. done.
Qed.

Lemma coverage_some_nurse d s :
  (∃ vs, Forall2 (λ n v, sh !! (n, d, s) = Some v) (col_Nurse nurses) vs ∧
         ExactlyOne vs ∈ constraints m) →
  ∃ n, n ∈ col_Nurse nurses ∧ is_assigned a sh (n, d, s) = true.
Proof.
  intros (vs & Hvs & Hc).
  destruct (sum_values_one a vs (holds_exactly_one _ _ _ Hsat Hc))
    as (i & v & Hi & Hv & _).
  destruct (Forall2_lookup_r _ _ _ _ _ Hvs Hi) as (n & Hn & Hnv).
  exists n. split; [by eapply list_elem_of_lookup_2|].
  unfold is_assigned. by rewrite Hnv.
Qed.

Lemma coverage_one_nurse d s n n' :
  (∃ vs, Forall2 (λ n v, sh !! (n, d, s) = Some v) (col_Nurse nurses) vs ∧
         ExactlyOne vs ∈ constraints m) →
  n ∈ col_Nurse nurses → n' ∈ col_Nurse nurses →
  is_assigned a sh (n, d, s) = true → is_assigned a sh (n', d, s) = true →
  n = n'.
Proof.
  intros (vs & Hvs & Hc) Hn Hn' Ha Ha'.
  assert (Hs : sum_values a vs ≤ 1)
    by (rewrite (holds_exactly_one _ _ _ Hsat Hc); lia).
  apply (Forall2_fmap_l (λ n, (n, d, s))
           (λ k v, sh !! k = Some v)) in Hvs.
  assert ((n, d, s) = (n', d, s)); [|congruence].
  eapply at_most_one_key; [exact Hvs|exact Hs| | |done|done];
    apply list_elem_of_fmap; eauto.
Qed.

Lemma daily_one_shift n d s s' :
  (∃ vs, Forall2 (λ s v, sh !! (n, d, s) = Some v)
                 (shift_keys daily_shifts) vs ∧
         Linear (LSum vs) Le (LInt 1) [] ∈ constraints m) →
  s ∈ shift_keys daily_shifts → s' ∈ shift_keys daily_shifts →
  is_assigned a sh (n, d, s) = true → is_assigned a sh (n, d, s') = true →
  s = s'.
Proof.
  intros (vs & Hvs & Hc) Hs Hs' Ha Ha'.
  apply (Forall2_fmap_l (λ s, (n, d, s))
           (λ k v, sh !! k = Some v)) in Hvs.
  assert ((n, d, s) = (n, d, s')); [|congruence].
  eapply at_most_one_key;
    [exact Hvs|by eapply holds_le_one| | |done|done];
    apply list_elem_of_fmap; eauto.
Qed.

Lemma team_one_slot d (r r' : NurseRow) s s' :
  (∃ vs, Forall2 (λ k v, sh !! k = Some v)
           (n ← col_Nurse (filter (λ x, Team x = Team r) nurses);
            s ← shift_keys daily_shifts; [(n, d, s)]) vs ∧
         Linear (LSum vs) Le (LInt 1) [] ∈ constraints m) →
  r ∈ nurses → r' ∈ nurses → Team r' = Team r →
  s ∈ shift_keys daily_shifts → s' ∈ shift_keys daily_shifts →
  is_assigned a sh (Nurse r, d, s) = true →
  is_assigned a sh (Nurse r', d, s') = true →
  Nurse r = Nurse r' ∧ s = s'.
Proof.
  intros (vs & Hvs & Hc) Hr Hr' Ht Hs Hs' Ha Ha'.
  assert ((Nurse r, d, s) = (Nurse r', d, s')); [|split; congruence].
  eapply at_most_one_key;
    [exact Hvs|by eapply holds_le_one| | |done|done];
    apply elem_of_team_slots; eexists _, _; (split; [reflexivity|]);
    (split; [|done]); apply list_elem_of_fmap; eexists; (split; [reflexivity|]);
    by apply list_elem_of_filter.
Qed.

End roster.

(** X13. From construction to the roster. On a freshly constructed
    scheduler with a non-empty roster, the shift indices 0, 1 and 2 and
    a starting weekday among the seven, [add_constraints] returns, and
    whenever the solver then reports [OPTIMAL] with values that satisfy
    the model (and the export of the rota table does not raise),
    [solve] returns with a [solution] frame in which: every shift type
    of every day of the horizon has a row; no (day, shift) has two
    nurses, which is what the pivot of the frame by day and shift
    needs; no nurse has two shift types on one day; two nurses of one
    team never work on the same day; and every row belongs to the
    roster, the horizon and the shift mapping. *)
Theorem solved_roster_shape nurses daily_shifts num_days start_day self :
  Scheduler.post_init nurses daily_shifts num_days start_day = Ok self →
  nurses ≠ [] →
  0 ≤ num_days →
  (∀ s, s ∈ [0; 1; 2] → s ∈ shift_keys daily_shifts) →
  start_day ∈ days_of_week →
  ∃ self1,
    Scheduler.add_constraints self = (Ok (), self1) ∧
    ∀ solver export_rota,
      solver_contract (Scheduler.model self1) solver →
      status solver = OPTIMAL →
      export_rota (rota_dict solver (Scheduler.shifts self1)) = Ok () →
      ∃ self2,
        Scheduler.solve solver export_rota self1 = (Ok (), self2) ∧
        (∀ d s, 0 ≤ d < num_days → s ∈ shift_keys daily_shifts →
           ∃ n, n ∈ col_Nurse nurses ∧ (n, d, s) ∈ solution_rows self2) ∧
        (∀ n n' d s, (n, d, s) ∈ solution_rows self2 →
           (n', d, s) ∈ solution_rows self2 → n = n') ∧
        (∀ n d s s', (n, d, s) ∈ solution_rows self2 →
           (n, d, s') ∈ solution_rows self2 → s = s') ∧
        (∀ r r' d s s', r ∈ nurses → r' ∈ nurses → Team r = Team r' →
           (Nurse r, d, s) ∈ solution_rows self2 →
           (Nurse r', d, s') ∈ solution_rows self2 → Nurse r = Nurse r') ∧
        (∀ n d s, (n, d, s) ∈ solution_rows self2 →
           n ∈ col_Nurse nurses ∧ 0 ≤ d < num_days ∧
           s ∈ shift_keys daily_shifts).
Proof.
  intros Hinit Hne Hnd Hkeys Hstart.
  destruct (post_init_built _ _ _ _ _ Hinit)
    as (Hns & Hds & Hn & Hsd & Hdays & Hnn & Hb).
  destruct (add_constraints_body_facts _ _ _ _ _
              (mkEnv (Scheduler.model self) []) Hinit Hne Hnd Hkeys Hstart)
    as ([] & e' & Hrun & Hext & Hcap & Hcov & Hteam).
  unfold Scheduler.add_constraints. rewrite Hrun.
  eexists. split; [reflexivity|].
  intros solver export_rota Hcontract Hopt Hexport. cbn in Hcontract, Hexport.
  assert (Hsat : satisfies (values solver) (cp e') = true)
    by (apply Hcontract; by left).
  destruct (weekend_column_Ok start_day
              (rota_dict solver (Scheduler.shifts self)) Hstart)
    as (col & Hcol & _).
  unfold Scheduler.solve. rewrite decide_True by done. cbn.
  rewrite Hexport, Hsd, Hcol. eexists. split; [reflexivity|].
  unfold solution_rows. cbn.
  set (sh := Scheduler.shifts self) in *.
  set (a := values solver) in *.
  assert (Huni : ∀ n d s, (n, d, s) ∈ rota_dict solver sh →
            n ∈ col_Nurse nurses ∧ 0 ≤ d < num_days ∧
            s ∈ shift_keys daily_shifts).
  { intros n d s Hk. apply elem_of_rota_dict in Hk.
    by eapply assigned_in_universe. }
  assert (Hteam1 : ∀ r r' d s s', r ∈ nurses → r' ∈ nurses →
            Team r = Team r' →
            (Nurse r, d, s) ∈ rota_dict solver sh →
            (Nurse r', d, s') ∈ rota_dict solver sh →
            Nurse r = Nurse r' ∧ s = s').
  { intros r r' d s s' Hr Hr' Ht Hk Hk'.
    destruct (Huni _ _ _ Hk) as (_ & Hd & Hs).
    destruct (Huni _ _ _ Hk') as (_ & _ & Hs').
    apply elem_of_rota_dict in Hk, Hk'.
    eapply (team_one_slot nurses daily_shifts sh (cp e') a Hsat d r r' s s');
      try done.
    apply Hteam; [done|]. apply list_elem_of_fmap. eauto. }
  split; [|split; [|split; [|split]]].
  - intros d s Hd Hs.
    destruct (coverage_some_nurse nurses sh (cp e') a Hsat d s
                (Hcov d s Hd Hs)) as (n & Hin & Ha).
    exists n. split; [done|]. by apply elem_of_rota_dict.
  - intros n n' d s Hk Hk'.
    destruct (Huni _ _ _ Hk) as (Hin & Hd & Hs).
    destruct (Huni _ _ _ Hk') as (Hin' & _ & _).
    apply elem_of_rota_dict in Hk, Hk'.
    by eapply (coverage_one_nurse nurses sh (cp e') a Hsat d s n n'); auto.
  - intros n d s s' Hk Hk'.
    destruct (Huni _ _ _ Hk) as (Hin & Hd & Hs).
    destruct (Huni _ _ _ Hk') as (_ & _ & Hs').
    apply elem_of_rota_dict in Hk, Hk'.
    by eapply (daily_one_shift daily_shifts sh (cp e') a Hsat n d s s'); auto.
  - intros r r' d s s' Hr Hr' Ht Hk Hk'.
    by destruct (Hteam1 r r' d s s' Hr Hr' Ht Hk Hk').
  - exact Huni.
Qed.

(** The theorem is not about nothing: for the five nurses of
    [ward_nurses] and a horizon of two days, [ward_values] satisfies
    the model that [add_constraints] builds, and the run from the
    constructor to the printed schedules goes through. *)
Example two_day_ward :
  match Scheduler.post_init ward_nurses ed_shifts 2 "Monday" with
  | Ok self =>
      let r := Scheduler.add_constraints self in
      let solved := Scheduler.solve ward_solver (λ _, Ok ()) r.2 in
      let printed := create_schedules_per_nurse (λ _ _, Ok ()) solved.2 in
      r.1 = Ok () ∧
      satisfies ward_values (Scheduler.model r.2) = true ∧
      solved.1 = Ok () ∧
      printed.1 = Return () ∧
      (λ n, (λ sched : Schedule, Shift <$> sched.*2)
              <$> schedules_get n printed.2) <$> [1; 2; 4]
        = [Some ["ED Nights"; "ED Nights"]; Some ["ED Day 01"; "--"];
           Some ["--"; "ED Day 01"]]%string
  | Raise _ => False
  end.
Proof. vm_compute. repeat split. Qed.

Lemma ward_values_satisfy self self1 :
  Scheduler.post_init ward_nurses ed_shifts 2 "Monday" = Ok self →
  Scheduler.add_constraints self = (Ok (), self1) →
  solver_contract (Scheduler.model self1) ward_solver.
Proof.
  intros Hself Hrun _. pose proof two_day_ward as Hex.
  rewrite Hself in Hex. cbv zeta in Hex. rewrite Hrun in Hex.
  by destruct Hex as (_ & Hsat & _).
Qed.

Lemma solved_roster_shape_witness :
  ∃ self self1,
    Scheduler.post_init ward_nurses ed_shifts 2 "Monday" = Ok self ∧
    ward_nurses ≠ [] ∧
    0 ≤ 2 ∧
    (∀ s, s ∈ [0; 1; 2] → s ∈ shift_keys ed_shifts) ∧
    "Monday"%string ∈ days_of_week ∧
    Scheduler.add_constraints self = (Ok (), self1) ∧
    solver_contract (Scheduler.model self1) ward_solver ∧
    status ward_solver = OPTIMAL ∧
    ∃ self2,
      Scheduler.solve ward_solver (λ _, Ok ()) self1 = (Ok (), self2) ∧
      (∀ d s, 0 ≤ d < 2 → s ∈ shift_keys ed_shifts →
         ∃ n, n ∈ col_Nurse ward_nurses ∧
              (n, d, s) ∈ solution_rows self2) ∧
      (∀ n n' d s, (n, d, s) ∈ solution_rows self2 →
         (n', d, s) ∈ solution_rows self2 → n = n') ∧
      (∀ n d s s', (n, d, s) ∈ solution_rows self2 →
         (n, d, s') ∈ solution_rows self2 → s = s') ∧
      (∀ r r' d s s', r ∈ ward_nurses → r' ∈ ward_nurses →
         Team r = Team r' →
         (Nurse r, d, s) ∈ solution_rows self2 →
         (Nurse r', d, s') ∈ solution_rows self2 → Nurse r = Nurse r') ∧
      (∀ n d s, (n, d, s) ∈ solution_rows self2 →
         n ∈ col_Nurse ward_nurses ∧ 0 ≤ d < 2 ∧
         s ∈ shift_keys ed_shifts).
Proof.
  destruct (post_init_Ok ward_nurses ed_shifts 2 "Monday") as [self Hself].
  assert (H1 : ward_nurses ≠ []) by done.
  assert (H2 : 0 ≤ 2) by lia.
  assert (H3 : ∀ s, s ∈ [0; 1; 2] → s ∈ shift_keys ed_shifts) by done.
  assert (H4 : "Monday"%string ∈ days_of_week) by left.
  destruct (solved_roster_shape ward_nurses ed_shifts 2 "Monday" self
              Hself H1 H2 H3 H4) as (self1 & Hrun & Hsolve).
  assert (H5 : solver_contract (Scheduler.model self1) ward_solver)
    by exact (ward_values_satisfy self self1 Hself Hrun).
  assert (H6 : status ward_solver = OPTIMAL) by reflexivity.
  exists self, self1.
  split; [exact Hself|]. split; [exact H1|]. split; [exact H2|].
  split; [exact H3|]. split; [exact H4|]. split; [exact Hrun|].
  split; [exact H5|]. split; [exact H6|].
  exact (Hsolve ward_solver (λ _, Ok ()) H5 H6 eq_refl).
Defined.

(** ** Too few teams *)

Lemma sumZ_cons {A} (g : A → Z) x l : sumZ g (x :: l) = g x + sumZ g l.
Proof. reflexivity. Qed.

Lemma sumZ_ext {A} (g h : A → Z) l :
  (∀ x, x ∈ l → g x = h x) → sumZ g l = sumZ h l.
Proof.
  induction l as [|x l IH]; intros Hgh; [done|].
  rewrite !sumZ_cons, IH, (Hgh x); [done|by left|].
  intros y Hy. apply Hgh. by right.
Qed.

Lemma sumZ_const {A} (g : A → Z) (c : Z) l :
  (∀ x, x ∈ l → g x = c) → sumZ g l = c * len l.
Proof.
  induction l as [|x l IH]; intros Hg; [unfold len; cbn; lia|].
  rewrite sumZ_cons, IH, (Hg x); [|by left|intros y Hy; apply Hg; by right].
  unfold len. cbn [length]. lia.
Qed.

Lemma sumZ_le {A} (g : A → Z) (c : Z) l :
  (∀ x, x ∈ l → g x ≤ c) → sumZ g l ≤ c * len l.
Proof.
  induction l as [|x l IH]; intros Hg; [unfold len; cbn; lia|].
  rewrite sumZ_cons.
  assert (g x ≤ c) by (apply Hg; by left).
  assert (sumZ g l ≤ c * len l) by (apply IH; intros y Hy; apply Hg; by right).
  unfold len in *. cbn [length]. lia.
Qed.

Lemma sumZ_plus {A} (g h : A → Z) l :
  sumZ (λ x, g x + h x) l = sumZ g l + sumZ h l.
Proof.
  induction l as [|x l IH]; [done|]. rewrite !sumZ_cons, IH. lia.
Qed.

Lemma sumZ_fmap {A B} (h : A → B) (g : B → Z) l :
  sumZ g (h <$> l) = sumZ (λ x, g (h x)) l.
Proof.
  induction l as [|x l IH]; [done|]. cbn [fmap list_fmap].
  change (list_fmap A B h l) with (h <$> l). by rewrite !sumZ_cons, IH.
Qed.

Lemma sumZ_exchange {A B} (f : A → B → Z) xs ys :
  sumZ (λ x, sumZ (λ y, f x y) ys) xs = sumZ (λ y, sumZ (λ x, f x y) xs) ys.
Proof.
  induction xs as [|x xs IH].
  - cbn. symmetry. rewrite (sumZ_const _ 0); [lia|done].
  - rewrite sumZ_cons, IH. rewrite <- sumZ_plus. done.
Qed.

Lemma sumZ_indicator {A} `{EqDecision A} (t0 : A) (c : Z) ts :
  NoDup ts → t0 ∈ ts →
  sumZ (λ t, if decide (t0 = t) then c else 0) ts = c.
Proof.
  induction 1 as [|t ts Hnin Hnd IH]; intros Hin.
  - by apply elem_of_nil in Hin.
  - rewrite sumZ_cons. destruct (decide (t0 = t)) as [->|Hne].
    + rewrite (sumZ_const _ 0); [lia|].
      intros x Hx. rewrite decide_False; [done|]. by intros ->.
    + apply elem_of_cons in Hin as [?|Hin]; [done|]. rewrite IH by done. lia.
Qed.

(** A sum over the roster is the sum, over the team labels, of the sums
    over each team. *)
Lemma sumZ_by_team (g : NurseRow → Z) (ts : list string) rows :
  NoDup ts → (∀ r, r ∈ rows → Team r ∈ ts) →
  sumZ g rows = sumZ (λ t, sumZ g (filter (λ r, Team r = t) rows)) ts.
Proof.
  intros Hnd. induction rows as [|r rows IH]; intros Hts.
  - cbn. rewrite (sumZ_const _ 0); [lia|done].
  - rewrite sumZ_cons, IH by (intros; apply Hts; by right).
    rewrite <- (sumZ_indicator (Team r) (g r) ts Hnd) at 1
      by (apply Hts; by left).
    rewrite <- sumZ_plus. apply sumZ_ext. intros t _.
    rewrite filter_cons. by destruct (decide (Team r = t)).
Qed.

Lemma count_assigned_sumZ (a : assignment) (sh : gmap (Z * Z * Z) nat)
    (ks : list (Z * Z * Z)) :
  count_assigned a sh ks = sumZ (λ k, if is_assigned a sh k then 1 else 0) ks.
Proof. reflexivity. Qed.

Lemma sumZ_app {A} (g : A → Z) l1 l2 :
  sumZ g (l1 ++ l2) = sumZ g l1 + sumZ g l2.
Proof.
  induction l1 as [|x l1 IH]; [reflexivity|].
  cbn [app]. rewrite !sumZ_cons, IH. lia.
Qed.

Lemma sumZ_bind {A B} (h : A → list B) (g : B → Z) l :
  sumZ g (l ≫= h) = sumZ (λ x, sumZ g (h x)) l.
Proof.
  induction l as [|x l IH]; [done|]. cbn [mbind list_bind].
  change (list_bind _ _ h l) with (l ≫= h).
  by rewrite sumZ_app, sumZ_cons, IH.
Qed.

(** X14. Too few teams. The last rule call of [add_constraints] lets
    each team hold one slot per day and the second wants every shift
    type of every day filled: on a scheduler with at least one day
    whose roster has fewer team labels than the mapping has shift
    types, [add_constraints] still returns, but the model it leaves has
    no satisfying assignment, so that [solve], with a solver that
    reports [OPTIMAL] or [FEASIBLE] only with values satisfying the
    model, prints its error and exits. *)
Theorem too_few_teams_no_roster nurses daily_shifts num_days start_day self :
  Scheduler.post_init nurses daily_shifts num_days start_day = Ok self →
  nurses ≠ [] →
  0 < num_days →
  (∀ s, s ∈ [0; 1; 2] → s ∈ shift_keys daily_shifts) →
  start_day ∈ days_of_week →
  (length (remove_dups (Team <$> nurses)) < length daily_shifts)%nat →
  ∃ self1,
    Scheduler.add_constraints self = (Ok (), self1) ∧
    (∀ a, satisfies a (Scheduler.model self1) = false) ∧
    ∀ solver export_rota,
      solver_contract (Scheduler.model self1) solver →
      Scheduler.solve solver export_rota self1 = (Raise SystemExit, self1).
Proof.
  intros Hinit Hne Hnd Hkeys Hstart Hfew.
  assert (Hnd' : 0 ≤ num_days) by lia.
  destruct (add_constraints_body_facts _ _ _ _ _
              (mkEnv (Scheduler.model self) []) Hinit Hne Hnd' Hkeys Hstart)
    as ([] & e' & Hrun & Hext & Hcap & Hcov & Hteam).
  unfold Scheduler.add_constraints. rewrite Hrun.
  eexists. split; [reflexivity|]. cbn [Scheduler.model Scheduler.with_model].
  set (sh := Scheduler.shifts self) in *.
  assert (Hunsat : ∀ a, satisfies a (cp e') = false).
  { intros a. destruct (satisfies a (cp e')) eqn:Hsat; [exfalso|done].
    set (f := λ (n s : Z), if is_assigned a sh (n, 0, s) then 1 else 0).
    set (keys := shift_keys daily_shifts).
    set (teams := remove_dups (Team <$> nurses)).
    assert (Hfilled :
      sumZ (λ s, sumZ (λ n, f n s) (col_Nurse nurses)) keys = 1 * len keys).
    { apply sumZ_const. intros s Hs.
      destruct (Hcov 0 s) as (vs & Hvs & Hc); [lia|done|].
      apply (Forall2_fmap_l (λ n, (n, 0, s))
               (λ k v, sh !! k = Some v)) in Hvs.
      rewrite <- (holds_exactly_one _ _ _ Hsat Hc).
      rewrite (sum_values_count a sh _ _ Hvs), count_assigned_sumZ.
      by rewrite sumZ_fmap. }
    assert (Hcapped :
      sumZ (λ t, sumZ (λ r, sumZ (λ s, f (Nurse r) s) keys)
                   (filter (λ r, Team r = t) nurses)) teams
      ≤ 1 * len teams).
    { apply sumZ_le. intros t Ht.
      apply (proj1 (elem_of_remove_dups _ _)) in Ht.
      destruct (Hteam 0 t) as (vs & Hvs & Hc); [lia|done|].
      pose proof (holds_le_one _ _ _ Hsat Hc) as Hle.
      rewrite (sum_values_count a sh _ _ Hvs), count_assigned_sumZ in Hle.
      rewrite sumZ_bind in Hle. unfold col_Nurse in Hle.
      rewrite sumZ_fmap in Hle.
      etrans; [|exact Hle]. apply Z.eq_le_incl, sumZ_ext. intros r _.
      by rewrite bind_singleton, sumZ_fmap. }
    rewrite <- (sumZ_by_team _ teams) in Hcapped;
      [|apply NoDup_remove_dups|].
    2:{ intros r Hr. apply (proj2 (elem_of_remove_dups _ _)).
        apply list_elem_of_fmap. eauto. }
    rewrite sumZ_exchange in Hfilled. unfold col_Nurse in Hfilled.
    rewrite sumZ_fmap in Hfilled.
    unfold len, keys, teams, shift_keys in *.
    rewrite length_fmap in Hfilled. lia. }
  split; [exact Hunsat|].
  intros solver export_rota Hcontract.
  unfold Scheduler.solve.
  destruct (decide (status solver = OPTIMAL)) as [Hopt|Hno]; [|done].
  assert (Hs : satisfies (values solver) (cp e') = true)
    by (apply Hcontract; by left).
  by rewrite Hunsat in Hs.
Qed.

Lemma too_few_teams_no_roster_witness :
  ∃ self,
    Scheduler.post_init demo_nurses ed_shifts 7 "Monday" = Ok self ∧
    demo_nurses ≠ [] ∧
    0 < 7 ∧
    (∀ s, s ∈ [0; 1; 2] → s ∈ shift_keys ed_shifts) ∧
    "Monday"%string ∈ days_of_week ∧
    (length (remove_dups (Team <$> demo_nurses)) < length ed_shifts)%nat ∧
    ∃ self1,
      Scheduler.add_constraints self = (Ok (), self1) ∧
      (∀ a, satisfies a (Scheduler.model self1) = false) ∧
      ∀ solver export_rota,
        solver_contract (Scheduler.model self1) solver →
        Scheduler.solve solver export_rota self1 = (Raise SystemExit, self1).
Proof.
  destruct (post_init_Ok demo_nurses ed_shifts 7 "Monday") as [self Hself].
  assert (H1 : demo_nurses ≠ []) by done.
  assert (H2 : 0 < 7) by lia.
  assert (H3 : ∀ s, s ∈ [0; 1; 2] → s ∈ shift_keys ed_shifts) by done.
  assert (H4 : "Monday"%string ∈ days_of_week) by left.
  assert (H5 : (length (remove_dups (Team <$> demo_nurses))
                < length ed_shifts)%nat) by (vm_compute; lia).
  exists self. split; [exact Hself|]. split; [exact H1|]. split; [exact H2|].
  split; [exact H3|]. split; [exact H4|]. split; [exact H5|].
  exact (too_few_teams_no_roster demo_nurses ed_shifts 7 "Monday" self
           Hself H1 H2 H3 H4 H5).
Defined.

(** ** The schedule of each nurse: create_schedules_per_nurse *)

Lemma loc_row_set label label' v (sched : Schedule) :
  loc_row label (loc_set label' v sched) =
    if decide (label = label') then
      Some (match loc_row label sched with
            | Some r => mkRow (row_Day r) (Day_Name r) v
            | None => mkRow None None v
            end)
    else loc_row label sched.
Proof.
  induction sched as [|[l r] sched IH]; cbn [loc_set loc_row].
  - destruct (decide (label = label')) as [->|Hne].
    + by rewrite decide_True.
    + by rewrite decide_False by congruence.
  - destruct (decide (l = label')) as [->|Hl]; cbn [loc_row].
    + destruct (decide (label' = label)) as [->|Hne].
      * by rewrite decide_True.
      * by rewrite decide_False by congruence.
    + destruct (decide (l = label)) as [->|Hne]; [|exact IH].
      by rewrite decide_False.
Qed.

Lemma loc_get_set label label' v (sched : Schedule) :
  loc_get label (loc_set label' v sched) =
    if decide (label = label') then Some v else loc_get label sched.
Proof.
  unfold loc_get. rewrite loc_row_set.
  destruct (decide (label = label')); [|done].
  by destruct (loc_row label sched).
Qed.

(** Assignments through [.loc] leave the day and its name alone. *)
Lemma loc_set_Day_Name label label' v (sched : Schedule) r :
  loc_row label sched = Some r →
  ∃ r', loc_row label (loc_set label' v sched) = Some r' ∧
        row_Day r' = row_Day r ∧ Day_Name r' = Day_Name r.
Proof.
  intros Hr. rewrite loc_row_set, Hr.
  destruct (decide (label = label')); eauto.
Qed.

Lemma mark_rests_get rests (sched : Schedule) d :
  loc_get d (mark_rests rests sched) =
    if decide (d ∈ rests.*2) then Some "Rest Day"%string else loc_get d sched.
Proof.
  revert sched. induction rests as [|[n d'] rests IH]; intros sched.
  - cbn. rewrite decide_False; [done|]. apply not_elem_of_nil.
  - cbn [mark_rests fmap list_fmap snd]. rewrite IH, loc_get_set.
    change (list_fmap _ _ snd rests) with (rests.*2).
    destruct (decide (d ∈ rests.*2)) as [Hin|Hnin].
    + rewrite decide_True; [done|]. by right.
    + destruct (decide (d = d')) as [->|Hne].
      * rewrite decide_True; [done|]. by left.
      * rewrite decide_False; [done|].
        intros H. apply elem_of_cons in H as [?|?]; done.
Qed.

Lemma mark_rests_Day_Name rests (sched : Schedule) d r :
  loc_row d sched = Some r →
  ∃ r', loc_row d (mark_rests rests sched) = Some r' ∧
        row_Day r' = row_Day r ∧ Day_Name r' = Day_Name r.
Proof.
  revert sched r. induction rests as [|[n d'] rests IH]; intros sched r Hr.
  - cbn. eauto.
  - cbn [mark_rests].
    destruct (loc_set_Day_Name d d' "Rest Day" sched r Hr)
      as (r1 & Hr1 & <- & <-).
    by apply IH.
Qed.

Lemma getitem_daily_shifts_Ok daily_shifts s :
  s ∈ shift_keys daily_shifts → is_Ok (getitem_daily_shifts daily_shifts s).
Proof.
  induction daily_shifts as [|[k name] ds IH]; intros Hs.
  - by apply elem_of_nil in Hs.
  - cbn. destruct (decide (k = s)) as [->|Hne]; [by eexists|].
    apply IH. cbn in Hs. apply elem_of_cons in Hs as [?|?]; [congruence|done].
Qed.

Lemma mark_shifts_spec daily_shifts (rws : list (Z * Z * Z))
    (sched : Schedule) :
  (∀ n d s, (n, d, s) ∈ rws → s ∈ shift_keys daily_shifts) →
  ∃ sched',
    mark_shifts daily_shifts rws sched = Ok sched' ∧
    (∀ d r, loc_row d sched = Some r →
       ∃ r', loc_row d sched' = Some r' ∧
             row_Day r' = row_Day r ∧ Day_Name r' = Day_Name r) ∧
    (∀ d, d ∉ (λ k, k.1.2) <$> rws → loc_get d sched' = loc_get d sched) ∧
    (∀ n d s name, (n, d, s) ∈ rws →
       (∀ n' s', (n', d, s') ∈ rws → s' = s) →
       getitem_daily_shifts daily_shifts s = Ok name →
       loc_get d sched' = Some name).
Proof.
  revert sched. induction rws as [|[[n0 d0] s0] rws IH]; intros sched Hkeys.
  - exists sched. split; [done|]. split; [eauto|]. split; [done|].
    intros n d s name Hin. by apply elem_of_nil in Hin.
  - destruct (getitem_daily_shifts_Ok daily_shifts s0) as [name0 Hname0].
    { eapply Hkeys. left. }
    destruct (IH (loc_set d0 name0 sched)) as (sched' & Hrun & Hnames & Hkeep & Hset).
    { intros n d s Hin. eapply Hkeys. right. exact Hin. }
    exists sched'. cbn [mark_shifts]. rewrite Hname0. cbn [obind].
    split; [exact Hrun|]. split; [|split].
    + intros d r Hr.
      destruct (loc_set_Day_Name d d0 name0 sched r Hr) as (r1 & Hr1 & <- & <-).
      by apply Hnames.
    + intros d Hd. cbn [fmap list_fmap] in Hd.
      apply not_elem_of_cons in Hd as [Hne Hd]. cbn in Hne.
      rewrite Hkeep by done. rewrite loc_get_set. by rewrite decide_False.
    + intros n d s name Hin Huniq Hname.
      destruct (decide (d ∈ (λ k : Z * Z * Z, k.1.2) <$> rws)) as [Hd|Hd].
      * apply list_elem_of_fmap in Hd as ([[n1 d1] s1] & Heq & Hin1).
        cbn in Heq. subst d1.
        assert (s1 = s) as -> by (eapply Huniq; right; exact Hin1).
        eapply Hset; [exact Hin1| |done].
        intros n' s' Hin'. eapply Huniq. right. exact Hin'.
      * rewrite Hkeep by done. rewrite loc_get_set.
        apply elem_of_cons in Hin as [[= -> -> ->]|Hin].
        -- rewrite decide_True by done. congruence.
        -- exfalso. apply Hd. apply list_elem_of_fmap.
           by exists (n, d, s).
Qed.

Lemma day_names_spec start_day days :
  start_day ∈ days_of_week →
  ∃ names, day_names start_day days = Ok names ∧
    length names = length days ∧
    ∀ (i : nat) d, days !! i = Some d →
      ∃ wd, what_day d start_day = Ok wd ∧ names !! i = Some wd.1.
Proof.
  intros Hs. induction days as [|d days (names & IH & Hlen & Hnames)].
  - exists []. by split.
  - destruct (proj2 (what_day_Ok_iff d start_day) Hs) as [wd Hwd].
    exists (wd.1 :: names). cbn [day_names]. rewrite Hwd, IH. cbn [obind].
    split; [done|]. split; [cbn; by rewrite Hlen|].
    intros [|i] d' Hi; cbn in Hi.
    + injection Hi as <-. eauto.
    + by apply Hnames.
Qed.

Lemma loc_row_zip_range (a : Z) (rws : list ScheduleRow) (d : Z) :
  a ≤ d →
  loc_row d (zip (range a (a + len rws)) rws) = rws !! Z.to_nat (d - a).
Proof.
  revert a. induction rws as [|r rws IH]; intros a Had.
  - by destruct (range a (a + len [])).
  - assert (Hlen : len (r :: rws) = len rws + 1)
      by (unfold len; cbn [length]; lia).
    rewrite Hlen. rewrite range_cons by (unfold len; lia).
    cbn [zip zip_with loc_row].
    destruct (decide (a = d)) as [->|Hne].
    + by replace (Z.to_nat (d - d)) with 0%nat by lia.
    + replace (a + (len rws + 1)) with (a + 1 + len rws) by lia.
      rewrite (IH (a + 1)) by lia.
      replace (Z.to_nat (d - a)) with (S (Z.to_nat (d - (a + 1)))) by lia.
      done.
Qed.

Lemma loc_row_default_index (rws : list ScheduleRow) (d : Z) :
  0 ≤ d → loc_row d (zip (range 0 (len rws)) rws) = rws !! Z.to_nat d.
Proof.
  intros Hd. pose proof (loc_row_zip_range 0 rws d Hd) as H.
  by rewrite Z.sub_0_r in H.
Qed.

Lemma new_schedule_spec num_days start_day :
  start_day ∈ days_of_week →
  ∃ sched, new_schedule num_days start_day = Ok sched ∧
    ∀ d, 0 ≤ d < num_days →
      ∃ wd, what_day d start_day = Ok wd ∧
            loc_row d sched = Some (mkRow (Some d) (Some wd.1) "--").
Proof.
  intros Hs.
  destruct (day_names_spec start_day (range 0 num_days) Hs)
    as (names & Hnames & Hlen & Hat).
  unfold new_schedule. rewrite Hnames. cbn [obind].
  eexists. split; [reflexivity|]. intros d Hd.
  destruct (Hat (Z.to_nat d) d) as (wd & Hwd & Hname).
  { rewrite lookup_range. rewrite decide_True by lia. f_equal. lia. }
  exists wd. split; [done|].
  rewrite loc_row_default_index by lia.
  rewrite lookup_zip_with, lookup_range, decide_True by lia. cbn.
  rewrite Hname. cbn. do 3 f_equal. lia.
Qed.

Lemma schedules_get_set n n' sched d :
  schedules_get n (schedules_set n' sched d) =
    if decide (n = n') then Some sched else schedules_get n d.
Proof.
  induction d as [|[k v] d IH]; cbn [schedules_set schedules_get].
  - destruct (decide (n = n')) as [->|Hne].
    + by rewrite decide_True.
    + by rewrite decide_False by congruence.
  - destruct (decide (k = n')) as [->|Hk]; cbn [schedules_get].
    + destruct (decide (n' = n)) as [->|Hne].
      * by rewrite decide_True.
      * by rewrite decide_False by congruence.
    + destruct (decide (k = n)) as [->|Hne]; [|exact IH].
      by rewrite decide_False.
Qed.

Lemma schedules_loop_Return export self roster acc :
  (∀ n sched, export n sched = Ok ()) →
  (∀ n, n ∈ roster → ∃ sched, nurse_schedule self n = Return sched) →
  (∀ n sched, schedules_get n acc = Some sched →
     nurse_schedule self n = Return sched) →
  ∃ acc', schedules_loop export self roster acc = (Return (), acc') ∧
    (∀ n sched, schedules_get n acc' = Some sched →
       nurse_schedule self n = Return sched) ∧
    (∀ n, n ∈ roster → is_Some (schedules_get n acc')) ∧
    (∀ n, is_Some (schedules_get n acc) → is_Some (schedules_get n acc')).
Proof.
  intros Hexp. revert acc.
  induction roster as [|n roster IH]; intros acc Hall Hacc.
  - exists acc. split; [done|]. split; [done|]. split; [|done].
    intros n Hn. by apply elem_of_nil in Hn.
  - destruct (Hall n) as [sched Hsched]; [by left|].
    cbn [schedules_loop]. rewrite Hsched, Hexp.
    destruct (IH (schedules_set n sched acc))
      as (acc' & Hrun & Hinv & Hin & Hkeep).
    { intros n' Hn'. apply Hall. by right. }
    { intros n' sched' Hget. rewrite schedules_get_set in Hget.
      destruct (decide (n' = n)) as [->|Hne]; [congruence|by apply Hacc]. }
    exists acc'. split; [exact Hrun|]. split; [exact Hinv|]. split.
    + intros n' Hn'. apply elem_of_cons in Hn' as [->|Hn']; [|by apply Hin].
      apply Hkeep. rewrite schedules_get_set, decide_True by done. by eexists.
    + intros n' Hn'. apply Hkeep. rewrite schedules_get_set.
      by destruct (decide (n' = n)).
Qed.

Lemma mark_shifts_keep daily_shifts (rws : list (Z * Z * Z))
    (sched sched' : Schedule) d :
  mark_shifts daily_shifts rws sched = Ok sched' →
  filter (λ k, k.1.2 = d) rws = [] →
  loc_get d sched' = loc_get d sched.
Proof.
  revert sched. induction rws as [|[[n0 d0] s0] rws IH]; intros sched Hrun Hf.
  - cbn in Hrun. by injection Hrun as <-.
  - cbn [mark_shifts] in Hrun.
    destruct (getitem_daily_shifts daily_shifts s0) as [name0|x]; [|done].
    cbn [obind] in Hrun.
    destruct (decide (d0 = d)) as [->|Hne].
    + by rewrite filter_cons_True in Hf by done.
    + rewrite filter_cons_False in Hf by done.
      rewrite (IH _ Hrun Hf), loc_get_set. by rewrite decide_False.
Qed.

(** Of the rows of one day the last one decides the label. *)
Lemma mark_shifts_last daily_shifts (rws : list (Z * Z * Z))
    (sched sched' : Schedule) n d s name :
  mark_shifts daily_shifts rws sched = Ok sched' →
  last (filter (λ k, k.1.2 = d) rws) = Some (n, d, s) →
  getitem_daily_shifts daily_shifts s = Ok name →
  loc_get d sched' = Some name.
Proof.
  revert sched.
  induction rws as [|[[n0 d0] s0] rws IH]; intros sched Hrun Hlast Hname.
  - done.
  - cbn [mark_shifts] in Hrun.
    destruct (getitem_daily_shifts daily_shifts s0) as [name0|x] eqn:Hname0;
      [|done].
    cbn [obind] in Hrun.
    destruct (last (filter (λ k : Z * Z * Z, k.1.2 = d) rws)) as [y|] eqn:Hl.
    + apply (IH _ Hrun); [|done].
      destruct (decide (d0 = d)) as [->|Hne].
      * rewrite filter_cons_True in Hlast by done.
        by rewrite last_cons, Hl in Hlast.
      * rewrite filter_cons_False in Hlast by done. congruence.
    + apply last_None in Hl.
      rewrite (mark_shifts_keep _ _ _ _ d Hrun Hl), loc_get_set.
      destruct (decide (d0 = d)) as [->|Hne].
      * rewrite filter_cons_True in Hlast by done.
        rewrite Hl in Hlast. cbn in Hlast. injection Hlast as -> ->.
        rewrite decide_True by done. congruence.
      * rewrite filter_cons_False in Hlast by done.
        by rewrite Hl in Hlast.
Qed.

Lemma nurse_schedule_last (self : Scheduler.NurseSchedulingModel)
    fr rests (n : Z) sched d s name :
  Scheduler.solution self = Some fr →
  Scheduler.assigned_rests self = Some rests →
  nurse_schedule self n = Return sched →
  (n, d) ∉ rests →
  last (filter (λ r, r.1.1 = n ∧ r.1.2 = d) (rows fr)) = Some (n, d, s) →
  getitem_daily_shifts (Scheduler.daily_shifts self) s = Ok name →
  loc_get d sched = Some name.
Proof.
  intros Hsol Hrests Hrun Hnin Hlast Hname. unfold nurse_schedule in Hrun.
  destruct (new_schedule _ _) as [sched0|x]; [|done].
  rewrite Hsol in Hrun. destruct (Weekend fr); [|done].
  destruct (mark_shifts _ _ sched0) as [sched1|x] eqn:Hmark; [|done].
  rewrite Hrests in Hrun. injection Hrun as <-.
  rewrite mark_rests_get. rewrite decide_False.
  - eapply mark_shifts_last; [exact Hmark| |exact Hname].
    rewrite list_filter_filter.
    erewrite list_filter_iff; [exact Hlast|]. intros r. tauto.
  - intros Hin. apply list_elem_of_fmap in Hin as ([n' d'] & -> & Hin).
    apply list_elem_of_filter in Hin as [Heq Hin]. cbn in Heq. by subst.
Qed.

Lemma nurse_schedule_spec (self : Scheduler.NurseSchedulingModel)
    fr col rests (n : Z) :
  Scheduler.solution self = Some fr →
  Weekend fr = Some col →
  Scheduler.assigned_rests self = Some rests →
  Scheduler.start_day self ∈ days_of_week →
  (∀ n d s, (n, d, s) ∈ rows fr →
     s ∈ shift_keys (Scheduler.daily_shifts self)) →
  ∃ sched, nurse_schedule self n = Return sched ∧
    ∀ d, 0 ≤ d < Scheduler.num_days self →
      (∃ wd r, what_day d (Scheduler.start_day self) = Ok wd ∧
               loc_row d sched = Some r ∧
               row_Day r = Some d ∧ Day_Name r = Some wd.1) ∧
      ((n, d) ∈ rests → loc_get d sched = Some "Rest Day"%string) ∧
      ((n, d) ∉ rests → (∀ s, (n, d, s) ∉ rows fr) →
         loc_get d sched = Some "--"%string) ∧
      (∀ s name, (n, d) ∉ rests → (n, d, s) ∈ rows fr →
         (∀ s', (n, d, s') ∈ rows fr → s' = s) →
         getitem_daily_shifts (Scheduler.daily_shifts self) s = Ok name →
         loc_get d sched = Some name).
Proof.
  intros Hsol Hwk Hrests Hstart Hkeys.
  destruct (new_schedule_spec (Scheduler.num_days self)
              (Scheduler.start_day self) Hstart) as (sched0 & Hnew & Hrows0).
  destruct (mark_shifts_spec (Scheduler.daily_shifts self)
              (filter (λ r, r.1.1 = n) (rows fr)) sched0)
    as (sched1 & Hmark & Hnames & Hkeep & Hset).
  { intros n' d s Hin. apply list_elem_of_filter in Hin as [_ Hin]. eauto. }
  unfold nurse_schedule. rewrite Hnew, Hsol, Hwk, Hmark, Hrests.
  eexists. split; [reflexivity|]. intros d Hd.
  destruct (Hrows0 d Hd) as (wd & Hwd & Hrow0).
  assert (Hrest_in : ∀ d', d' ∈ (filter (λ r, r.1 = n) rests).*2 ↔
                           (n, d') ∈ rests).
  { intros d'. rewrite list_elem_of_fmap. split.
    - intros ([n' d''] & -> & Hin).
      apply list_elem_of_filter in Hin as [Heq Hin]. cbn in Heq. by subst.
    - intros Hin. exists (n, d'). split; [done|].
      by apply list_elem_of_filter. }
  assert (Hday_in : ∀ d', d' ∈ (λ k : Z * Z * Z, k.1.2)
                                 <$> filter (λ r, r.1.1 = n) (rows fr) ↔
                          ∃ s, (n, d', s) ∈ rows fr).
  { intros d'. rewrite list_elem_of_fmap. split.
    - intros ([[n' d''] s] & -> & Hin).
      apply list_elem_of_filter in Hin as [Heq Hin]. cbn in Heq. subst.
      eauto.
    - intros [s Hin]. exists (n, d', s). split; [done|].
      by apply list_elem_of_filter. }
  split; [|split; [|split]].
  - destruct (Hnames d _ Hrow0) as (r1 & Hr1 & Hd1 & Hn1).
    destruct (mark_rests_Day_Name (filter (λ r, r.1 = n) rests) sched1 d r1
                Hr1) as (r2 & Hr2 & Hd2 & Hn2).
    exists wd, r2. split; [done|]. split; [done|].
    rewrite Hd2, Hd1, Hn2, Hn1. done.
  - intros Hin. rewrite mark_rests_get.
    rewrite decide_True; [done|]. by apply Hrest_in.
  - intros Hnin Hnone. rewrite mark_rests_get.
    rewrite decide_False by (by rewrite Hrest_in).
    rewrite Hkeep.
    + unfold loc_get. by rewrite Hrow0.
    + rewrite Hday_in. intros [s Hin]. by eapply Hnone.
  - intros s name Hnin Hin Huniq Hname. rewrite mark_rests_get.
    rewrite decide_False by (by rewrite Hrest_in).
    eapply (Hset n d s name); [by apply list_elem_of_filter| |done].
    intros n' s' Hin'. apply list_elem_of_filter in Hin' as [Heq Hin'].
    cbn in Heq. subst n'. by apply Huniq.
Qed.

(** X15. The printed schedules. On a scheduler whose [solve] has set
    the solution, its weekend column and the rest days, with a starting
    weekday among the seven, solution rows whose shift type is in the
    mapping (as [solve] leaves them) and frames that can be written,
    [create_schedules_per_nurse] returns a schedule for every nurse of
    the roster. In it each day [d] of the horizon keeps its number and
    weekday name, and its label is: 'Rest Day' whenever the nurse is
    flagged as resting on [d], also when the nurse has a shift that
    day; otherwise, when the solution has rows of the nurse for [d],
    the name of the shift type of the last of them in the order of the
    frame, which is the only one when there is just one; and '--' when
    it has none. *)
Theorem create_schedules_per_nurse_labels
    (export : Z → Schedule → outcome unit)
    (self : Scheduler.NurseSchedulingModel) fr col rests :
  Scheduler.solution self = Some fr →
  Weekend fr = Some col →
  Scheduler.assigned_rests self = Some rests →
  Scheduler.start_day self ∈ days_of_week →
  (∀ n d s, (n, d, s) ∈ rows fr →
     s ∈ shift_keys (Scheduler.daily_shifts self)) →
  (∀ n sched, export n sched = Ok ()) →
  ∃ nurse_schedules,
    create_schedules_per_nurse export self = (Return (), nurse_schedules) ∧
    ∀ n, n ∈ col_Nurse (Scheduler.nurses self) →
      ∃ sched, schedules_get n nurse_schedules = Some sched ∧
        ∀ d, 0 ≤ d < Scheduler.num_days self →
          (∃ wd r, what_day d (Scheduler.start_day self) = Ok wd ∧
                   loc_row d sched = Some r ∧
                   row_Day r = Some d ∧ Day_Name r = Some wd.1) ∧
          ((n, d) ∈ rests → loc_get d sched = Some "Rest Day"%string) ∧
          ((n, d) ∉ rests → (∀ s, (n, d, s) ∉ rows fr) →
             loc_get d sched = Some "--"%string) ∧
          (∀ s name, (n, d) ∉ rests →
             last (filter (λ r, r.1.1 = n ∧ r.1.2 = d) (rows fr))
               = Some (n, d, s) →
             getitem_daily_shifts (Scheduler.daily_shifts self) s = Ok name →
             loc_get d sched = Some name) ∧
          (∀ s name, (n, d) ∉ rests → (n, d, s) ∈ rows fr →
             (∀ s', (n, d, s') ∈ rows fr → s' = s) →
             getitem_daily_shifts (Scheduler.daily_shifts self) s = Ok name →
             loc_get d sched = Some name).
Proof.
  intros Hsol Hwk Hrests Hstart Hkeys Hexp.
  destruct (schedules_loop_Return export self
              (col_Nurse (Scheduler.nurses self)) [] Hexp)
    as (acc' & Hrun & Hinv & Hin & _).
  { intros n _.
    destruct (nurse_schedule_spec self fr col rests n Hsol Hwk Hrests Hstart
                Hkeys) as (sched & Hs & _). eauto. }
  { intros n sched Hget. done. }
  exists acc'. split; [exact Hrun|]. intros n Hn.
  destruct (Hin n Hn) as [sched Hget]. exists sched. split; [done|].
  destruct (nurse_schedule_spec self fr col rests n Hsol Hwk Hrests Hstart
              Hkeys) as (sched' & Hs & Hprops).
  pose proof (Hinv n sched Hget) as Hsched.
  rewrite Hsched in Hs. injection Hs as <-.
  intros d Hd. destruct (Hprops d Hd) as (Hday & Hrest & Hnone & Hone).
  split; [exact Hday|]. split; [exact Hrest|]. split; [exact Hnone|].
  split; [|exact Hone].
  intros s name Hnin Hlast Hname.
  exact (nurse_schedule_last self fr rests n sched d s name
           Hsol Hrests Hsched Hnin Hlast Hname).
Qed.

Lemma create_schedules_per_nurse_labels_witness :
  Scheduler.solution demo_solved
    = Some (mkFrame [(1, 0, 1); (2, 0, 0); (2, 0, 1); (1, 1, 1)]
                    (Some [false; false; false; false])) ∧
  Scheduler.assigned_rests demo_solved = Some [(1, 0); (3, 2)] ∧
  Scheduler.start_day demo_solved ∈ days_of_week ∧
  ∃ nurse_schedules sched sched2,
    create_schedules_per_nurse (λ _ _, Ok ()) demo_solved
      = (Return (), nurse_schedules) ∧
    schedules_get 1 nurse_schedules = Some sched ∧
    loc_get 0 sched = Some "Rest Day"%string ∧
    loc_get 1 sched = Some "Night"%string ∧
    loc_get 2 sched = Some "--"%string ∧
    schedules_get 2 nurse_schedules = Some sched2 ∧
    loc_get 0 sched2 = Some "Night"%string.
Proof.
  assert (H1 : Scheduler.solution demo_solved
    = Some (mkFrame [(1, 0, 1); (2, 0, 0); (2, 0, 1); (1, 1, 1)]
                    (Some [false; false; false; false]))) by reflexivity.
  assert (H2 : Weekend (mkFrame [(1, 0, 1); (2, 0, 0); (2, 0, 1); (1, 1, 1)]
                          (Some [false; false; false; false]))
               = Some [false; false; false; false]) by reflexivity.
  assert (H3 : Scheduler.assigned_rests demo_solved = Some [(1, 0); (3, 2)])
    by reflexivity.
  assert (H4 : Scheduler.start_day demo_solved ∈ days_of_week) by left.
  assert (Hrows : ∀ k : Z * Z * Z,
            k ∈ [(1, 0, 1); (2, 0, 0); (2, 0, 1); (1, 1, 1)] →
            k = (1, 0, 1) ∨ k = (2, 0, 0) ∨ k = (2, 0, 1) ∨ k = (1, 1, 1)).
  { intros k Hk. apply elem_of_cons in Hk as [->|Hk]; [by left|].
    apply elem_of_cons in Hk as [->|Hk]; [by right; left|].
    apply elem_of_cons in Hk as [->|Hk]; [by right; right; left|].
    apply list_elem_of_singleton in Hk as ->. by right; right; right. }
  assert (H5 : ∀ n d s,
    (n, d, s) ∈ rows (mkFrame [(1, 0, 1); (2, 0, 0); (2, 0, 1); (1, 1, 1)]
                        (Some [false; false; false; false])) →
    s ∈ shift_keys (Scheduler.daily_shifts demo_solved)).
  { intros n d s Hin. cbn in Hin. cbn.
    destruct (Hrows _ Hin) as [[= -> -> ->]|[[= -> -> ->]|[[= -> -> ->]
                                |[= -> -> ->]]]];
      first [by left | by right; left]. }
  assert (H6 : ∀ (n : Z) (sched : Schedule), (λ _ _, Ok ()) n sched = Ok ())
    by reflexivity.
  destruct (create_schedules_per_nurse_labels (λ _ _, Ok ()) demo_solved
              _ _ _ H1 H2 H3 H4 H5 H6) as (nurse_schedules & Hrun & Hall).
  destruct (Hall 1) as (sched & Hget & Hdays); [by left|].
  destruct (Hall 2) as (sched2 & Hget2 & Hdays2); [by right; left|].
  split; [exact H1|]. split; [exact H3|]. split; [exact H4|].
  exists nurse_schedules, sched, sched2.
  split; [exact Hrun|]. split; [exact Hget|].
  assert (Hin : ∀ k : Z * Z, k ∈ [(1, 0); (3, 2)] → k = (1, 0) ∨ k = (3, 2)).
  { intros k Hk. apply elem_of_cons in Hk as [->|Hk]; [by left|].
    apply list_elem_of_singleton in Hk as ->. by right. }
  split; [|split; [|split; [|split]]].
  - destruct (Hdays 0) as (_ & Hrest & _); [cbn; lia|]. apply Hrest. left.
  - destruct (Hdays 1) as (_ & _ & _ & Hlast & _); [cbn; lia|].
    apply (Hlast 1).
    + intros Hk. by destruct (Hin _ Hk).
    + reflexivity.
    + reflexivity.
  - destruct (Hdays 2) as (_ & _ & Hnone & _); [cbn; lia|]. apply Hnone.
    + intros Hk. by destruct (Hin _ Hk).
    + intros s Hk. cbn in Hk.
      by destruct (Hrows _ Hk) as [?|[?|[?|?]]].
  - exact Hget2.
  - destruct (Hdays2 0) as (_ & _ & _ & Hlast & _); [cbn; lia|].
    apply (Hlast 1).
    + intros Hk. by destruct (Hin _ Hk).
    + reflexivity.
    + reflexivity.
Defined.

Lemma new_schedule_Raise num_days start_day :
  0 < num_days → start_day ∉ days_of_week →
  new_schedule num_days start_day = Raise ValueError.
Proof.
  intros Hnd Hs. unfold new_schedule. rewrite range_cons by done.
  cbn [day_names]. by rewrite what_day_Raise.
Qed.

Lemma new_schedule_Ok num_days start_day :
  start_day ∈ days_of_week ∨ num_days ≤ 0 →
  is_Ok (new_schedule num_days start_day).
Proof.
  intros [Hs|Hnd].
  - destruct (new_schedule_spec num_days start_day Hs) as (sched & H & _).
    by exists sched.
  - unfold new_schedule, range.
    replace (Z.to_nat (num_days - 0)) with 0%nat by lia. by eexists.
Qed.

(** X16. What [create_schedules_per_nurse] does on a scheduler that is
    not ready. With an empty roster it returns an empty dictionary,
    solved or not. With a nurse in the roster: a starting weekday that
    is not one of the seven names raises [ValueError] as soon as the
    horizon has a day; otherwise, before [solve] has set
    [self.solution], the method fails on the missing attribute; and a
    solution that [solve] left without its weekend column, as happens
    when the export of the rota table raised, gives [KeyError]. In
    each case no schedule has been stored. *)
Theorem create_schedules_per_nurse_not_ready
    (export : Z → Schedule → outcome unit)
    (self : Scheduler.NurseSchedulingModel) :
  (Scheduler.nurses self = [] →
     create_schedules_per_nurse export self = (Return (), [])) ∧
  (Scheduler.nurses self ≠ [] → 0 < Scheduler.num_days self →
     Scheduler.start_day self ∉ days_of_week →
     create_schedules_per_nurse export self = (Fail ValueError, [])) ∧
  (Scheduler.nurses self ≠ [] →
     Scheduler.start_day self ∈ days_of_week ∨ Scheduler.num_days self ≤ 0 →
     Scheduler.solution self = None →
     create_schedules_per_nurse export self = (FailAttribute, [])) ∧
  (Scheduler.nurses self ≠ [] →
     Scheduler.start_day self ∈ days_of_week ∨ Scheduler.num_days self ≤ 0 →
     ∀ rws, Scheduler.solution self = Some (mkFrame rws None) →
     create_schedules_per_nurse export self = (Fail KeyError, [])).
Proof.
  unfold create_schedules_per_nurse. repeat split.
  - by intros ->.
  - intros Hne Hnd Hs. destruct (Scheduler.nurses self) as [|r rs]; [done|].
    cbn [col_Nurse fmap list_fmap schedules_loop]. unfold nurse_schedule.
    by rewrite new_schedule_Raise.
  - intros Hne Hs Hsol. destruct (Scheduler.nurses self) as [|r rs]; [done|].
    cbn [col_Nurse fmap list_fmap schedules_loop]. unfold nurse_schedule.
    destruct (new_schedule_Ok _ _ Hs) as [sched ->]. by rewrite Hsol.
  - intros Hne Hs rws Hsol.
    destruct (Scheduler.nurses self) as [|r rs]; [done|].
    cbn [col_Nurse fmap list_fmap schedules_loop]. unfold nurse_schedule.
    destruct (new_schedule_Ok _ _ Hs) as [sched ->]. by rewrite Hsol.
Qed.

(** ** From the constructor to the printed schedules *)

(** X17. The whole run of main.py after the roster is read. On a
    freshly constructed scheduler with a non-empty roster, the shift
    indices 0, 1 and 2 and a starting weekday among the seven:
    [add_constraints] returns; if the solver then reports [OPTIMAL]
    with values that satisfy the model and the files can be written,
    [solve] and [create_schedules_per_nurse] return, and the schedule
    of each nurse shows on each day of the horizon 'Rest Day' if the
    solver set the nurse's rest variable of that day, else the name of
    the shift type whose variable the solver set for that nurse and day,
    else
    '--'. *)
Theorem schedules_show_solver_values
    nurses daily_shifts num_days start_day self :
  Scheduler.post_init nurses daily_shifts num_days start_day = Ok self →
  nurses ≠ [] →
  0 ≤ num_days →
  (∀ s, s ∈ [0; 1; 2] → s ∈ shift_keys daily_shifts) →
  start_day ∈ days_of_week →
  ∃ self1,
    Scheduler.add_constraints self = (Ok (), self1) ∧
    ∀ solver export_rota export,
      solver_contract (Scheduler.model self1) solver →
      status solver = OPTIMAL →
      export_rota (rota_dict solver (Scheduler.shifts self1)) = Ok () →
      (∀ n sched, export n sched = Ok ()) →
      ∃ self2 nurse_schedules,
        Scheduler.solve solver export_rota self1 = (Ok (), self2) ∧
        create_schedules_per_nurse export self2
          = (Return (), nurse_schedules) ∧
        ∀ n d, n ∈ col_Nurse nurses → 0 ≤ d < num_days →
          ∃ sched, schedules_get n nurse_schedules = Some sched ∧
            (is_assigned (values solver) (Scheduler.rest_days self) (n, d)
               = true →
             loc_get d sched = Some "Rest Day"%string) ∧
            (is_assigned (values solver) (Scheduler.rest_days self) (n, d)
               = false →
             ∀ s, is_assigned (values solver) (Scheduler.shifts self)
                    (n, d, s) = true →
               ∃ name, getitem_daily_shifts daily_shifts s = Ok name ∧
                       loc_get d sched = Some name) ∧
            (is_assigned (values solver) (Scheduler.rest_days self) (n, d)
               = false →
             (∀ s, is_assigned (values solver) (Scheduler.shifts self)
                     (n, d, s) = false) →
             loc_get d sched = Some "--"%string).
Proof.
  intros Hinit Hne Hnd Hkeys Hstart.
  destruct (post_init_built _ _ _ _ _ Hinit)
    as (Hns & Hds & Hn & Hsd & Hdays & Hnn & Hb).
  destruct (add_constraints_body_facts _ _ _ _ _
              (mkEnv (Scheduler.model self) []) Hinit Hne Hnd Hkeys Hstart)
    as ([] & e' & Hrun & Hext & Hcap & Hcov & Hteam).
  unfold Scheduler.add_constraints. rewrite Hrun.
  eexists. split; [reflexivity|].
  intros solver export_rota export Hcontract Hopt Hexport Hexp.
  cbn in Hcontract, Hexport.
  assert (Hsat : satisfies (values solver) (cp e') = true)
    by (apply Hcontract; by left).
  destruct (weekend_column_Ok start_day
              (rota_dict solver (Scheduler.shifts self)) Hstart)
    as (col & Hcol & _).
  unfold Scheduler.solve. rewrite decide_True by done. cbn.
  rewrite Hexport, Hsd, Hcol.
  set (sh := Scheduler.shifts self) in *.
  set (rs := Scheduler.rest_days self) in *.
  set (a := values solver) in *.
  set (fr := mkFrame (rota_dict solver sh) (Some col)).
  match goal with |- ∃ self2 _, (_, ?x) = _ ∧ _ => set (self2 := x) end.
  assert (Hsol : Scheduler.solution self2 = Some fr) by reflexivity.
  assert (Hwk : Weekend fr = Some col) by reflexivity.
  assert (Hrests : Scheduler.assigned_rests self2
                   = Some (rests_dict solver rs)) by reflexivity.
  assert (Hstart2 : Scheduler.start_day self2 ∈ days_of_week)
    by (cbn; by rewrite Hsd).
  assert (Huni : ∀ n d s, (n, d, s) ∈ rows fr →
            s ∈ shift_keys (Scheduler.daily_shifts self2)).
  { intros n d s Hk. cbn in Hk. cbn. rewrite Hds.
    apply elem_of_rota_dict in Hk.
    by destruct (assigned_in_universe nurses daily_shifts num_days sh rs a Hb
                   n d s Hk) as (_ & _ & ?). }
  destruct (schedules_loop_Return export self2
              (col_Nurse (Scheduler.nurses self2)) [] Hexp)
    as (acc' & Hloop & Hinv & Hin & _).
  { intros n _.
    destruct (nurse_schedule_spec self2 fr col _ n Hsol Hwk Hrests Hstart2
                Huni) as (sched & Hs & _). eauto. }
  { intros n sched Hget. done. }
  exists self2, acc'. split; [reflexivity|]. split; [exact Hloop|].
  intros n d Hnin Hd.
  destruct (Hin n) as [sched Hget]; [cbn; by rewrite Hns|].
  exists sched. split; [done|].
  destruct (nurse_schedule_spec self2 fr col _ n Hsol Hwk Hrests Hstart2 Huni)
    as (sched' & Hs & Hprops).
  rewrite (Hinv n sched Hget) in Hs. injection Hs as <-.
  destruct (Hprops d) as (_ & Hrest & Hnone & Hshift); [cbn; by rewrite Hn|].
  split; [|split].
  - intros Ha. apply Hrest. by apply elem_of_rests_dict.
  - intros Ha s Hs.
    destruct (assigned_in_universe nurses daily_shifts num_days sh rs a Hb
                n d s Hs) as (_ & _ & Hkey).
    destruct (getitem_daily_shifts_Ok daily_shifts s Hkey) as [name Hname].
    exists name. split; [done|]. apply (Hshift s name).
    + rewrite elem_of_rests_dict. fold a. by rewrite Ha.
    + by apply elem_of_rota_dict.
    + intros s' Hk'. apply elem_of_rota_dict in Hk'.
      destruct (assigned_in_universe nurses daily_shifts num_days sh rs a Hb
                  n d s' Hk') as (_ & _ & Hkey').
      by eapply (daily_one_shift daily_shifts sh (cp e') a Hsat n d s' s);
        auto.
    + cbn. by rewrite Hds.
  - intros Ha Hno. apply Hnone.
    + rewrite elem_of_rests_dict. fold a. by rewrite Ha.
    + intros s Hk. apply elem_of_rota_dict in Hk. fold a in Hk.
      by rewrite Hno in Hk.
Qed.

Lemma schedules_show_solver_values_witness :
  ∃ self self1,
    Scheduler.post_init ward_nurses ed_shifts 2 "Monday" = Ok self ∧
    ward_nurses ≠ [] ∧
    0 ≤ 2 ∧
    (∀ s, s ∈ [0; 1; 2] → s ∈ shift_keys ed_shifts) ∧
    "Monday"%string ∈ days_of_week ∧
    Scheduler.add_constraints self = (Ok (), self1) ∧
    solver_contract (Scheduler.model self1) ward_solver ∧
    status ward_solver = OPTIMAL ∧
    ∃ self2 nurse_schedules,
      Scheduler.solve ward_solver (λ _, Ok ()) self1 = (Ok (), self2) ∧
      create_schedules_per_nurse (λ _ _, Ok ()) self2
        = (Return (), nurse_schedules) ∧
      ∀ n d, n ∈ col_Nurse ward_nurses → 0 ≤ d < 2 →
        ∃ sched, schedules_get n nurse_schedules = Some sched ∧
          (is_assigned ward_values (Scheduler.rest_days self) (n, d) = true →
           loc_get d sched = Some "Rest Day"%string) ∧
          (is_assigned ward_values (Scheduler.rest_days self) (n, d) = false →
           ∀ s, is_assigned ward_values (Scheduler.shifts self) (n, d, s)
                  = true →
             ∃ name, getitem_daily_shifts ed_shifts s = Ok name ∧
                     loc_get d sched = Some name) ∧
          (is_assigned ward_values (Scheduler.rest_days self) (n, d) = false →
           (∀ s, is_assigned ward_values (Scheduler.shifts self) (n, d, s)
                   = false) →
           loc_get d sched = Some "--"%string).
Proof.
  destruct (post_init_Ok ward_nurses ed_shifts 2 "Monday") as [self Hself].
  assert (H1 : ward_nurses ≠ []) by done.
  assert (H2 : 0 ≤ 2) by lia.
  assert (H3 : ∀ s, s ∈ [0; 1; 2] → s ∈ shift_keys ed_shifts) by done.
  assert (H4 : "Monday"%string ∈ days_of_week) by left.
  destruct (schedules_show_solver_values ward_nurses ed_shifts 2 "Monday"
              self Hself H1 H2 H3 H4) as (self1 & Hrun & Hsolve).
  assert (H5 : solver_contract (Scheduler.model self1) ward_solver)
    by exact (ward_values_satisfy self self1 Hself Hrun).
  assert (H6 : status ward_solver = OPTIMAL) by reflexivity.
  exists self, self1.
  split; [exact Hself|]. split; [exact H1|]. split; [exact H2|].
  split; [exact H3|]. split; [exact H4|]. split; [exact Hrun|].
  split; [exact H5|]. split; [exact H6|].
  exact (Hsolve ward_solver (λ _, Ok ()) (λ _ _, Ok ()) H5 H6 eq_refl
           (λ _ _, eq_refl)).
Defined.

(** ** Add-Apply Constraints Basis/main.py *)

Lemma range_max (n : Z) : range 0 n = range 0 (Z.max n 0).
Proof. unfold range. f_equal. f_equal. lia. Qed.

Lemma main_registrations_registry :
  foldl (λ acc r, Basis.dict_set r.1 r.2 acc) [] main_registrations
    = main_registrations.
Proof. reflexivity. Qed.

(** X18. The script of the registry variant cannot get past
    [apply_constraints]. Its third registration hands
    [single_nurse_per_shift] the keywords of the block rule, which the
    function does not take: whatever the roster, the shift mapping and
    the horizon, the first two rules are applied to the model and the
    third call raises [TypeError]. *)
Theorem basis_main_py_fails nurses daily_shifts num_days start_day self :
  Basis.post_init nurses daily_shifts num_days start_day = Ok self →
  ∃ self',
    Basis.apply_constraints (register_all main_registrations self)
      = (Raise TypeError, self') ∧
    constraints (Basis.model self)
      `prefix_of` constraints (Basis.model self') ∧
    Basis.applied_constraints self' = main_registrations.
Proof.
  intros Hinit.
  destruct (Basis_post_init_Ok nurses daily_shifts num_days start_day)
    as (self0 & H0 & Hreg & _ & _ & _ & Hns & Hds & Hdays & Hb).
  rewrite H0 in Hinit. injection Hinit as ->.
  destruct (register_all_fields main_registrations self)
    as (Hm & Hsh & Hn & Hd & Hds').
  assert (Hregs : Basis.applied_constraints
                    (register_all main_registrations self)
                  = main_registrations).
  { by rewrite register_all_registry, Hreg, main_registrations_registry. }
  unfold Basis.apply_constraints, Basis.apply_constraints_body.
  rewrite Hregs, Hm, Hsh, Hn, Hd, Hds', Hns, Hds, Hdays, range_max.
  set (sh := Basis.shifts self).
  set (e0 := mkEnv (Basis.model self) []).
  assert (Hlook : ∀ n d s, n ∈ col_Nurse nurses → 0 ≤ d < Z.max num_days 0 →
            s ∈ shift_keys daily_shifts → is_Some (sh !! (n, d, s))).
  { intros n d s Hn' Hd' Hs. eapply built_shift_lookup; eauto.
    apply elem_of_range. lia. }
  destruct (pipeline_period nurses daily_shifts (Z.max num_days 0) sh
              ltac:(lia) Hlook 1 1 e0) as ([] & e1 & H1 & Hext1 & _); [lia|].
  destruct (pipeline_coverage nurses daily_shifts (Z.max num_days 0) sh
              Hlook e1) as ([] & e2 & H2 & Hext2 & _).
  assert (Hrun :
    for_each (Basis.dict_values main_registrations) (λ '(f, params),
      f sh nurses (range 0 (Z.max num_days 0)) daily_shifts params) e0
    = (Raise TypeError, e2)).
  { change (for_each _ _ e0) with
      ((limit_shifts_per_period sh nurses (range 0 (Z.max num_days 0))
          daily_shifts 1 1 ;;
        single_nurse_per_shift sh nurses (range 0 (Z.max num_days 0))
          daily_shifts ;;
        (lift (Raise TypeError) : M unit) ;; ret ()) e0).
    rewrite (run_seq_Ok _ _ _ _ H1), (run_seq_Ok _ _ _ _ H2). done. }
  rewrite Hrun. eexists. split; [reflexivity|]. cbn. split; [|done].
  destruct Hext1 as (_ & Hc1 & _), Hext2 as (_ & Hc2 & _). by etrans.
Qed.

Lemma basis_main_py_fails_witness :
  ∃ self self',
    Basis.post_init demo_nurses ed_shifts 56 "Monday" = Ok self ∧
    Basis.apply_constraints (register_all main_registrations self)
      = (Raise TypeError, self').
Proof.
  destruct (Basis_post_init_Ok demo_nurses ed_shifts 56 "Monday")
    as (self & Hself & _).
  destruct (basis_main_py_fails demo_nurses ed_shifts 56 "Monday" self Hself)
    as (self' & Hrun & _).
  exists self, self'. split; [exact Hself|exact Hrun].
Defined.

(** ** Weekends and weekdays of the horizon *)

Lemma what_day_next_week (day : Z) (start_day : string) :
  what_day (day + 7) start_day = what_day day start_day.
Proof.
  unfold what_day.
  destruct (list_index days_of_week start_day) as [i|x]; [|done].
  cbn [obind]. replace (i + (day + 7)) with (i + day + 1 * 7) by lia.
  by rewrite Z.mod_add by lia.
Qed.

Lemma weekend_flag_total start_day d :
  start_day ∈ days_of_week →
  weekend_flag start_day d = Some true ∨ weekend_flag start_day d = Some false.
Proof.
  intros Hs. unfold weekend_flag.
  destruct (proj2 (what_day_Ok_iff d start_day) Hs) as [[name []] ->]; auto.
Qed.

(** X19. The split of the horizon behind Constraints 8 and 9. For a
    starting weekday among the seven, the two list comprehensions of
    [add_constraints] return; the first keeps exactly the days that
    [what_day] names Saturday or Sunday, the second exactly the other
    days, so that every day of the horizon is in one of the two lists
    and in one only; a day and the day one week later are in the same
    list; and the day numbered 0 bears the name of the starting
    weekday. *)
Theorem weekend_weekday_split (start_day : string) (days : list Z) :
  start_day ∈ days_of_week →
  ∃ weekend_days weekday_days,
    days_where true start_day days = Ok weekend_days ∧
    days_where false start_day days = Ok weekday_days ∧
    (∀ d, d ∈ weekend_days ↔
          d ∈ days ∧ ∃ name, what_day d start_day = Ok (name, true) ∧
                             (name = "Saturday" ∨ name = "Sunday")%string) ∧
    (∀ d, d ∈ weekday_days ↔
          d ∈ days ∧ ∃ name, what_day d start_day = Ok (name, false) ∧
                             name ≠ "Saturday"%string ∧
                             name ≠ "Sunday"%string) ∧
    weekend_days ++ weekday_days ≡ₚ days ∧
    (∀ d, d ∈ days → d + 7 ∈ days →
          (d ∈ weekend_days ↔ d + 7 ∈ weekend_days)) ∧
    (∃ flag, what_day 0 start_day = Ok (start_day, flag)).
Proof.
  intros Hs. rewrite !days_where_spec by done.
  eexists _, _. split; [reflexivity|]. split; [reflexivity|].
  assert (Hname : ∀ d name flag, what_day d start_day = Ok (name, flag) →
            (flag = true ↔ name = "Saturday"%string ∨ name = "Sunday"%string)).
  { intros d name flag Hwd.
    apply list_elem_of_lookup in Hs as [i Hi].
    destruct (what_day_at d start_day i Hi) as (name' & flag' & Hwd' & _ & _ & H).
    rewrite Hwd in Hwd'. by injection Hwd' as -> ->. }
  split; [|split; [|split; [|split]]].
  - intros d. rewrite list_elem_of_filter. unfold weekend_flag. split.
    + intros [Hf Hd]. split; [done|].
      destruct (what_day d start_day) as [[name flag]|] eqn:Hwd; [|done].
      cbn in Hf. injection Hf as ->. exists name. split; [done|].
      by apply (Hname d name true).
    + intros [Hd (name & -> & _)]. done.
  - intros d. rewrite list_elem_of_filter. unfold weekend_flag. split.
    + intros [Hf Hd]. split; [done|].
      destruct (what_day d start_day) as [[name flag]|] eqn:Hwd; [|done].
      cbn in Hf. injection Hf as ->. exists name. split; [done|].
      pose proof (Hname d name false Hwd) as [_ H].
      split; intros ->; by (discriminate H; auto).
    + intros [Hd (name & -> & _)]. done.
  - rewrite (list_filter_iff (λ d, weekend_flag start_day d = Some false)
               (λ d, ¬ weekend_flag start_day d = Some true)).
    + apply filter_app_complement.
    + intros d.
      destruct (weekend_flag_total start_day d Hs) as [-> | ->]; split; done.
  - intros d Hd Hd7.
    rewrite !list_elem_of_filter. unfold weekend_flag.
    rewrite what_day_next_week. tauto.
  - apply list_elem_of_lookup in Hs as [i Hi].
    destruct (what_day_at 0 start_day i Hi) as (name & flag & Hwd & Hn & _).
    exists flag. rewrite Hwd. do 2 f_equal.
    apply lookup_lt_Some in Hi as Hlt. cbn in Hlt.
    rewrite Z.add_0_r, Z.mod_small, Nat2Z.id in Hn by lia. congruence.
Qed.

Lemma weekend_weekday_split_witness :
  "Wednesday"%string ∈ days_of_week ∧
  ∃ weekend_days weekday_days,
    days_where true "Wednesday" (range 0 9) = Ok weekend_days ∧
    days_where false "Wednesday" (range 0 9) = Ok weekday_days ∧
    weekend_days ++ weekday_days ≡ₚ range 0 9.
Proof.
  assert (H : "Wednesday"%string ∈ days_of_week) by (do 2 right; left).
  destruct (weekend_weekday_split "Wednesday" (range 0 9) H)
    as (we & wd & H1 & H2 & _ & _ & H3 & _).
  split; [exact H|]. exists we, wd.
  split; [exact H1|]. split; [exact H2|exact H3].
Defined.

(** ** A block day that is no weekday name *)

Lemma what_day_name_canonical d start_day name flag :
  what_day d start_day = Ok (name, flag) → name ∈ days_of_week.
Proof.
  intros Hwd.
  assert (Hs : start_day ∈ days_of_week)
    by (apply (what_day_Ok_iff d); by eexists).
  apply list_elem_of_lookup in Hs as [i Hi].
  destruct (what_day_at d start_day i Hi) as (name' & flag' & Hwd' & Hn & _).
  rewrite Hwd in Hwd'. injection Hwd' as -> ->.
  by eapply list_elem_of_lookup_2.
Qed.

Lemma for_each_skip {A} (xs : list A) (body : A → M unit) e :
  (∀ x, x ∈ xs → body x e = (Ok (), e)) → for_each xs body e = (Ok (), e).
Proof.
  induction xs as [|x xs IH]; intros Hbody; [done|].
  cbn [for_each]. rewrite (run_seq_Ok _ _ e e) by (apply Hbody; left).
  apply IH. intros y Hy. apply Hbody. by right.
Qed.

(** X20. A misspelt block day is not reported. When [start_shift_day]
    is not one of the seven weekday names (and [start_day] is),
    [assign_consecutive_shifts] compares it with the name of every day
    of the horizon, finds no match and returns normally: no variable,
    no constraint and no dictionary lookup, whatever the other
    arguments. *)
Theorem assign_consecutive_shifts_unknown_block_day
    (shifts : gmap (Z * Z * Z) nat) (nurses : list NurseRow)
    (rest_days : gmap (Z * Z) nat) (days : list Z)
    (daily_shifts : list (Z * string)) (start_day : string) (num_days : Z)
    (start_shift_day : string) (shift_index num_consecutive : Z) (e : Env) :
  start_day ∈ days_of_week →
  start_shift_day ∉ days_of_week →
  assign_consecutive_shifts shifts nurses rest_days days daily_shifts
    start_day num_days start_shift_day shift_index num_consecutive e
    = (Ok (), e).
Proof.
  intros Hs Hblock. unfold assign_consecutive_shifts.
  apply for_each_skip. intros d _.
  destruct (proj2 (what_day_Ok_iff d start_day) Hs) as [[name flag] Hwd].
  unfold bind at 1, lift. rewrite Hwd. cbn [fst].
  apply for_each_skip. intros n _.
  rewrite decide_False; [done|]. intros ->.
  apply Hblock. by eapply what_day_name_canonical.
Qed.

Lemma assign_consecutive_shifts_unknown_block_day_witness :
  "Monday"%string ∈ days_of_week ∧
  ("monday"%string ∉ days_of_week) ∧
  assign_consecutive_shifts ∅ demo_nurses ∅ (range 0 7) ed_shifts
    "Monday" 7 "monday" 2 3 (mkEnv empty_model []) = (Ok (), mkEnv empty_model []).
Proof.
  assert (H1 : "Monday"%string ∈ days_of_week) by left.
  assert (H2 : "monday"%string ∉ days_of_week).
  { apply (bool_decide_unpack _). vm_compute. exact I. }
  split; [exact H1|]. split; [exact H2|].
  exact (assign_consecutive_shifts_unknown_block_day ∅ demo_nurses ∅
           (range 0 7) ed_shifts "Monday" 7 "monday" 2 3
           (mkEnv empty_model []) H1 H2).
Defined.
